(** * BloomWatch HLS tile pipeline: a shallow embedding and its properties

    The development follows
    [innovators_crew_bloomwatch_reflex/innovators_crew_bloomwatch_reflex.py]
    (the helpers [_safe_float], [_geocode_address], [_deg_buffer],
    [_search_hls_items], [_bands_for_collection] and the event handler
    [State.fetch_tile]) and, where it is compared with them, the refactored
    client of [api/hls.py].

    Conventions.
    - Python floats are idealised as exact numbers: the rationals ([Q])
      for what is read from text (coordinates) and for the pixel arithmetic
      of the preview stretch, the reals ([R]) where the code takes a cosine.
      Rounding, infinities and NaN are outside the model.
    - Everything the code obtains from outside (HTTP answers, the raster
      backend, the file system, the clock, the library parsers [float] and
      [datetime.fromisoformat]) is a field of a [World] record.  An answer
      may depend on the whole history of interactions so far, and every
      interaction is appended to a trace of events.
    - A Python exception is a constructor of the result type, never a
      missing case. *)

From Stdlib Require Import ZArith QArith Qround Qreals Reals Lra Lia List Bool.
From Stdlib Require Import String Ascii DecimalString.
From Stdlib Require Import Permutation Sorted.
Import ListNotations.

(* ================================================================== *)
(** * Part I: definitions *)
(* ================================================================== *)

(** ** Spatial buffer *)

Module Geo.
Local Open Scope R_scope.

(** [math.radians] *)
Definition radians (deg : R) : R := deg * PI / 180.

(** [_deg_buffer(lat, meters)]: returns [(dlat, dlon)]. *)
Definition _deg_buffer (lat meters : R) : R * R :=
  let dlat := meters / 111320 in
  let dlon := meters / (111320 * Rmax (1 / 10) (cos (radians lat))) in
  (dlat, dlon).

(** [HLSClient.deg_buffer] of [api/hls.py]: the conversion written with
    factors per metre, with [abs(cos(..))] and no floor.  Over floats its
    result can differ from that of [_deg_buffer] in the last place. *)
Definition deg_buffer (lat meters : R) : R * R :=
  let lat_deg_per_m := 1 / 111320 in
  let lon_deg_per_m := 1 / (111320 * Rabs (cos (radians lat))) in
  (meters * lat_deg_per_m, meters * lon_deg_per_m).

(** The bounding box [(west, south, east, north)] built around a point, as
    in [_search_hls_items] (200 m) and [fetch_tile] (500 m). *)
Definition bbox_around (lat lon meters : R) : R * R * R * R :=
  let '(dlat, dlon) := _deg_buffer lat meters in
  (lon - dlon, lat - dlat, lon + dlon, lat + dlat).

End Geo.

(** ** Python strings *)

Module PyStr.
Local Open Scope string_scope.

(** [s.startswith(p)] *)
Definition startswith (s p : string) : bool := String.prefix p s.

(** [sub in s] *)
Fixpoint contains (sub s : string) : bool :=
  String.prefix sub s ||
  match s with
  | EmptyString => false
  | String _ s' => contains sub s'
  end.

(** [s.replace("Z", "+00:00")] *)
Fixpoint replace_Z (s : string) : string :=
  match s with
  | EmptyString => EmptyString
  | String c s' =>
      if Ascii.eqb c "Z"%char then "+00:00" ++ replace_Z s'
      else String c (replace_Z s')
  end.

(** The white space of [str.strip()] on ASCII text: space, TAB, LF, VT, FF,
    CR and the separators 28 to 31. *)
Definition is_space (c : ascii) : bool :=
  let n := nat_of_ascii c in
  Nat.eqb n 32 || (Nat.leb 9 n && Nat.leb n 13) || (Nat.leb 28 n && Nat.leb n 31).

Fixpoint lstrip (s : string) : string :=
  match s with
  | EmptyString => EmptyString
  | String c s' => if is_space c then lstrip s' else s
  end.

(** Drops the trailing white space: a character is kept when it is not
    white space or when something is kept after it. *)
Fixpoint rstrip (s : string) : string :=
  match s with
  | EmptyString => EmptyString
  | String c s' =>
      match rstrip s' with
      | EmptyString => if is_space c then EmptyString else String c EmptyString
      | r => String c r
      end
  end.

(** [s.strip()] *)
Definition strip (s : string) : string := rstrip (lstrip s).

(** Truthiness of a string: [bool(s)]. *)
Definition truthy (s : string) : bool :=
  match s with EmptyString => false | _ => true end.

(** [os.path.basename(p)]: what follows the last slash. *)
Fixpoint basename (p : string) : string :=
  match p with
  | EmptyString => EmptyString
  | String c p' =>
      if Ascii.eqb c "/"%char then basename p'
      else if contains "/" p' then basename p' else p
  end.

Definition endswith_slash (a : string) : bool :=
  match rev (list_ascii_of_string a) with
  | c :: _ => Ascii.eqb c "/"%char
  | [] => false
  end.

(** [os.path.join(a, b)] on POSIX paths. *)
Definition path_join (a b : string) : string :=
  if startswith b "/" then b
  else if negb (truthy a) || endswith_slash a then a ++ b
  else a ++ "/" ++ b.

(** [str(n)] for a non-negative integer, as in an f-string. *)
Definition str_of_nat (n : nat) : string :=
  NilZero.string_of_uint (Nat.to_uint n).

Definition str_of_N (n : N) : string :=
  NilZero.string_of_uint (N.to_uint n).

Fixpoint zeros (k : nat) : string :=
  match k with
  | O => EmptyString
  | S k' => String "0"%char (zeros k')
  end.

(** [f"{x:.<d>f}"]: the value rounded half to even at [d] decimals. *)
Definition format_f (d : nat) (x : Q) : string :=
  let p := (10 ^ Z.of_nat d)%Z in
  let num := (Z.abs (Qnum x) * p)%Z in
  let den := Z.pos (Qden x) in
  let a := (num / den)%Z in
  let r := (num mod den)%Z in
  let n :=
    if (2 * r <? den)%Z then a
    else if (den <? 2 * r)%Z then (a + 1)%Z
    else if Z.even a then a else (a + 1)%Z in
  let frac := str_of_N (Z.to_N (n mod p)) in
  (if (Qnum x <? 0)%Z then "-" else "") ++
  str_of_N (Z.to_N (n / p)) ++
  match d with
  | O => ""
  | S _ => "." ++ zeros (d - String.length frac) ++ frac
  end.

End PyStr.

(** ** Python dates and times *)

Module PyDatetime.
Local Open Scope Z_scope.

Definition US_PER_DAY : Z := 86400000000.

(** [date.max.toordinal()]: the ordinal of 9999-12-31; 0001-01-01 is day 1. *)
Definition MAXORDINAL : Z := 3652059.

(** A [datetime]: the wall-clock reading in microseconds since
    0001-01-01T00:00:00, and the UTC offset (in microseconds) of an aware
    value, [None] for a naive one. *)
Record datetime : Type := mkDatetime {
  naive_us : Z;
  utcoffset : option Z
}.

(** The representable wall-clock readings: [datetime.min] to [datetime.max]. *)
Definition in_range (us : Z) : bool :=
  (0 <=? us) && (us <? MAXORDINAL * US_PER_DAY).

(** [datetime.max] *)
Definition datetime_max : datetime :=
  {| naive_us := MAXORDINAL * US_PER_DAY - 1; utcoffset := None |}.

(** [dt + timedelta(days=d)]; [None] is Python's [OverflowError]. *)
Definition add_days (dt : datetime) (d : Z) : option datetime :=
  let us := naive_us dt + d * US_PER_DAY in
  if in_range us then Some {| naive_us := us; utcoffset := utcoffset dt |}
  else None.

(** [dt.date()], as a proleptic Gregorian ordinal. *)
Definition date_of (dt : datetime) : Z := naive_us dt / US_PER_DAY + 1.

(** [dt.replace(tzinfo=timezone.utc)] *)
Definition replace_utc (dt : datetime) : datetime :=
  {| naive_us := naive_us dt; utcoffset := Some 0 |}.

(** [if dt.tzinfo is None: dt = dt.replace(tzinfo=timezone.utc)] *)
Definition ensure_aware (dt : datetime) : datetime :=
  match utcoffset dt with
  | None => replace_utc dt
  | Some _ => dt
  end.

(** [abs(a - b)] in microseconds; mixing a naive and an aware value is
    Python's [TypeError], here [None]. *)
Definition abs_delta (a b : datetime) : option Z :=
  match utcoffset a, utcoffset b with
  | Some oa, Some ob => Some (Z.abs ((naive_us a - oa) - (naive_us b - ob)))
  | None, None => Some (Z.abs (naive_us a - naive_us b))
  | _, _ => None
  end.

(** *** The plain ISO fragment of [datetime.fromisoformat]

    [YYYY-MM-DD], optionally followed by [THH:MM:SS] and then by an offset
    [+HH:MM] or [-HH:MM].  It is used to run the model on concrete inputs;
    the properties below hold for any parser. *)

Definition is_leap (y : Z) : bool :=
  (y mod 4 =? 0) && (negb (y mod 100 =? 0) || (y mod 400 =? 0)).

Definition days_before_year (y : Z) : Z :=
  (y - 1) * 365 + (y - 1) / 4 - (y - 1) / 100 + (y - 1) / 400.

Definition days_in_month (y m : Z) : Z :=
  if m =? 2 then (if is_leap y then 29 else 28)
  else if (m =? 4) || (m =? 6) || (m =? 9) || (m =? 11) then 30 else 31.

Fixpoint days_before_month_from (y : Z) (k : nat) : Z :=
  match k with
  | O => 0
  | S k' => days_before_month_from y k' + days_in_month y (Z.of_nat k)
  end.

Definition ymd2ord (y m d : Z) : Z :=
  days_before_year y + days_before_month_from y (Z.to_nat (m - 1)) + d.

Definition digit (c : ascii) : option Z :=
  let n := Z.of_nat (nat_of_ascii c) in
  if (48 <=? n) && (n <=? 57) then Some (n - 48) else None.

Definition num2 (a b : ascii) : option Z :=
  match digit a, digit b with
  | Some x, Some y => Some (10 * x + y)
  | _, _ => None
  end.

Definition num4 (a b c d : ascii) : option Z :=
  match num2 a b, num2 c d with
  | Some x, Some y => Some (100 * x + y)
  | _, _ => None
  end.

Definition parse_offset (l : list ascii) : option (option Z) :=
  match l with
  | [] => Some None
  | [sg; h1; h2; c; m1; m2] =>
      match num2 h1 h2, num2 m1 m2 with
      | Some h, Some m =>
          if Ascii.eqb c ":"%char && (h <? 24) && (m <? 60) then
            let off := (h * 3600 + m * 60) * 1000000 in
            if Ascii.eqb sg "+"%char then Some (Some off)
            else if Ascii.eqb sg "-"%char then Some (Some (- off))
            else None
          else None
      | _, _ => None
      end
  | _ => None
  end.

Definition parse_time (l : list ascii) : option (Z * option Z) :=
  match l with
  | [] => Some (0, None)
  | t :: h1 :: h2 :: c1 :: m1 :: m2 :: c2 :: s1 :: s2 :: rest =>
      match num2 h1 h2, num2 m1 m2, num2 s1 s2, parse_offset rest with
      | Some h, Some m, Some s, Some off =>
          if Ascii.eqb t "T"%char && Ascii.eqb c1 ":"%char && Ascii.eqb c2 ":"%char
             && (h <? 24) && (m <? 60) && (s <? 60)
          then Some ((h * 3600 + m * 60 + s) * 1000000, off)
          else None
      | _, _, _, _ => None
      end
  | _ => None
  end.

Definition iso_parse (s : string) : option datetime :=
  match list_ascii_of_string s with
  | y1 :: y2 :: y3 :: y4 :: c1 :: m1 :: m2 :: c2 :: d1 :: d2 :: rest =>
      match num4 y1 y2 y3 y4, num2 m1 m2, num2 d1 d2, parse_time rest with
      | Some y, Some m, Some d, Some (tod, off) =>
          if Ascii.eqb c1 "-"%char && Ascii.eqb c2 "-"%char
             && (1 <=? y) && (1 <=? m) && (m <=? 12)
             && (1 <=? d) && (d <=? days_in_month y m)
          then Some {| naive_us := (ymd2ord y m d - 1) * US_PER_DAY + tod;
                       utcoffset := off |}
          else None
      | _, _, _, _ => None
      end
  | _ => None
  end.

(** [date(y, m, d).toordinal()] of a date written [YYYY-MM-DD]; 0 when the
    text is not a date. *)
Definition ordinal_of (s : string) : Z :=
  match iso_parse s with
  | Some dt => date_of dt
  | None => 0
  end.

End PyDatetime.

(** ** Catalogue records, raster bands and the outside world *)

(** A value of the [assets] mapping of a STAC item: a falsy value ([null]
    or an empty object), or an object with an optional [href] and the
    [href]s of its [alternates]. *)
Inductive asset : Type :=
| AssetFalsy
| Asset (href : option string) (alternates : list (option string)).

(** A STAC feature as the pipeline reads it: [collection] (the empty string
    when absent), [properties.datetime] (the empty string when absent) and
    [assets], a mapping from band code to asset. *)
Record feature : Type := mkFeature {
  collection : string;
  prop_datetime : string;
  assets : list (string * asset)
}.

(** An entry of the granule search: [time_start] and [dataset_id]. *)
Record granule : Type := mkGranule {
  time_start : string;
  dataset_id : string
}.

(** The outcome of one HTTP exchange that is followed by
    [raise_for_status()] and [json()]: any transport, status or parse
    failure, or the decoded payload. *)
Inductive http (A : Type) : Type :=
| HttpFailed
| HttpJson (payload : A).
Arguments HttpFailed {A}.
Arguments HttpJson {A} payload.

(** [(west, south, east, north)] *)
Definition bbox : Type := (R * R * R * R)%type.

(** The closed interval [<start>T00:00:00Z/<end>T23:59:59Z] of a query, by
    the ordinals of its two dates. *)
Record interval : Type := mkInterval {
  start_date : Z;
  end_date : Z
}.

(** The answer of the preflight [requests.get]: an exception, or a response
    with its status code. *)
Inductive probe_result : Type :=
| ProbeRaised
| ProbeStatus (status_code : Z).

(** One band read through a window: the pixels in row-major order, the
    shape, the dtype and the affine transform of the window. *)
Record band : Type := mkBand {
  pixels : list Q;
  height : nat;
  width : nat;
  dtype : string;
  transform : list R
}.

(** The outcome of opening a remote raster and reading the window. *)
Inductive read_result : Type :=
| ReadRaised
| ReadOk (data : band).

(** [meta_template], the profile of the output GeoTIFF ([driver], [crs],
    [compress] and [predictor] are constants of the code). *)
Record profile : Type := mkProfile {
  meta_dtype : string;
  meta_count : nat;
  meta_height : nat;
  meta_width : nat;
  meta_transform : list R
}.

(** Every interaction with the outside, with the answer it got. *)
Inductive event : Type :=
| EvGeocode (q : string) (ans : http (list (string * string)))
| EvSearchPoint (lon lat : Q) (limit : Z) (iv : interval)
    (ans : http (list feature))
| EvSearchBBox (box : bbox) (limit : Z) (iv : interval)
    (ans : http (list feature))
| EvCollectionItems (coll : string) (box : bbox) (limit : Z) (iv : interval)
    (ans : http (list feature))
| EvGranules (box : bbox) (iv : interval) (ans : http (list granule))
| EvProbe (href : option string) (bearer : option string)
    (ans : probe_result)
| EvRead (href : option string) (bearer : option string) (box : bbox)
    (ans : read_result)
| EvMakedirs (dir : string) (ok : bool)
| EvWriteTif (path : string) (meta : option profile) (bands : list band)
    (ok : bool)
| EvSavePng (path : string) (rgb : list (list Z)) (ok : bool).

Definition trace : Type := list event.

(** Appends an interaction to the history. *)
Definition log (tr : trace) (e : event) : trace := tr ++ [e].

(** The outside world.  The first two fields are the library parsers
    [float] and [datetime.fromisoformat] ([None] when they raise); the others
    are the environment, and answer an interaction given the history so far. *)
Record World : Type := mkWorld {
  py_float : string -> option Q;
  fromisoformat : string -> option PyDatetime.datetime;
  today : trace -> Z;
  raster_backend : bool;
  EARTHDATA_TOKEN : string;
  getcwd : string;
  geocode_get : trace -> string -> http (list (string * string));
  search_point : trace -> Q -> Q -> Z -> interval -> http (list feature);
  search_bbox : trace -> bbox -> Z -> interval -> http (list feature);
  collection_items :
    trace -> string -> bbox -> Z -> interval -> http (list feature);
  granules : trace -> bbox -> interval -> http (list granule);
  probe : trace -> option string -> option string -> probe_result;
  read_window :
    trace -> option string -> option string -> bbox -> read_result;
  makedirs : trace -> string -> bool;
  write_tif : trace -> string -> option profile -> list band -> bool;
  save_png : trace -> string -> list (list Z) -> bool
}.

(** Python exceptions that leave the modelled functions. *)
Inductive exn : Type :=
| ValueError
| OverflowError
| TypeError
| RasterError
| OSError.

(** The result of a call: a value, or an exception. *)
Inductive result (A : Type) : Type :=
| Returns (a : A)
| Raises (e : exn).
Arguments Returns {A} a.
Arguments Raises {A} e.

(** ** Catalogue search *)

Module Search.
Import PyDatetime.
Local Open Scope Z_scope.

Definition HLS_COLLECTIONS : list string :=
  ["HLSS30.v2.0"%string; "HLSL30.v2.0"%string].

(** [l[:n]] *)
Definition slice_to {A : Type} (l : list A) (n : Z) : list A :=
  if 0 <=? n then firstn (Z.to_nat n) l
  else firstn (List.length l - Z.to_nat (- n)) l.

(** The first lines of [_search_hls_items]: the dates fifteen days before
    and after the target, the end clamped to today. *)
Definition search_window (w : World) (dt : string) (tr : trace)
  : result interval :=
  match fromisoformat w dt with
  | None => Raises ValueError
  | Some t0 =>
      match add_days t0 (-15) with
      | None => Raises OverflowError
      | Some lo =>
          match add_days t0 15 with
          | None => Raises OverflowError
          | Some hi =>
              let start_date := date_of lo in
              let end_date := date_of hi in
              let today := today w tr in
              let end_date := if end_date >? today then today else end_date in
              Returns {| start_date := start_date; end_date := end_date |}
          end
      end
  end.

(** The window of [HLSClient.search_hls_items] in [api/hls.py], the
    refactored client that [State.fetch_tile] does not call: thirty days on
    each side of the target instant, with no clamp. *)
Definition client_window (target : datetime) : option (datetime * datetime) :=
  match add_days target (-30), add_days target 30 with
  | Some lo, Some hi => Some (lo, hi)
  | _, _ => None
  end.

(** [if feats: return feats] after an exchange that did not fail. *)
Definition found (a : http (list feature)) : option (list feature) :=
  match a with
  | HttpJson (f :: fs) => Some (f :: fs)
  | _ => None
  end.

(** The loop of stage 3 over the collections: [None] when a request fails
    (the [except] branch is taken), otherwise the concatenated features. *)
Fixpoint items_loop (w : World) (box : bbox) (limit : Z) (iv : interval)
    (colls : list string) (feats_all : list feature) (tr : trace)
  : option (list feature) * trace :=
  match colls with
  | [] => (Some feats_all, tr)
  | coll :: rest =>
      let a := collection_items w tr coll box limit iv in
      let tr' := log tr (EvCollectionItems coll box limit iv a) in
      match a with
      | HttpFailed => (None, tr')
      | HttpJson feats => items_loop w box limit iv rest (feats_all ++ feats) tr'
      end
  end.

(** The minimal feature fabricated from a granule entry. *)
Definition fabricate (g : granule) : feature :=
  {| collection :=
       if PyStr.contains "HLSS30" (dataset_id g) then "HLSS30.v2.0"%string
       else "HLSL30.v2.0"%string;
     prop_datetime := time_start g;
     assets := [] |}.

(** Stage 4, entered from the [except] branch of stage 3. *)
Definition granule_fallback (w : World) (box : bbox) (limit : Z)
    (iv : interval) (tr : trace) : list feature * trace :=
  let a := granules w tr box iv in
  let tr' := log tr (EvGranules box iv a) in
  match a with
  | HttpJson (g :: gs) => (map fabricate (slice_to (g :: gs) limit), tr')
  | _ => ([], tr')
  end.

(** The strategy an interaction belongs to; 0 for what is not a search. *)
Definition stage (e : event) : nat :=
  match e with
  | EvSearchPoint _ _ _ _ _ => 1
  | EvSearchBBox _ _ _ _ => 2
  | EvCollectionItems _ _ _ _ _ => 3
  | EvGranules _ _ _ => 4
  | _ => 0
  end.

(** [_search_hls_items(lat, lon, dt, limit)] *)
Definition _search_hls_items (w : World) (lat lon : Q) (dt : string)
    (limit : Z) (tr : trace) : result (list feature) * trace :=
  match search_window w dt tr with
  | Raises e => (Raises e, tr)
  | Returns iv =>
      if start_date iv >? end_date iv then (Returns [], tr)
      else
        (* 1) POST with intersects *)
        let a1 := search_point w tr lon lat limit iv in
        let tr1 := log tr (EvSearchPoint lon lat limit iv a1) in
        match found a1 with
        | Some feats => (Returns feats, tr1)
        | None =>
            (* 2) POST with a tiny bbox around the point *)
            let box := Geo.bbox_around (Q2R lat) (Q2R lon) 200 in
            let a2 := search_bbox w tr1 box limit iv in
            let tr2 := log tr1 (EvSearchBBox box limit iv a2) in
            match found a2 with
            | Some feats => (Returns feats, tr2)
            | None =>
                (* 3) per-collection items GET *)
                match items_loop w box limit iv HLS_COLLECTIONS [] tr2 with
                | (Some feats_all, tr3) => (Returns feats_all, tr3)
                | (None, tr3) =>
                    (* 4) granule search, metadata only *)
                    let '(feats, tr4) := granule_fallback w box limit iv tr3 in
                    (Returns feats, tr4)
                end
            end
        end
  end.

End Search.

(** ** Band taxonomy *)

Module Bands.
Local Open Scope string_scope.

Definition S30_BANDS : list string := ["B02"; "B03"; "B04"; "B8A"; "B11"; "B12"].
Definition L30_BANDS : list string := ["B02"; "B03"; "B04"; "B05"; "B06"; "B07"].

(** [_bands_for_collection(coll_id)] *)
Definition _bands_for_collection (coll_id : string) : list string :=
  if PyStr.startswith coll_id "HLSS30" then S30_BANDS else L30_BANDS.

(** [HLSClient.bands_for_collection] of [api/hls.py], which lists the bands
    available in a collection and is not called by the pipeline. *)
Definition bands_for_collection (collection_id : string) : list string :=
  if PyStr.contains "HLSL30" collection_id then
    ["B01"; "B02"; "B03"; "B04"; "B05"; "B06"; "B07"; "B08"; "B09"; "B10";
     "B11"]
  else if PyStr.contains "HLSS30" collection_id then
    ["B01"; "B02"; "B03"; "B04"; "B05"; "B06"; "B07"; "B08"; "B8A"; "B09";
     "B10"; "B11"; "B12"]
  else [].

End Bands.

(** ** Ranking of the acquisitions *)

Module Ranking.
Import PyDatetime.
Local Open Scope Z_scope.

(** [_dt_of(feat)]: the parsed timestamp made aware, or, when anything
    raises, [datetime.max] in UTC. *)
Definition _dt_of (w : World) (feat : feature) : datetime :=
  match fromisoformat w (PyStr.replace_Z (prop_datetime feat)) with
  | Some dt => ensure_aware dt
  | None => replace_utc datetime_max
  end.

(** The key of the sort: [abs(_dt_of(f) - target)]. *)
Definition sort_key (w : World) (target : datetime) (f : feature) : option Z :=
  abs_delta (_dt_of w f) target.

(** [list.sort(key=...)] computes every key first; a key that raises
    aborts the sort. *)
Fixpoint decorate {A : Type} (key : A -> option Z) (l : list A)
  : option (list (Z * A)) :=
  match l with
  | [] => Some []
  | x :: l' =>
      match key x, decorate key l' with
      | Some k, Some d => Some ((k, x) :: d)
      | _, _ => None
      end
  end.

(** Insertion before the first element whose key is not smaller: the new
    element comes from the left of everything already placed. *)
Fixpoint insert_by_key {A : Type} (x : Z * A) (l : list (Z * A))
  : list (Z * A) :=
  match l with
  | [] => [x]
  | y :: l' => if fst x <=? fst y then x :: y :: l' else y :: insert_by_key x l'
  end.

(** A stable sort of the decorated list.  [list.sort] is stable, and a
    stable sort has one possible result. *)
Fixpoint stable_sort {A : Type} (l : list (Z * A)) : list (Z * A) :=
  match l with
  | [] => []
  | x :: l' => insert_by_key x (stable_sort l')
  end.

(** [items.sort(key=key)] *)
Definition sort_by {A : Type} (key : A -> option Z) (l : list A)
  : result (list A) :=
  match decorate key l with
  | Some d => Returns (map snd (stable_sort d))
  | None => Raises TypeError
  end.

(** Lines 640 to 655 of [fetch_tile]: the target made aware, the sort by
    distance to it and [items[:3]]. *)
Definition rank (w : World) (date_str : string) (items : list feature)
  : result (list feature) :=
  match fromisoformat w date_str with
  | None => Raises ValueError
  | Some target =>
      let target := ensure_aware target in
      match sort_by (sort_key w target) items with
      | Returns sorted => Returns (firstn 3 sorted)
      | Raises e => Raises e
      end
  end.

(** The order of the decorated list, the test of a key, and the decorated
    pairs whose key is the key of their element. *)
Definition by_key {A : Type} : Z * A -> Z * A -> Prop :=
  fun a b => fst a <= fst b.

Definition has_key {A : Type} (k : Z) : Z * A -> bool := fun p => fst p =? k.

Definition tagged {A : Type} (d : A -> Z) : Z * A -> Prop :=
  fun p => fst p = d (snd p).

(** The instant of [datetime.max] read as UTC. *)
Definition MAX_UTC : Z := MAXORDINAL * US_PER_DAY - 1.

(** The instant of an aware value, in microseconds of UTC. *)
Definition utc_us (dt : datetime) : Z :=
  naive_us dt - match utcoffset dt with Some o => o | None => 0 end.

(** The distance the ranking uses between an acquisition and the target. *)
Definition distance (w : World) (target : datetime) (f : feature) : Z :=
  Z.abs (utc_us (_dt_of w f) - utc_us (ensure_aware target)).

(** An acquisition whose timestamp does not parse. *)
Definition unparsed (w : World) (f : feature) : Prop :=
  fromisoformat w (PyStr.replace_Z (prop_datetime f)) = None.

End Ranking.

(** ** Preview stretch *)

Module Preview.
Local Open Scope Q_scope.

Fixpoint insert_sorted (x : Q) (l : list Q) : list Q :=
  match l with
  | [] => [x]
  | y :: l' => if Qle_bool x y then x :: y :: l' else y :: insert_sorted x l'
  end.

Fixpoint sort (l : list Q) : list Q :=
  match l with
  | [] => []
  | x :: l' => insert_sorted x (sort l')
  end.

(** [np.percentile(x, q)] with the default linear interpolation: the value
    at the virtual index [q / 100 * (n - 1)] of the sorted data.  It is not
    defined on an empty array. *)
Definition percentile (x : list Q) (q : Q) : option Q :=
  match x with
  | [] => None
  | _ :: _ =>
      let s := sort x in
      let n := List.length x in
      let virtual := q / 100 * (inject_Z (Z.of_nat n) - 1) in
      let previous := Qfloor virtual in
      let gamma := virtual - inject_Z previous in
      let a := nth (Z.to_nat previous) s 0 in
      let b := nth (Nat.min (Z.to_nat previous + 1) (n - 1)) s 0 in
      Some (a + (b - a) * gamma)
  end.

(** The built-in [max(a, b)]: [b] when [b > a], else [a]. *)
Definition py_max (a b : Q) : Q := if Qle_bool b a then a else b.

(** A division that records a zero denominator instead of hiding it. *)
Definition checked_div (a b : Q) : option Q :=
  if Qeq_bool b 0 then None else Some (a / b).

(** [np.clip(v, 0, 1)] *)
Definition clip01 (v : Q) : Q :=
  if Qle_bool v 0 then 0 else if Qle_bool 1 v then 1 else v.

(** [astype("uint8")]: truncation, then wrap-around modulo 256. *)
Definition to_uint8 (v : Q) : Z :=
  (Z.quot (Qnum v) (Z.pos (Qden v)) mod 256)%Z.

Definition stretch_pixel (lo den v : Q) : option Z :=
  match checked_div (v - lo) den with
  | Some r => Some (to_uint8 (clip01 r * 255))
  | None => None
  end.

Fixpoint stretch_all (lo den : Q) (x : list Q) : option (list Z) :=
  match x with
  | [] => Some []
  | v :: x' =>
      match stretch_pixel lo den v, stretch_all lo den x' with
      | Some p, Some out => Some (p :: out)
      | _, _ => None
      end
  end.

(** The denominator of [_stretch]: [max(1e-6, hi - lo)]. *)
Definition denominator (lo hi : Q) : Q := py_max (1 # 1000000) (hi - lo).

(** [_stretch(x)] of [fetch_tile]; [None] when a percentile is undefined
    or a division has a zero denominator. *)
Definition _stretch (x : list Q) : option (list Z) :=
  match percentile x 2, percentile x 98 with
  | Some lo, Some hi => stretch_all lo (denominator lo hi) x
  | _, _ => None
  end.

End Preview.

(** ** The application state and the tile fetch *)

Module App.
Import PyStr.
Local Open Scope string_scope.

(** The fields of [State] up to the tile fetch outputs; the crop and layer
    detail fields that follow them are never mentioned by [fetch_tile]. *)
Record State : Type := mkState {
  map_ready : bool;
  selected_layer : string;
  map_src : string;
  date_str : string;
  bbox_minx : string;
  bbox_miny : string;
  bbox_maxx : string;
  bbox_maxy : string;
  input_lat : string;
  input_lon : string;
  input_address : string;
  fetch_status : string;
  tile_path : string;
  preview_png : string
}.

Definition set_input_lat (v : string) (s : State) : State :=
  mkState (map_ready s) (selected_layer s) (map_src s) (date_str s)
    (bbox_minx s) (bbox_miny s) (bbox_maxx s) (bbox_maxy s)
    v (input_lon s) (input_address s) (fetch_status s) (tile_path s)
    (preview_png s).

Definition set_input_lon (v : string) (s : State) : State :=
  mkState (map_ready s) (selected_layer s) (map_src s) (date_str s)
    (bbox_minx s) (bbox_miny s) (bbox_maxx s) (bbox_maxy s)
    (input_lat s) v (input_address s) (fetch_status s) (tile_path s)
    (preview_png s).

Definition set_fetch_status (v : string) (s : State) : State :=
  mkState (map_ready s) (selected_layer s) (map_src s) (date_str s)
    (bbox_minx s) (bbox_miny s) (bbox_maxx s) (bbox_maxy s)
    (input_lat s) (input_lon s) (input_address s) v (tile_path s)
    (preview_png s).

Definition set_tile_path (v : string) (s : State) : State :=
  mkState (map_ready s) (selected_layer s) (map_src s) (date_str s)
    (bbox_minx s) (bbox_miny s) (bbox_maxx s) (bbox_maxy s)
    (input_lat s) (input_lon s) (input_address s) (fetch_status s) v
    (preview_png s).

Definition set_preview_png (v : string) (s : State) : State :=
  mkState (map_ready s) (selected_layer s) (map_src s) (date_str s)
    (bbox_minx s) (bbox_miny s) (bbox_maxx s) (bbox_maxy s)
    (input_lat s) (input_lon s) (input_address s) (fetch_status s)
    (tile_path s) v.

(** The [return] statements of [fetch_tile], in the order of the source. *)
Inductive exit_point : Type :=
| AtNoLocation
| AtNoItems
| AtNoBackend
| AtUnauthorized
| AtIncomplete
| AtEnd.

(** How a call of [fetch_tile] ends. *)
Inductive outcome : Type :=
| Returned (at_ : exit_point)
| Raised (e : exn).

(** Inside a loop: go on with the loop variables, or leave the function. *)
Inductive flow (A : Type) : Type :=
| Next (a : A)
| Exit (o : outcome).
Arguments Next {A} a.
Arguments Exit {A} o.

Definition nl : string := String (ascii_of_nat 10) EmptyString.

Definition MSG_START : string := "Starting tile fetch…".
Definition MSG_GEOCODING : string := "Geocoding address…".
Definition MSG_NO_LOCATION : string := "Provide lat/lon or a valid address.".
Definition MSG_NO_ITEMS : string :=
  "No HLS items found near that point/date. Try adjusting date.".
Definition MSG_NO_BACKEND : string :=
  "Raster backend missing. Please `pip install rasterio numpy` in your venv.".
Definition MSG_NO_TOKEN : string :=
  "No EARTHDATA_TOKEN in environment — HLS protected assets will 401.".
Definition MSG_UNAUTHORIZED : string :=
  "Unauthorized (401/403) reading HLS asset. " ++
  "Ensure EARTHDATA_TOKEN is set and valid in the same shell before running `reflex run`.".
Definition MSG_READY : string := "Tile ready.".

Definition msg_band_missing (b : string) : string :=
  "Band " ++ b ++ " missing in item; skipping.".

Definition msg_incomplete (n : nat) : string :=
  "Expected 18 band slices, got " ++ str_of_nat n ++ "." ++ nl ++
  "If you set EARTHDATA_TOKEN, ensure it's valid and restart the app." ++ nl ++
  "We now send the token via HTTP Authorization header for ranged reads.".

(** [_safe_float(s)] *)
Definition _safe_float (w : World) (s : string) : option Q :=
  if truthy s then py_float w s else None.

(** [_geocode_address(q)]: the first hit of the geocoder, as [(lat, lon)];
    every failure is swallowed. *)
Definition _geocode_address (w : World) (q : string) (tr : trace)
  : option (Q * Q) * trace :=
  let a := geocode_get w tr q in
  let tr' := log tr (EvGeocode q a) in
  match a with
  | HttpJson ((la, lo) :: _) =>
      match py_float w la, py_float w lo with
      | Some x, Some y => (Some (x, y), tr')
      | _, _ => (None, tr')
      end
  | _ => (None, tr')
  end.

Definition is_none {A : Type} (o : option A) : bool :=
  match o with None => true | Some _ => false end.

(** The first part of [fetch_tile]: the coordinate typed by the caller or,
    failing that, the geocoded address. *)
Definition locate (w : World) (st : State) (tr : trace)
  : option Q * option Q * State * trace :=
  let lat := _safe_float w (input_lat st) in
  let lon := _safe_float w (input_lon st) in
  if (is_none lat || is_none lon) && truthy (strip (input_address st)) then
    let st := set_fetch_status MSG_GEOCODING st in
    let '(res, tr) := _geocode_address w (strip (input_address st)) tr in
    match res with
    | Some (la, lo) =>
        let st := set_input_lat (format_f 6 la) st in
        let st := set_input_lon (format_f 6 lo) st in
        (Some la, Some lo, st, tr)
    | None => (lat, lon, st, tr)
    end
  else (lat, lon, st, tr).

(** [assets.get(b)] *)
Fixpoint dict_get (d : list (string * asset)) (k : string) : option asset :=
  match d with
  | [] => None
  | (k', v) :: d' => if String.eqb k' k then Some v else dict_get d' k
  end.

(** [url and url.startswith("https://")] *)
Definition is_https (url : option string) : bool :=
  match url with
  | Some u => truthy u && startswith u "https://"
  | None => false
  end.

(** [_pick_href(asset)] *)
Definition _pick_href (a : asset) : option string :=
  match a with
  | AssetFalsy => None
  | Asset url alternates =>
      if is_https url then url
      else
        match find is_https alternates with
        | Some href => href
        | None => url
        end
  end.

(** The loop that gathers one [href] per band: [inl b] when band [b] is
    missing (the loop breaks with [hrefs = []]), else the [href]s. *)
Fixpoint collect_hrefs (d : list (string * asset)) (bands : list string)
    (hrefs : list (option string)) : string + list (option string) :=
  match bands with
  | [] => inr hrefs
  | b :: rest =>
      match dict_get d b with
      | None | Some AssetFalsy => inl b
      | Some a => collect_hrefs d rest (hrefs ++ [_pick_href a])%list
      end
  end.

(** [probe.status_code in (401, 403)] *)
Definition unauthorized (p : probe_result) : bool :=
  match p with
  | ProbeStatus c => (c =? 401)%Z || (c =? 403)%Z
  | ProbeRaised => false
  end.

(** The running variables of the extraction: [arrays] and [meta_template]. *)
Definition stack : Type := (list band * option profile)%type.

(** [meta_template] is filled by the first band that is read. *)
Definition fill_meta (meta : option profile) (data : band) : option profile :=
  match meta with
  | Some m => Some m
  | None =>
      Some {| meta_dtype := dtype data;
              meta_count := 18;
              meta_height := height data;
              meta_width := width data;
              meta_transform := transform data |}
  end.

(** The inner loop [for href in hrefs]: preflight, then windowed read. *)
Fixpoint read_bands (w : World) (bearer : option string) (box : bbox)
    (hrefs : list (option string)) (acc : stack) (st : State) (tr : trace)
  : flow stack * State * trace :=
  match hrefs with
  | [] => (Next acc, st, tr)
  | href :: rest =>
      let p := probe w tr href bearer in
      let tr1 := log tr (EvProbe href bearer p) in
      if unauthorized p then
        (Exit (Returned AtUnauthorized), set_fetch_status MSG_UNAUTHORIZED st, tr1)
      else
        let r := read_window w tr1 href bearer box in
        let tr2 := log tr1 (EvRead href bearer box r) in
        match r with
        | ReadRaised => (Exit (Raised RasterError), st, tr2)
        | ReadOk data =>
            let acc := ((fst acc ++ [data])%list, fill_meta (snd acc) data) in
            read_bands w bearer box rest acc st tr2
        end
  end.

(** The outer loop [for it in items]. *)
Fixpoint extract (w : World) (bearer : option string) (box : bbox)
    (items : list feature) (acc : stack) (st : State) (tr : trace)
  : flow stack * State * trace :=
  match items with
  | [] => (Next acc, st, tr)
  | it :: rest =>
      let bands := Bands._bands_for_collection (collection it) in
      match collect_hrefs (assets it) bands [] with
      | inl b =>
          extract w bearer box rest acc
            (set_fetch_status (msg_band_missing b) st) tr
      | inr [] => extract w bearer box rest acc st tr
      | inr hrefs =>
          match read_bands w bearer box hrefs acc st tr with
          | (Next acc', st', tr') => extract w bearer box rest acc' st' tr'
          | (Exit o, st', tr') => (Exit o, st', tr')
          end
      end
  end.

(** [l[i:j]] *)
Definition slice {A : Type} (l : list A) (i j : Z) : list A :=
  let n := Z.of_nat (List.length l) in
  let norm := fun k : Z => if (k <? 0)%Z then Z.max (n + k) 0 else Z.min k n in
  firstn (Z.to_nat (norm j - norm i)) (skipn (Z.to_nat (norm i)) l).

Definition same_shape (a b : band) : bool :=
  Nat.eqb (height a) (height b) && Nat.eqb (width a) (width b).

(** The [try] block of the preview: the red, green and blue bands of the
    last acquisition, each stretched, saved as a PNG.  Returns the new value
    of [preview_png], which is empty when anything raised. *)
Definition build_preview (w : World) (out_png : string) (arrays : list band)
    (tr : trace) : string * trace :=
  match rev (slice arrays (-6) (-3)) with
  | [r; g; b] =>
      if same_shape r g && same_shape r b then
        match Preview._stretch (pixels r), Preview._stretch (pixels g),
              Preview._stretch (pixels b) with
        | Some cr, Some cg, Some cb =>
            let rgb := [cr; cg; cb] in
            let ok := save_png w tr out_png rgb in
            (if ok then "/" ++ basename out_png else "",
             log tr (EvSavePng out_png rgb ok))
        | _, _, _ => ("", tr)
        end
      else ("", tr)
  | _ => ("", tr)
  end.

(** From the count check to the end of [fetch_tile]. *)
Definition finish (w : World) (lat lon : Q) (acc : stack) (st : State)
    (tr : trace) : outcome * State * trace :=
  let arrays := fst acc in
  if negb (Nat.eqb (List.length arrays) 18) then
    (Returned AtIncomplete,
     set_fetch_status (msg_incomplete (List.length arrays)) st, tr)
  else
    let assets_dir := path_join (getcwd w) "assets" in
    let ok := makedirs w tr assets_dir in
    let tr1 := log tr (EvMakedirs assets_dir ok) in
    if negb ok then (Raised OSError, st, tr1)
    else
      let stem :=
        "hls_tile_" ++ format_f 5 lat ++ "_" ++ format_f 5 lon ++ "_"
        ++ date_str st in
      let out_tif := path_join assets_dir (stem ++ ".tif") in
      let out_png := path_join assets_dir (stem ++ ".png") in
      let written := write_tif w tr1 out_tif (snd acc) arrays in
      let tr2 := log tr1 (EvWriteTif out_tif (snd acc) arrays written) in
      if negb written then (Raised RasterError, st, tr2)
      else
        let '(png, tr3) := build_preview w out_png arrays tr2 in
        let st := set_preview_png png st in
        let st := set_tile_path ("/" ++ basename out_tif) st in
        (Returned AtEnd, set_fetch_status MSG_READY st, tr3).

(** [State.fetch_tile] *)
Definition fetch_tile (w : World) (st : State) (tr : trace)
  : outcome * State * trace :=
  let st := set_fetch_status MSG_START st in
  let '(lat, lon, st, tr) := locate w st tr in
  match lat, lon with
  | Some lat, Some lon =>
      match Search._search_hls_items w lat lon (date_str st) 20 tr with
      | (Raises e, tr) => (Raised e, st, tr)
      | (Returns [], tr) => (Returned AtNoItems, set_fetch_status MSG_NO_ITEMS st, tr)
      | (Returns items, tr) =>
          match Ranking.rank w (date_str st) items with
          | Raises e => (Raised e, st, tr)
          | Returns items =>
              if negb (raster_backend w) then
                (Returned AtNoBackend, set_fetch_status MSG_NO_BACKEND st, tr)
              else
                let box := Geo.bbox_around (Q2R lat) (Q2R lon) 500 in
                let token := strip (EARTHDATA_TOKEN w) in
                let bearer := if truthy token then Some token else None in
                let st :=
                  if truthy token then st else set_fetch_status MSG_NO_TOKEN st in
                match extract w bearer box items ([], None) st tr with
                | (Exit o, st, tr) => (o, st, tr)
                | (Next acc, st, tr) => finish w lat lon acc st tr
                end
          end
      end
  | _, _ => (Returned AtNoLocation, set_fetch_status MSG_NO_LOCATION st, tr)
  end.

(** *** Vocabulary for the properties of a run *)

Definition is_geocode (e : event) : bool :=
  match e with EvGeocode _ _ => true | _ => false end.

Definition is_probe_or_read (e : event) : bool :=
  match e with EvProbe _ _ _ | EvRead _ _ _ _ => true | _ => false end.

(** The interactions with the file system, and those that write a file. *)
Definition is_fs (e : event) : bool :=
  match e with
  | EvMakedirs _ _ | EvWriteTif _ _ _ _ | EvSavePng _ _ _ => true
  | _ => false
  end.

Definition is_write (e : event) : bool :=
  match e with EvWriteTif _ _ _ _ | EvSavePng _ _ _ => true | _ => false end.

(** A preflight answered 401 or 403. *)
Definition is_fatal (e : event) : bool :=
  match e with EvProbe _ _ p => unauthorized p | _ => false end.

(** A windowed read that returned its band. *)
Definition read_ok (e : event) : bool :=
  match e with EvRead _ _ _ (ReadOk _) => true | _ => false end.

Definition bands_read (evs : list event) : nat :=
  List.length (filter read_ok evs).

(** An acquisition that has a usable asset for each of its six bands. *)
Definition has_asset (d : list (string * asset)) (b : string) : bool :=
  match dict_get d b with
  | Some (Asset _ _) => true
  | _ => false
  end.

Definition complete (it : feature) : bool :=
  forallb (has_asset (assets it)) (Bands._bands_for_collection (collection it)).

Definition count_complete (items : list feature) : nat :=
  List.length (filter complete items).

(** The fields that [fetch_tile] never assigns. *)
Definition untouched (st st' : State) : Prop :=
  map_ready st' = map_ready st
  /\ selected_layer st' = selected_layer st
  /\ map_src st' = map_src st
  /\ date_str st' = date_str st
  /\ bbox_minx st' = bbox_minx st
  /\ bbox_miny st' = bbox_miny st
  /\ bbox_maxx st' = bbox_maxx st
  /\ bbox_maxy st' = bbox_maxy st
  /\ input_address st' = input_address st.

(** The two output fields are as they were. *)
Definition outputs_kept (st st' : State) : Prop :=
  tile_path st' = tile_path st /\ preview_png st' = preview_png st.

(** Only [fetch_status] may differ. *)
Definition status_only (st st' : State) : Prop :=
  st' = set_fetch_status (fetch_status st') st.

Definition is_search (e : event) : bool := negb (Nat.eqb (Search.stage e) 0).

Definition not_fatal (e : event) : Prop := is_fatal e = false.

(** What the inner loop over the [href]s of one acquisition does, by the
    way it ends: [n] bands read, or a fatal preflight as last interaction,
    or an exception. *)
Definition read_bands_post (bearer : option string) (n : nat) (acc : stack)
    (st : State) (r : flow stack) (st' : State) (evs : list event) : Prop :=
  match r with
  | Next acc' =>
      st' = st
      /\ Forall not_fatal evs
      /\ bands_read evs = n
      /\ List.length (fst acc') = (List.length (fst acc) + n)%nat
  | Exit (Returned AtUnauthorized) =>
      st' = set_fetch_status MSG_UNAUTHORIZED st
      /\ exists pre h p,
          evs = (pre ++ [EvProbe h bearer p])%list
          /\ unauthorized p = true
          /\ Forall not_fatal pre
  | Exit (Raised _) => st' = st /\ Forall not_fatal evs
  | Exit (Returned _) => False
  end.

(** The same for the loop over the acquisitions. *)
Definition extract_post (bearer : option string) (items : list feature)
    (acc : stack) (st : State) (r : flow stack) (st' : State)
    (evs : list event) : Prop :=
  status_only st st'
  /\ match r with
     | Next acc' =>
         Forall not_fatal evs
         /\ bands_read evs = (6 * count_complete items)%nat
         /\ List.length (fst acc')
            = (List.length (fst acc) + 6 * count_complete items)%nat
     | Exit (Returned AtUnauthorized) =>
         fetch_status st' = MSG_UNAUTHORIZED
         /\ exists pre h p,
             evs = (pre ++ [EvProbe h bearer p])%list
             /\ unauthorized p = true
             /\ Forall not_fatal pre
     | Exit (Raised _) => Forall not_fatal evs
     | Exit (Returned _) => False
     end.

(** What happens from the count check on. *)
Definition finish_post (acc : stack) (st : State) (o : outcome) (st' : State)
    (evs : list event) : Prop :=
  match o with
  | Returned AtIncomplete =>
      List.length (fst acc) <> 18%nat
      /\ evs = []
      /\ st' = set_fetch_status (msg_incomplete (List.length (fst acc))) st
  | Returned AtEnd =>
      List.length (fst acc) = 18%nat
      /\ exists dir path png rest,
          evs = EvMakedirs dir true :: EvWriteTif path (snd acc) (fst acc) true
                :: rest
          /\ Forall (fun e => is_fs e = true) rest
          /\ st' = set_fetch_status MSG_READY
                     (set_tile_path ("/" ++ basename path)
                        (set_preview_png png st))
  | Raised _ =>
      List.length (fst acc) = 18%nat
      /\ st' = st
      /\ (exists dir, evs = [EvMakedirs dir false]
          \/ exists path, evs = [EvMakedirs dir true;
                                 EvWriteTif path (snd acc) (fst acc) false])
  | Returned _ => False
  end.

(** What [locate] does: nothing when both typed texts parse or the address
    is blank; otherwise one geocoding request, whose first hit, when it has
    one that parses, replaces the coordinate and the two typed texts. *)
Definition locate_post (w : World) (st : State) (lat lon : option Q)
    (st1 : State) (evs : list event) : Prop :=
  let typed_lat := _safe_float w (input_lat st) in
  let typed_lon := _safe_float w (input_lon st) in
  let q := strip (input_address st) in
  if (is_none typed_lat || is_none typed_lon) && truthy q then
    exists a,
      evs = [EvGeocode q a]
      /\ ((exists la lo,
              lat = Some la /\ lon = Some lo
              /\ st1 = set_input_lon (format_f 6 lo)
                         (set_input_lat (format_f 6 la)
                            (set_fetch_status MSG_GEOCODING st)))
          \/ (lat = typed_lat /\ lon = typed_lon
              /\ st1 = set_fetch_status MSG_GEOCODING st))
  else evs = [] /\ lat = typed_lat /\ lon = typed_lon /\ st1 = st.

(** A point request carries the coordinate [(lat, lon)]. *)
Definition at_point (lat lon : Q) (e : event) : Prop :=
  match e with
  | EvSearchPoint lo la _ _ _ => lo = lon /\ la = lat
  | _ => True
  end.

(** A write that succeeded. *)
Definition write_ok (e : event) : bool :=
  match e with
  | EvWriteTif _ _ _ ok | EvSavePng _ _ ok => ok
  | _ => false
  end.

(** The shape of a run of [fetch_tile]: the events of the four phases
    (locating, searching, extracting, writing) and, for each way of ending,
    what was done and how the state was left. *)
Definition run_post (w : World) (st : State) (tr : trace) (o : outcome)
    (st' : State) (evs : list event) : Prop :=
  exists lat lon st1 ev_loc ev_search ev_ext ev_fin,
    locate w (set_fetch_status MSG_START st) tr = (lat, lon, st1, (tr ++ ev_loc)%list)
    /\ evs = (ev_loc ++ ev_search ++ ev_ext ++ ev_fin)%list
    /\ Forall (fun e => is_geocode e = true) ev_loc
    /\ Forall (fun e => is_search e = true) ev_search
    /\ Forall (fun e => is_probe_or_read e = true) ev_ext
    /\ Forall (fun e => is_fs e = true) ev_fin
    /\ (forall la lo, lat = Some la -> lon = Some lo ->
        exists r,
          Search._search_hls_items w la lo (date_str st1) 20 (tr ++ ev_loc)%list
          = (r, (tr ++ ev_loc ++ ev_search)%list))
    /\ (o = Returned AtNoLocation
        \/ exists la lo, lat = Some la /\ lon = Some lo)
    /\ match o with
       | Returned AtNoLocation =>
           (lat = None \/ lon = None)
           /\ ev_search = [] /\ ev_ext = [] /\ ev_fin = []
           /\ st' = set_fetch_status MSG_NO_LOCATION st1
       | Returned AtNoItems =>
           ev_ext = [] /\ ev_fin = []
           /\ st' = set_fetch_status MSG_NO_ITEMS st1
       | Returned AtNoBackend =>
           ev_ext = [] /\ ev_fin = []
           /\ st' = set_fetch_status MSG_NO_BACKEND st1
       | Returned AtUnauthorized =>
           ev_fin = []
           /\ st' = set_fetch_status MSG_UNAUTHORIZED st1
           /\ exists pre h b p,
               ev_ext = (pre ++ [EvProbe h b p])%list
               /\ unauthorized p = true
               /\ Forall not_fatal pre
       | Returned AtIncomplete =>
           ev_fin = []
           /\ Forall not_fatal ev_ext
           /\ bands_read ev_ext <> 18%nat
           /\ (exists items,
                 (List.length items <= 3)%nat
                 /\ bands_read ev_ext = (6 * count_complete items)%nat)
           /\ st' = set_fetch_status (msg_incomplete (bands_read ev_ext)) st1
       | Returned AtEnd =>
           Forall not_fatal ev_ext
           /\ bands_read ev_ext = 18%nat
           /\ exists dir path meta bands png rest,
               ev_fin = EvMakedirs dir true :: EvWriteTif path meta bands true
                        :: rest
               /\ List.length bands = 18%nat
               /\ st' = set_fetch_status MSG_READY
                          (set_tile_path ("/" ++ basename path)
                             (set_preview_png png st1))
       | Raised _ =>
           Forall not_fatal ev_ext
           /\ status_only st1 st'
           /\ Forall (fun e => write_ok e = false) ev_fin
           /\ (ev_fin = [] \/ bands_read ev_ext = 18%nat)
       end.

(** The range a coordinate should lie in. *)
Definition in_wgs84 (lat lon : Q) : Prop :=
  (-90 <= lat <= 90)%Q /\ (-180 <= lon <= 180)%Q.

End App.

(** ** Concrete worlds

    Small instances of [World] on which the model runs: the decimal fragment
    of [float], the ISO fragment of [datetime.fromisoformat], and canned
    answers of the services. *)

Module Scenario.
Import PyDatetime.
Local Open Scope string_scope.

Fixpoint digits_value (l : list ascii) (acc : Z) : option Z :=
  match l with
  | [] => Some acc
  | c :: l' =>
      match digit c with
      | Some d => digits_value l' (10 * acc + d)%Z
      | None => None
      end
  end.

Fixpoint split_dot (l : list ascii) : list ascii * option (list ascii) :=
  match l with
  | [] => ([], None)
  | c :: l' =>
      if Ascii.eqb c "."%char then ([], Some l')
      else let '(a, b) := split_dot l' in (c :: a, b)
  end.

(** [float(s)] on plain decimals: an optional minus sign, digits, and an
    optional fraction. *)
Definition decimal (s : string) : option Q :=
  let l := list_ascii_of_string s in
  let '(neg, l) :=
    match l with
    | c :: r => if Ascii.eqb c "-"%char then (true, r) else (false, l)
    | [] => (false, l)
    end in
  let '(ip, fp) := split_dot l in
  let fp := match fp with Some f => f | None => [] end in
  match ip, digits_value (ip ++ fp)%list 0 with
  | _ :: _, Some m =>
      let q := Qmake m (Pos.of_nat (Nat.pow 10 (List.length fp))) in
      Some (if neg then Qopp q else q)
  | _, _ => None
  end.

(** The day the scenarios are run: 2023-07-01. *)
Definition TODAY : Z := ordinal_of "2023-07-01".

(** A world whose services all fail. *)
Definition offline : World :=
  {| py_float := decimal;
     fromisoformat := iso_parse;
     today := fun _ => TODAY;
     raster_backend := true;
     EARTHDATA_TOKEN := "";
     getcwd := "/srv/bloomwatch";
     geocode_get := fun _ _ => HttpFailed;
     search_point := fun _ _ _ _ _ => HttpFailed;
     search_bbox := fun _ _ _ _ => HttpFailed;
     collection_items := fun _ _ _ _ _ => HttpFailed;
     granules := fun _ _ _ => HttpFailed;
     probe := fun _ _ _ => ProbeRaised;
     read_window := fun _ _ _ _ => ReadRaised;
     makedirs := fun _ _ => true;
     write_tif := fun _ _ _ _ => true;
     save_png := fun _ _ _ => true |}.

Definition a_granule : granule :=
  {| time_start := "2023-06-02T10:40:31Z";
     dataset_id := "HLS Sentinel-2 Multi-spectral Instrument Surface Reflectance Daily Global 30m v2.0 HLSS30" |}.

(** A catalogue whose STAC endpoints answer, with no feature, while the
    granule search has an entry. *)
Definition stac_empty : World :=
  {| py_float := decimal;
     fromisoformat := iso_parse;
     today := fun _ => TODAY;
     raster_backend := true;
     EARTHDATA_TOKEN := "";
     getcwd := "/srv/bloomwatch";
     geocode_get := fun _ _ => HttpFailed;
     search_point := fun _ _ _ _ _ => HttpJson [];
     search_bbox := fun _ _ _ _ => HttpJson [];
     collection_items := fun _ _ _ _ _ => HttpJson [];
     granules := fun _ _ _ => HttpJson [a_granule];
     probe := fun _ _ _ => ProbeRaised;
     read_window := fun _ _ _ _ => ReadRaised;
     makedirs := fun _ _ => true;
     write_tif := fun _ _ _ _ => true;
     save_png := fun _ _ _ => true |}.

(** Three acquisitions: one close to 2023-06-01, one without a timestamp,
    and one stamped in the last hour of year 9999, west of Greenwich. *)
Definition june_2 : feature :=
  {| collection := "HLSS30.v2.0";
     prop_datetime := "2023-06-02T10:40:31Z";
     assets := [] |}.

Definition no_timestamp : feature :=
  {| collection := "HLSS30.v2.0"; prop_datetime := ""; assets := [] |}.

Definition far_future : feature :=
  {| collection := "HLSL30.v2.0";
     prop_datetime := "9999-12-31T23:59:59-01:00";
     assets := [] |}.

(** A cloud-optimised GeoTIFF of a band, behind HTTPS. *)
Definition cog (name band : string) : string * asset :=
  (band,
   Asset (Some ("https://data.lpdaac.earthdatacloud.nasa.gov/lp-prod-protected/"
                ++ name ++ "." ++ band ++ ".tif")) []).

Definition s30_scene : feature :=
  {| collection := "HLSS30.v2.0";
     prop_datetime := "2023-06-02T10:40:31Z";
     assets := map (cog "HLS.S30.T31UDQ.2023153T104031.v2.0")
                 ["B02"; "B03"; "B04"; "B8A"; "B11"; "B12"] |}.

Definition l30_scene : feature :=
  {| collection := "HLSL30.v2.0";
     prop_datetime := "2023-05-30T10:34:12Z";
     assets := map (cog "HLS.L30.T31UDQ.2023150T103412.v2.0")
                 ["B02"; "B03"; "B04"; "B05"; "B06"; "B07"] |}.

(** A Sentinel scene whose B12 asset is missing. *)
Definition s30_partial : feature :=
  {| collection := "HLSS30.v2.0";
     prop_datetime := "2023-06-07T10:40:29Z";
     assets := map (cog "HLS.S30.T31UDQ.2023158T104029.v2.0")
                 ["B02"; "B03"; "B04"; "B8A"; "B11"] |}.

Definition s30_later : feature :=
  {| collection := "HLSS30.v2.0";
     prop_datetime := "2023-06-12T10:40:31Z";
     assets := map (cog "HLS.S30.T31UDQ.2023163T104031.v2.0")
                 ["B02"; "B03"; "B04"; "B8A"; "B11"; "B12"] |}.

(** A two by two window of reflectances. *)
Definition tiny_band : band :=
  {| pixels := [inject_Z 412; inject_Z 455; inject_Z 398; inject_Z 430];
     height := 2;
     width := 2;
     dtype := "int16";
     transform := [] |}.

(** A world with a token, whose point search answers [feats], whose
    preflight answers [p] and whose reads succeed. *)
Definition online (token : string) (feats : list feature) (p : probe_result)
  : World :=
  {| py_float := decimal;
     fromisoformat := iso_parse;
     today := fun _ => TODAY;
     raster_backend := true;
     EARTHDATA_TOKEN := token;
     getcwd := "/srv/bloomwatch";
     geocode_get := fun _ _ => HttpFailed;
     search_point := fun _ _ _ _ _ => HttpJson feats;
     search_bbox := fun _ _ _ _ => HttpFailed;
     collection_items := fun _ _ _ _ _ => HttpFailed;
     granules := fun _ _ _ => HttpFailed;
     probe := fun _ _ _ => p;
     read_window := fun _ _ _ _ => ReadOk tiny_band;
     makedirs := fun _ _ => true;
     write_tif := fun _ _ _ _ => true;
     save_png := fun _ _ _ => true |}.

(** The state of the form before a fetch: a coordinate, a date, and the
    outputs of an earlier fetch. *)
Definition form (lat lon date : string) : App.State :=
  {| App.map_ready := true;
     App.selected_layer := "MODIS_Terra_CorrectedReflectance_TrueColor";
     App.map_src := "/folium_map.html";
     App.date_str := date;
     App.bbox_minx := "";
     App.bbox_miny := "";
     App.bbox_maxx := "";
     App.bbox_maxy := "";
     App.input_lat := lat;
     App.input_lon := lon;
     App.input_address := "";
     App.fetch_status := "";
     App.tile_path := "/hls_tile_old.tif";
     App.preview_png := "/hls_tile_old.png" |}.

(** The request of the scenarios: Paris, 2023-06-01, and its window. *)
Definition paris_form : App.State := form "48.8566" "2.3522" "2023-06-01".

Definition june_window : interval :=
  {| start_date := 738657; end_date := 738687 |}.

(** No token, and every preflight is refused. *)
Definition denied : World := online "" [s30_scene] (ProbeStatus 403).

(** A token, and three candidates of which one lacks a band. *)
Definition one_partial : World :=
  online "token" [s30_later; s30_partial; l30_scene; s30_scene]
    (ProbeStatus 206).

(** A token, and three complete candidates. *)
Definition all_complete : World :=
  online "token" [s30_later; l30_scene; s30_scene] (ProbeStatus 206).

(** Paris. *)
Definition PARIS_LAT : Q := 488566 # 10000.
Definition PARIS_LON : Q := 23522 # 10000.

End Scenario.

(** ** Vocabulary for more properties of the tile fetch *)

Module AppMore.
Import App.

(** The credential of a run: the stripped [EARTHDATA_TOKEN], when it is not
    blank. *)
Definition bearer_of (w : World) : option string :=
  let token := PyStr.strip (EARTHDATA_TOKEN w) in
  if PyStr.truthy token then Some token else None.

(** The interactions of an extraction, in order: a preflight that is not
    refused and the read of the same reference with the same credential
    and box, again and again; the sequence may stop after a read that
    raised, or with a refused preflight. *)
Fixpoint well_paired (bearer : option string) (box : bbox)
    (evs : list event) : Prop :=
  match evs with
  | [] => True
  | EvProbe h b p :: rest =>
      b = bearer
      /\ match rest with
         | [] => unauthorized p = true
         | EvRead h' b' box' r :: rest' =>
             unauthorized p = false
             /\ h' = h /\ b' = bearer /\ box' = box
             /\ match r with
                | ReadRaised => rest' = []
                | ReadOk _ => well_paired bearer box rest'
                end
         | _ => False
         end
  | _ => False
  end.

Definition is_probe (e : event) : bool :=
  match e with EvProbe _ _ _ => true | _ => false end.

Definition is_read (e : event) : bool :=
  match e with EvRead _ _ _ _ => true | _ => false end.

(** The same without an end on a refused preflight or a failed read. *)
Fixpoint closed_pairs (bearer : option string) (box : bbox)
    (evs : list event) : Prop :=
  match evs with
  | [] => True
  | EvProbe h b p :: EvRead h' b' box' (ReadOk _) :: rest =>
      b = bearer /\ unauthorized p = false
      /\ h' = h /\ b' = bearer /\ box' = box
      /\ closed_pairs bearer box rest
  | _ => False
  end.

(** How many interactions of a kind a run made. *)
Definition count (kind : event -> bool) (evs : list event) : nat :=
  List.length (filter kind evs).

Definition is_granule (e : event) : bool :=
  match e with EvGranules _ _ _ => true | _ => false end.

(** The three ways a run of [fetch_tile] goes: it returns or raises before
    the extraction; it leaves from inside the extraction; or the extraction
    ends and [finish] decides. *)
Definition phases (w : World) (st : State) (tr : trace) (o : outcome)
    (st' : State) (tr' : trace) : Prop :=
  exists ev_loc ev_s,
    Forall (fun e => is_geocode e = true) ev_loc
    /\ Forall (fun e => is_search e = true) ev_s
    /\ ((tr' = (tr ++ ev_loc ++ ev_s)%list
         /\ o <> Returned AtUnauthorized /\ o <> Returned AtIncomplete
         /\ o <> Returned AtEnd)
        \/ exists lat lon st1 found items st0 r st2 tr2,
            locate w (set_fetch_status MSG_START st) tr
            = (Some lat, Some lon, st1, (tr ++ ev_loc)%list)
            /\ Search._search_hls_items w lat lon (date_str st1) 20
                 (tr ++ ev_loc)%list
               = (Returns found, (tr ++ ev_loc ++ ev_s)%list)
            /\ Ranking.rank w (date_str st1) found = Returns items
            /\ status_only st1 st0
            /\ extract w (bearer_of w)
                 (Geo.bbox_around (Q2R lat) (Q2R lon) 500) items ([], None)
                 st0 (tr ++ ev_loc ++ ev_s)%list = (r, st2, tr2)
            /\ match r with
               | Exit o1 => o = o1 /\ st' = st2 /\ tr' = tr2
               | Next acc => finish w lat lon acc st2 tr2 = (o, st', tr')
               end).

End AppMore.

(** ** The refactored modules: [utils/helpers.py], [api/hls.py] and
    [state/app_state.py] *)

Module Helpers.
Import PyStr.
Local Open Scope string_scope.

(** [safe_float(s)] of [utils/helpers.py] *)
Definition safe_float (w : World) (s : string) : option Q :=
  if negb (truthy s) || negb (truthy (strip s)) then None
  else py_float w (strip s).

(** *** Text helpers, on ASCII text *)

Definition is_ascii (c : ascii) : bool := Nat.ltb (nat_of_ascii c) 128.

(** [c.isalnum()] for an ASCII character: a digit or a letter. *)
Definition isalnum (c : ascii) : bool :=
  let n := nat_of_ascii c in
  (Nat.leb 48 n && Nat.leb n 57) || (Nat.leb 65 n && Nat.leb n 90)
  || (Nat.leb 97 n && Nat.leb n 122).

Fixpoint all_chars (p : ascii -> bool) (s : string) : bool :=
  match s with
  | EmptyString => true
  | String c s' => p c && all_chars p s'
  end.

Fixpoint map_chars (f : ascii -> ascii) (s : string) : string :=
  match s with
  | EmptyString => EmptyString
  | String c s' => String (f c) (map_chars f s')
  end.

(** [_slug(s)] of the single-file application:
    ["".join(c if (c.isalnum() or c in "-_") else "_" for c in s)[:80]] *)
Definition _slug (s : string) : string :=
  substring 0 80
    (map_chars
       (fun c =>
          if isalnum c || (Ascii.eqb c "-"%char || Ascii.eqb c "_"%char)
          then c else "_"%char) s).

(** The class [[a-zA-Z0-9_-]] of the regular expression of [slug]. *)
Definition in_class (c : ascii) : bool :=
  let n := nat_of_ascii c in
  (Nat.leb 97 n && Nat.leb n 122) || (Nat.leb 65 n && Nat.leb n 90)
  || (Nat.leb 48 n && Nat.leb n 57) || Ascii.eqb c "_"%char
  || Ascii.eqb c "-"%char.

(** [slug(s)] of [utils/helpers.py]:
    [re.sub(r'[^a-zA-Z0-9_-]', '_', s.strip())] *)
Definition slug (s : string) : string :=
  map_chars (fun c => if in_class c then c else "_"%char) (strip s).

(** [text[:k]] *)
Definition str_slice_to (text : string) (k : Z) : string :=
  if (0 <=? k)%Z then substring 0 (Z.to_nat k) text
  else substring 0 (String.length text - Z.to_nat (- k)) text.

(** [truncate_text(text, max_length)] of [utils/helpers.py] *)
Definition truncate_text (text : string) (max_length : Z) : string :=
  if (Z.of_nat (String.length text) <=? max_length)%Z then text
  else str_slice_to text (max_length - 3) ++ "...".

(** The built-in [min(a, b)]: [b] when [b < a], else [a]. *)
Definition py_min (a b : Q) : Q := if Qle_bool a b then a else b.

(** [clamp(value, min_val, max_val)] of [utils/helpers.py] *)
Definition clamp (value min_val max_val : Q) : Q :=
  Preview.py_max min_val (py_min max_val value).

End Helpers.

Module Client.
Import PyDatetime PyStr.
Local Open Scope string_scope.

(** The requests of [HLSClient], with the answers they got. *)
Inductive request : Type :=
| GetGeocode (q : string) (ans : http (list (string * string)))
| GetItems (coll : string) (box : bbox) (limit : Z)
    (window : datetime * datetime) (ans : http (list feature)).

Definition history : Type := list request.

(** What the client talks to: the parsers of a [World], the clock
    [datetime.now(timezone.utc)] in microseconds, and the two services. *)
Record Service : Type := mkService {
  base : World;
  now_us : history -> Z;
  get_geocode : history -> string -> http (list (string * string));
  get_items :
    history -> string -> bbox -> Z -> datetime * datetime
    -> http (list feature)
}.

(** [HLSClient.geocode_address(query)] *)
Definition geocode_address (s : Service) (query : string) (h : history)
  : option (Q * Q) * history :=
  let a := get_geocode s h query in
  let h' := (h ++ [GetGeocode query a])%list in
  match a with
  | HttpJson ((la, lo) :: _) =>
      match py_float (base s) la, py_float (base s) lo with
      | Some x, Some y => (Some (x, y), h')
      | _, _ => (None, h')
      end
  | _ => (None, h')
  end.

(** The order in which [search_hls_items] asks the collections. *)
Definition COLLECTIONS : list string := ["HLSL30.v2.0"; "HLSS30.v2.0"].

(** The box of ten kilometres around the point. *)
Definition search_box (lat lon : Q) : bbox :=
  let '(lat_buf, lon_buf) := Geo.deg_buffer (Q2R lat) 10000%R in
  (Q2R lon - lon_buf, Q2R lat - lat_buf, Q2R lon + lon_buf, Q2R lat + lat_buf)%R.

(** The target instant: the parsed date read as UTC or, when the parser
    raises, the present. *)
Definition target_of (s : Service) (dt : string) (h : history) : datetime :=
  match fromisoformat (base s) dt with
  | Some t => replace_utc t
  | None => {| naive_us := now_us s h; utcoffset := Some 0%Z |}
  end.

(** The body of [for item in items]: an item is kept, with its
    [_time_delta], when it has a timestamp that parses and can be
    subtracted from the target. *)
Definition time_delta (s : Service) (target : datetime) (item : feature)
  : option Z :=
  if truthy (prop_datetime item) then
    match fromisoformat (base s) (replace_Z (prop_datetime item)) with
    | Some item_dt => abs_delta item_dt target
    | None => None
    end
  else None.

Fixpoint keep_items (s : Service) (target : datetime) (items : list feature)
    (all_items : list (Z * feature)) : list (Z * feature) :=
  match items with
  | [] => all_items
  | item :: rest =>
      match time_delta s target item with
      | Some d => keep_items s target rest (all_items ++ [(d, item)])%list
      | None => keep_items s target rest all_items
      end
  end.

(** The loop [for coll in collections]; [None] when a request fails and the
    outer [except] is taken. *)
Fixpoint collect (s : Service) (box : bbox) (limit : Z)
    (window : datetime * datetime) (target : datetime) (colls : list string)
    (all_items : list (Z * feature)) (h : history)
  : option (list (Z * feature)) * history :=
  match colls with
  | [] => (Some all_items, h)
  | coll :: rest =>
      let a := get_items s h coll box limit window in
      let h' := (h ++ [GetItems coll box limit window a])%list in
      match a with
      | HttpFailed => (None, h')
      | HttpJson items =>
          collect s box limit window target rest
            (keep_items s target items all_items) h'
      end
  end.

(** [HLSClient.search_hls_items(lat, lon, dt, limit)]: the items, each with
    its [_time_delta]. *)
Definition search_hls_items (s : Service) (lat lon : Q) (dt : string)
    (limit : Z) (h : history) : list (Z * feature) * history :=
  let box := search_box lat lon in
  let target := target_of s dt h in
  match Search.client_window target with
  | None => ([], h)
  | Some window =>
      match collect s box limit window target COLLECTIONS [] h with
      | (None, h') => ([], h')
      | (Some all_items, h') =>
          (Search.slice_to (Ranking.stable_sort all_items) limit, h')
      end
  end.

(** The dictionary returned by [fetch_hls_tile]. *)
Inductive tile_result : Type :=
| TileError (error : string)
| TileFound (tile_path preview_png : string) (items_found : nat).

(** [HLSClient.fetch_hls_tile(lat, lon, date_str)] *)
Definition fetch_hls_tile (s : Service) (lat lon : Q) (date_str : string)
    (h : history) : tile_result * history :=
  let '(items, h') := search_hls_items s lat lon date_str 3%Z h in
  match items with
  | [] => (TileError App.MSG_NO_ITEMS, h')
  | _ :: _ =>
      let stem :=
        "/hls_tile_" ++ format_f 5 lat ++ "_" ++ format_f 5 lon ++ "_"
        ++ date_str in
      (TileFound (stem ++ ".tif") (stem ++ ".png") (List.length items), h')
  end.

(** [State.fetch_tile] of [state/app_state.py], on the fields it shares
    with the [State] of the single-file application. *)
Definition fetch_tile (s : Service) (st : App.State) (h : history)
  : App.State * history :=
  let st := App.set_fetch_status App.MSG_START st in
  let lat := Helpers.safe_float (base s) (App.input_lat st) in
  let lon := Helpers.safe_float (base s) (App.input_lon st) in
  let '(lat, lon, st, h) :=
    if (App.is_none lat || App.is_none lon)
       && truthy (strip (App.input_address st)) then
      let st := App.set_fetch_status App.MSG_GEOCODING st in
      let '(res, h) := geocode_address s (strip (App.input_address st)) h in
      match res with
      | Some (la, lo) =>
          let st := App.set_input_lat (format_f 6 la) st in
          let st := App.set_input_lon (format_f 6 lo) st in
          (Some la, Some lo, st, h)
      | None => (lat, lon, st, h)
      end
    else (lat, lon, st, h) in
  match lat, lon with
  | Some lat, Some lon =>
      let '(result, h) := fetch_hls_tile s lat lon (App.date_str st) h in
      match result with
      | TileError error => (App.set_fetch_status error st, h)
      | TileFound tile_path preview_png _ =>
          let st := App.set_tile_path tile_path st in
          let st := App.set_preview_png preview_png st in
          (App.set_fetch_status App.MSG_READY st, h)
      end
  | _, _ => (App.set_fetch_status App.MSG_NO_LOCATION st, h)
  end.

(** *** Vocabulary *)

Definition failed (r : request) : bool :=
  match r with
  | GetGeocode _ HttpFailed | GetItems _ _ _ _ HttpFailed => true
  | _ => false
  end.

(** The features the catalogue answered with, in the order of the
    requests. *)
Fixpoint answered (reqs : list request) : list feature :=
  match reqs with
  | [] => []
  | GetItems _ _ _ _ (HttpJson items) :: rest => (items ++ answered rest)%list
  | _ :: rest => answered rest
  end.

(** An item with a usable timestamp, and its distance to the target. *)
Definition usable (s : Service) (target : datetime) (p : Z * feature) : Prop :=
  exists t,
    prop_datetime (snd p) <> ""
    /\ fromisoformat (base s) (replace_Z (prop_datetime (snd p))) = Some t
    /\ exists o, utcoffset t = Some o
       /\ fst p = Z.abs (Ranking.utc_us t - Ranking.utc_us target).

(** The catalogue request of a collection, in a window, with a limit. *)
Definition asks (coll : string) (limit : Z) (window : datetime * datetime)
    (r : request) : Prop :=
  match r with
  | GetItems c _ l win _ => c = coll /\ l = limit /\ win = window
  | GetGeocode _ _ => False
  end.




End Client.

(** ** The layer filter *)

Module Layers.
Import PyStr.
Local Open Scope string_scope.

(** [s.lower()] on ASCII text. *)
Definition lower_char (c : ascii) : ascii :=
  let n := nat_of_ascii c in
  if Nat.leb 65 n && Nat.leb n 90 then ascii_of_nat (n + 32) else c.

Definition lower (s : string) : string := Helpers.map_chars lower_char s.

(** What the handlers read from outside the state: the module-level list
    [AVAILABLE_LAYERS], and [re.compile(q, flags=re.IGNORECASE)], which
    raises [re.error] with a message or returns the test
    [pattern.search(lid) is not None]. *)
Record Env : Type := mkEnv {
  AVAILABLE_LAYERS : list string;
  re_compile : string -> string + (string -> bool)
}.

(** The state: the fields of [App.State] and the five fields of the live
    filter. *)
Record FilterState : Type := mkFilterState {
  app : App.State;
  layer_filter : string;
  filtered_layers : list string;
  filter_mode : string;
  regex_error : string;
  match_count : nat
}.

Definition with_selected_layer (v : string) (s : App.State) : App.State :=
  App.mkState (App.map_ready s) v (App.map_src s) (App.date_str s)
    (App.bbox_minx s) (App.bbox_miny s) (App.bbox_maxx s) (App.bbox_maxy s)
    (App.input_lat s) (App.input_lon s) (App.input_address s)
    (App.fetch_status s) (App.tile_path s) (App.preview_png s).

(** [x in l] *)
Definition mem (x : string) (l : list string) : bool :=
  existsb (String.eqb x) l.

(** [if self.selected_layer not in self.filtered_layers and
    self.filtered_layers: self.selected_layer = self.filtered_layers[0]] *)
Definition reselect (filtered : list string) (s : App.State) : App.State :=
  if negb (mem (App.selected_layer s) filtered) then
    match filtered with
    | first :: _ => with_selected_layer first s
    | [] => s
    end
  else s.

(** The [try] block: the matches and the new [regex_error]. *)
Definition matches (env : Env) (mode q q_lower : string)
  : list string * string :=
  if String.eqb mode "prefix" then
    (filter (fun lid => startswith (lower lid) q_lower) (AVAILABLE_LAYERS env),
     "")
  else if String.eqb mode "regex" then
    match re_compile env q with
    | inr search => (filter search (AVAILABLE_LAYERS env), "")
    | inl e => ([], "Invalid regex: " ++ e)
    end
  else
    (filter (fun lid => contains q_lower (lower lid)) (AVAILABLE_LAYERS env),
     "").

(** [State.set_layer_filter(value)] *)
Definition set_layer_filter (env : Env) (value : string) (s : FilterState)
  : FilterState :=
  let q := value in
  let q_lower := lower (strip q) in
  let mode :=
    lower (if truthy (filter_mode s) then filter_mode s else "contains") in
  if negb (truthy q_lower) then
    let filtered := AVAILABLE_LAYERS env in
    {| app := reselect filtered (app s);
       layer_filter := value;
       filtered_layers := filtered;
       filter_mode := filter_mode s;
       regex_error := "";
       match_count := List.length filtered |}
  else
    let '(filtered, error) := matches env mode q q_lower in
    {| app := reselect filtered (app s);
       layer_filter := value;
       filtered_layers := filtered;
       filter_mode := filter_mode s;
       regex_error := error;
       match_count := List.length filtered |}.

(** [State.set_filter_mode(value)] *)
Definition set_filter_mode (env : Env) (value : string) (s : FilterState)
  : FilterState :=
  let s :=
    {| app := app s;
       layer_filter := layer_filter s;
       filtered_layers := filtered_layers s;
       filter_mode := if truthy value then value else "contains";
       regex_error := regex_error s;
       match_count := match_count s |} in
  set_layer_filter env (layer_filter s) s.

(** The list shown is a selection of the available layers, in their order;
    the count is its length; and when it is not empty the selected layer
    is in it. *)
Definition consistent (env : Env) (s : FilterState) : Prop :=
  (exists keep, filtered_layers s = filter keep (AVAILABLE_LAYERS env))
  /\ match_count s = List.length (filtered_layers s)
  /\ (filtered_layers s <> [] ->
      In (App.selected_layer (app s)) (filtered_layers s)).

End Layers.

(** ** The WMS capabilities and the time of a layer *)

Module Wms.
Import PyStr.
Local Open Scope string_scope.

(** A [wms:Layer] element as the loop reads it: the text of its [wms:Name]
    child ([None] when the child is missing or has no text), and for each
    [wms:Dimension] child the [name] attribute (empty when absent) and the
    text. *)
Record layer_el : Type := mkLayerEl {
  name_text : option string;
  dimensions : list (string * option string)
}.

(** A [dict] with string keys, in insertion order. *)
Fixpoint lookup {A : Type} (d : list (string * A)) (k : string) : option A :=
  match d with
  | [] => None
  | (k', v) :: d' => if String.eqb k' k then Some v else lookup d' k
  end.

(** [d[k] = v] *)
Fixpoint store {A : Type} (d : list (string * A)) (k : string) (v : A)
  : list (string * A) :=
  match d with
  | [] => [(k, v)]
  | (k', v') :: d' =>
      if String.eqb k' k then (k', v) :: d' else (k', v') :: store d' k v
  end.

(** The two module-level tables. *)
Record Tables : Type := mkTables {
  LAYER_TIME_VALUES : list (string * list string);
  LAYER_TIME_DEFAULT : list (string * string)
}.

(** [raw.split(",")] *)
Fixpoint split_comma (s : string) : list string :=
  match s with
  | EmptyString => [EmptyString]
  | String c s' =>
      if Ascii.eqb c ","%char then EmptyString :: split_comma s'
      else
        match split_comma s' with
        | piece :: pieces => String c piece :: pieces
        | [] => [String c EmptyString]
        end
  end.

(** [[v.strip() for v in raw.split(",") if v.strip()]] *)
Definition time_values (raw : string) : list string :=
  map strip (filter (fun v => truthy (strip v)) (split_comma raw)).

(** The first dimension whose name is [time], whatever the case. *)
Definition time_dim (dims : list (string * option string))
  : option (string * option string) :=
  find (fun dim => String.eqb (Layers.lower (fst dim)) "time") dims.

(** One turn of the loop over the [wms:Layer] elements. *)
Definition visit (lyr : layer_el) (acc : list string * Tables)
  : list string * Tables :=
  let '(layers, tables) := acc in
  match name_text lyr with
  | None => acc
  | Some text =>
      if negb (truthy text) then acc
      else
        let lid := strip text in
        let layers := if truthy lid then (layers ++ [lid])%list else layers in
        match time_dim (dimensions lyr) with
        | Some (_, dim_text) =>
            let dim_text := match dim_text with Some t => t | None => "" end in
            if truthy (strip dim_text) then
              let raw := strip dim_text in
              match time_values raw with
              | [] => (layers, tables)
              | v :: vs =>
                  let vals := v :: vs in
                  (layers,
                   {| LAYER_TIME_VALUES :=
                        store (LAYER_TIME_VALUES tables) lid vals;
                      LAYER_TIME_DEFAULT :=
                        store (LAYER_TIME_DEFAULT tables) lid (last vals "") |})
              end
            else (layers, tables)
        | None => (layers, tables)
        end
  end.

Fixpoint visit_all (doc : list layer_el) (acc : list string * Tables)
  : list string * Tables :=
  match doc with
  | [] => acc
  | lyr :: rest => visit_all rest (visit lyr acc)
  end.

(** [sorted(set(layers))] *)
Fixpoint insert_new (x : string) (l : list string) : list string :=
  match l with
  | [] => [x]
  | y :: l' =>
      if String.eqb x y then l
      else if String.ltb x y then x :: l
      else y :: insert_new x l'
  end.

Definition sorted_set (l : list string) : list string :=
  fold_right insert_new [] l.

(** [list_wms_layers(cap_url)], given the answer of the request once it is
    parsed: the layer names, and the tables as the call leaves them. *)
Definition list_wms_layers (answer : http (list layer_el)) (tables : Tables)
  : list string * Tables :=
  match answer with
  | HttpFailed => ([], tables)
  | HttpJson doc =>
      let '(layers, tables) := visit_all doc ([], tables) in
      (sorted_set layers, tables)
  end.

(** [_choose_time(layer_id, desired_date)]; [today] is
    [date.today().isoformat()]. *)
Definition _choose_time (tables : Tables) (today : string)
    (layer_id : string) (desired_date : option string) : string :=
  match lookup (LAYER_TIME_VALUES tables) layer_id with
  | Some (v :: vs) =>
      let allowed := v :: vs in
      let listed :=
        match desired_date with
        | Some d => truthy d && Layers.mem (strip d) allowed
        | None => false
        end in
      if listed then
        match desired_date with Some d => strip d | None => "" end
      else
        match lookup (LAYER_TIME_DEFAULT tables) layer_id with
        | Some default => default
        | None => last allowed ""
        end
  | _ =>
      match desired_date with
      | Some (String c d) => String c d
      | _ => today
      end
  end.

(** The two tables go together: a layer with time values has at least one,
    and its default is the last of them. *)
Definition tables_ok (tables : Tables) : Prop :=
  forall lid vals,
    lookup (LAYER_TIME_VALUES tables) lid = Some vals ->
    vals <> []
    /\ lookup (LAYER_TIME_DEFAULT tables) lid = Some (last vals "").

(** The order of [sorted] on distinct strings. *)
Definition increasing : string -> string -> Prop :=
  fun a b => String.ltb a b = true.

(** The name a [wms:Layer] element contributes to the list. *)
Definition layer_name (lyr : layer_el) : option string :=
  match name_text lyr with
  | Some text => if truthy (strip text) then Some (strip text) else None
  | None => None
  end.

End Wms.

(** ** The map writer and [build_map] *)

Module MapWriter.
Import PyStr.
Local Open Scope string_scope.

(** The arguments of a [WmsTileLayer] that depend on the call. *)
Record overlay : Type := mkOverlay {
  ov_name : string;
  ov_time : string;
  ov_show : bool
}.

Definition FALLBACK_LAYER : string :=
  "MODIS_Terra_CorrectedReflectance_TrueColor".

(** The overlays [_write_folium_map_to_assets] adds to the map: one per
    available layer, or the fallback layer when there is none.  The layer
    argument is a string or [None]; the code tests only whether it is
    empty, so [None] is the empty string here. *)
Definition overlays (available : list string) (tables : Wms.Tables)
    (today selected_layer time_str : string) : list overlay :=
  match available with
  | [] =>
      [ {| ov_name := FALLBACK_LAYER;
           ov_time := Wms._choose_time tables today FALLBACK_LAYER (Some time_str);
           ov_show := true |} ]
  | first :: _ =>
      map (fun lid =>
             {| ov_name := lid;
                ov_time := Wms._choose_time tables today lid (Some time_str);
                ov_show :=
                  if truthy selected_layer then String.eqb selected_layer lid
                  else String.eqb lid first |})
          available
  end.

(** The operations on files, with their outcome. *)
Inductive fs_op : Type :=
| OpMakedirs (dir : string) (ok : bool)
| OpExists (path : string) (ans : bool)
| OpRead (path : string) (ans : option string)
| OpWrite (path content : string) (ok : bool)
| OpSave (path : string) (ok : bool).

Definition fs_history : Type := list fs_op.

(** What the writer depends on: the working directory, today's date in ISO
    form, the clock [int(time())], whether building the [folium] objects
    goes through, the rendered page ([None] when rendering raises), and the
    file system. *)
Record MapWorld : Type := mkMapWorld {
  mw_cwd : string;
  mw_today : string;
  mw_time : fs_history -> N;
  mw_build : string -> string -> option (Q * Q * Q * Q) -> bool;
  mw_render : string -> string -> option (Q * Q * Q * Q) -> option string;
  mw_makedirs : fs_history -> string -> bool;
  mw_exists : fs_history -> string -> bool;
  mw_read : fs_history -> string -> option string;
  mw_write : fs_history -> string -> string -> bool;
  mw_save : fs_history -> string -> bool
}.

(** How a call of the writer ends: it returns, or an exception leaves
    it. *)
Inductive ended : Type :=
| Done
| Failed.

(** The [except] branch: [m.save(out_path)]. *)
Definition save_fallback (mw : MapWorld) (out_path : string) (h : fs_history)
  : ended * fs_history :=
  let ok := mw_save mw h out_path in
  (if ok then Done else Failed, (h ++ [OpSave out_path ok])%list).

(** The [try] block that writes the page unless the file already holds
    it. *)
Definition write_page (mw : MapWorld) (out_path html : string)
    (h : fs_history) : ended * fs_history :=
  let write := fun h =>
    let ok := mw_write mw h out_path html in
    let h' := (h ++ [OpWrite out_path html ok])%list in
    if ok then (Done, h') else save_fallback mw out_path h' in
  let ex := mw_exists mw h out_path in
  let h1 := (h ++ [OpExists out_path ex])%list in
  if ex then
    let existing := mw_read mw h1 out_path in
    let h2 := (h1 ++ [OpRead out_path existing])%list in
    match existing with
    | None => save_fallback mw out_path h2
    | Some existing =>
        if String.eqb existing html then (Done, h2) else write h2
    end
  else write h1.

(** The file the page goes to. *)
Definition page_path (mw : MapWorld) (selected_layer time_str : string)
  : string :=
  let assets_dir := path_join (mw_cwd mw) "assets" in
  if truthy selected_layer then
    path_join assets_dir
      ("folium_map_" ++ Helpers._slug selected_layer ++ "_" ++ time_str
       ++ ".html")
  else path_join assets_dir "folium_map.html".

(** [_write_folium_map_to_assets(selected_layer, date_str, bbox)] *)
Definition _write_folium_map_to_assets (mw : MapWorld)
    (selected_layer date_str : string) (bbox : option (Q * Q * Q * Q))
    (h : fs_history) : ended * fs_history :=
  let time_str := if truthy date_str then date_str else mw_today mw in
  if negb (mw_build mw selected_layer time_str bbox) then (Failed, h)
  else
    let assets_dir := path_join (mw_cwd mw) "assets" in
    let ok := mw_makedirs mw h assets_dir in
    let h1 := (h ++ [OpMakedirs assets_dir ok])%list in
    if negb ok then (Failed, h1)
    else
      match mw_render mw selected_layer time_str bbox with
      | None => (Failed, h1)
      | Some html_str =>
          write_page mw (page_path mw selected_layer time_str) html_str h1
      end.

Definition set_map_src (v : string) (s : App.State) : App.State :=
  App.mkState (App.map_ready s) (App.selected_layer s) v (App.date_str s)
    (App.bbox_minx s) (App.bbox_miny s) (App.bbox_maxx s) (App.bbox_maxy s)
    (App.input_lat s) (App.input_lon s) (App.input_address s)
    (App.fetch_status s) (App.tile_path s) (App.preview_png s).

Definition set_map_ready (v : bool) (s : App.State) : App.State :=
  App.mkState v (App.selected_layer s) (App.map_src s) (App.date_str s)
    (App.bbox_minx s) (App.bbox_miny s) (App.bbox_maxx s) (App.bbox_maxy s)
    (App.input_lat s) (App.input_lon s) (App.input_address s)
    (App.fetch_status s) (App.tile_path s) (App.preview_png s).

(** The box of the four fields, when the four of them parse. *)
Definition bbox_of (w : World) (st : App.State) : option (Q * Q * Q * Q) :=
  match App._safe_float w (App.bbox_minx st), App._safe_float w (App.bbox_miny st),
        App._safe_float w (App.bbox_maxx st), App._safe_float w (App.bbox_maxy st)
  with
  | Some minx, Some miny, Some maxx, Some maxy => Some (minx, miny, maxx, maxy)
  | _, _, _, _ => None
  end.

(** [State.build_map] *)
Definition build_map (mw : MapWorld) (w : World) (st : App.State)
    (h : fs_history) : App.State * fs_history :=
  let bbox := bbox_of w st in
  let '(r, h') :=
    _write_folium_map_to_assets mw (App.selected_layer st) (App.date_str st)
      bbox h in
  let st :=
    match r with
    | Done =>
        if truthy (App.selected_layer st) then
          set_map_src
            ("/folium_map_" ++ Helpers._slug (App.selected_layer st) ++ "_"
             ++ App.date_str st ++ ".html?t=" ++ str_of_N (mw_time mw h'))
            st
        else st
    | Failed => st
    end in
  (set_map_ready true st, h').

(** The page is in the file: the last operation found it there, or put it
    there. *)
Definition holds_page (path html : string) (op : fs_op) : Prop :=
  match op with
  | OpRead p (Some existing) => p = path /\ existing = html
  | OpWrite p content true => p = path /\ content = html
  | OpSave p true => p = path
  | _ => False
  end.

(** *** The refactored writer of [services/maps.py] *)

(** [s.replace(" ", "_").replace("/", "_")] *)
Definition replace_space_slash (s : string) : string :=
  Helpers.map_chars
    (fun c => if Ascii.eqb c "/"%char then "_"%char else c)
    (Helpers.map_chars (fun c => if Ascii.eqb c " "%char then "_"%char else c) s).

Definition service_filename (selected_layer date_str : string) : string :=
  let layer_slug :=
    if truthy selected_layer then replace_space_slash selected_layer
    else "default" in
  "folium_map_" ++ layer_slug ++ "_"
  ++ (if truthy date_str then date_str else "current") ++ ".html".

(** [MapService.write_folium_map_to_assets(selected_layer, date_str, bbox)]:
    the returned path, empty when anything raised. *)
Definition write_folium_map_to_assets (mw : MapWorld)
    (selected_layer date_str : string) (bbox : option (Q * Q * Q * Q))
    (h : fs_history) : string * fs_history :=
  let assets_dir := path_join (mw_cwd mw) "assets" in
  let ok := mw_makedirs mw h assets_dir in
  let h1 := (h ++ [OpMakedirs assets_dir ok])%list in
  if negb ok then ("", h1)
  else if negb (mw_build mw selected_layer date_str bbox) then ("", h1)
  else
    let filename := service_filename selected_layer date_str in
    let filepath := path_join assets_dir filename in
    let saved := mw_save mw h1 filepath in
    let h2 := (h1 ++ [OpSave filepath saved])%list in
    if saved then ("/" ++ filename, h2) else ("", h2).

Definition service_bbox_of (w : World) (st : App.State)
  : option (Q * Q * Q * Q) :=
  match Helpers.safe_float w (App.bbox_minx st),
        Helpers.safe_float w (App.bbox_miny st),
        Helpers.safe_float w (App.bbox_maxx st),
        Helpers.safe_float w (App.bbox_maxy st)
  with
  | Some minx, Some miny, Some maxx, Some maxy => Some (minx, miny, maxx, maxy)
  | _, _, _, _ => None
  end.

(** [State.build_map] of [state/app_state.py] *)
Definition service_build_map (mw : MapWorld) (w : World) (st : App.State)
    (h : fs_history) : App.State * fs_history :=
  let bbox := service_bbox_of w st in
  let '(_, h') :=
    write_folium_map_to_assets mw (App.selected_layer st) (App.date_str st)
      bbox h in
  let st :=
    if truthy (App.selected_layer st) then
      set_map_src
        ("/folium_map_" ++ Helpers.slug (App.selected_layer st) ++ "_"
         ++ App.date_str st ++ ".html?t=" ++ str_of_N (mw_time mw h'))
        st
    else st in
  (set_map_ready true st, h').

End MapWriter.

(** ** The crop classification handlers *)

Module Crop.
Import PyStr.
Local Open Scope string_scope.

(** The fields of [State] the two handlers mention. *)
Record CropState : Type := mkCropState {
  crop_status : string;
  crop_file_path : string;
  crop_file_name : string;
  crop_api_status : string;
  crop_t1 : string;
  crop_t2 : string;
  crop_t3 : string;
  crop_pred_img : string
}.

(** An uploaded file object: the values of its keys, empty when the key is
    absent or its value is falsy. *)
Record upload : Type := mkUpload {
  up_path : string;
  up_url : string;
  up_name : string;
  up_data : string
}.

(** What [client.predict] gives: an exception with its text, something that
    is not a list or tuple of at least four items (with the description the
    message shows), or the file paths. *)
Inductive predict_answer : Type :=
| PredictRaised (e : string)
| PredictUnexpected (shown : string)
| PredictFiles (t1 t2 t3 pred : string) (more : list string).

(** The interactions of the handlers, with their outcome.  Reading a file
    is [open(p, "rb")] followed by [read()], writing is [open(p, "wb")]
    followed by [write(content)]; [None] and [false] stand for an
    exception. *)
Inductive op : Type :=
| OpMakedirs (dir : string) (ok : bool)
| OpExists (path : string) (ans : bool)
| OpRead (path : string) (ans : option string)
| OpDownload (url : string) (ans : option string)
| OpWrite (path content : string) (ok : bool)
| OpPredict (file : string) (ans : predict_answer).

Definition history : Type := list op.

(** The outside: the working directory, the library functions
    [os.path.splitext(p)[1]] and [urlsplit(url).path], whether
    [gradio_client] is installed, the file system, the network and the
    model. *)
Record CropWorld : Type := mkCropWorld {
  cw_cwd : string;
  cw_ext : string -> string;
  cw_url_path : string -> string;
  cw_client : bool;
  cw_makedirs : history -> string -> bool;
  cw_exists : history -> string -> bool;
  cw_read : history -> string -> option string;
  cw_download : history -> string -> option string;
  cw_write : history -> string -> string -> bool;
  cw_predict : history -> string -> predict_answer
}.

Definition with_upload (status path name : string) (s : CropState)
  : CropState :=
  mkCropState status path name (crop_api_status s) (crop_t1 s) (crop_t2 s)
    (crop_t3 s) (crop_pred_img s).

Definition with_crop_status (v : string) (s : CropState) : CropState :=
  mkCropState v (crop_file_path s) (crop_file_name s) (crop_api_status s)
    (crop_t1 s) (crop_t2 s) (crop_t3 s) (crop_pred_img s).

Definition with_api_status (v : string) (s : CropState) : CropState :=
  mkCropState (crop_status s) (crop_file_path s) (crop_file_name s) v
    (crop_t1 s) (crop_t2 s) (crop_t3 s) (crop_pred_img s).

Definition with_images (t1 t2 t3 pred : string) (s : CropState) : CropState :=
  mkCropState (crop_status s) (crop_file_path s) (crop_file_name s)
    (crop_api_status s) t1 t2 t3 pred.

Definition MSG_NOT_PERSISTED : string :=
  "Could not persist uploaded file; please try again.".
Definition MSG_UPLOAD_FAILED : string := "Upload failed.".
Definition MSG_SELECT_FIRST : string := "Please select an image first.".
Definition MSG_NO_CLIENT : string :=
  "gradio_client not installed. Run: pip install gradio_client".
Definition MSG_CALLING : string := "Calling model…".
Definition MSG_PREDICTION_READY : string := "Prediction ready.".
Definition MSG_NOT_FETCHED : string :=
  "Prediction returned but images could not be fetched.".

Definition msg_selected (n : nat) : string :=
  "Selected " ++ str_of_nat n ++ " file(s).".

Definition msg_ready (cw : CropWorld) (local_path : string) : string :=
  "Ready: " ++ basename local_path ++ " ("
  ++ Layers.lower (cw_ext cw local_path) ++ ")".

(** [os.path.splitext(p)[1] or ".bin"] *)
Definition ext_or_bin (cw : CropWorld) (p : string) : string :=
  if truthy (cw_ext cw p) then cw_ext cw p else ".bin".

(** Writes [content] to [out_path]: the path when it worked. *)
Definition persist (cw : CropWorld) (out_path content : string) (h : history)
  : option string * history :=
  let ok := cw_write cw h out_path content in
  (if ok then Some out_path else None, (h ++ [OpWrite out_path content ok])%list).

(** The three branches of [crop_on_drop] that try to persist the first
    file: [local_path], or [None]. *)
Definition persist_upload (cw : CropWorld) (assets_dir : string)
    (f0 : option upload) (h : history) : option string * history :=
  match f0 with
  | None => (None, h)
  | Some f0 =>
      if truthy (up_path f0) then
        let src_path := up_path f0 in
        let out_path :=
          path_join assets_dir ("crop_upload" ++ ext_or_bin cw src_path) in
        let content := cw_read cw h src_path in
        let h1 := (h ++ [OpRead src_path content])%list in
        match content with
        | None => (Some src_path, h1)
        | Some content =>
            match persist cw out_path content h1 with
            | (Some p, h2) => (Some p, h2)
            | (None, h2) => (Some src_path, h2)
            end
        end
      else if truthy (up_url f0) then
        let url := up_url f0 in
        let out_path :=
          path_join assets_dir
            ("crop_upload" ++ ext_or_bin cw (cw_url_path cw url)) in
        let content := cw_download cw h url in
        let h1 := (h ++ [OpDownload url content])%list in
        match content with
        | None => (None, h1)
        | Some content => persist cw out_path content h1
        end
      else if truthy (up_name f0) && truthy (up_data f0) then
        let out_path :=
          path_join assets_dir ("crop_upload" ++ ext_or_bin cw (up_name f0)) in
        persist cw out_path (up_data f0) h
      else (None, h)
  end.

(** [State.crop_on_drop(files)]; an element of [files] that is not a
    dictionary is [None]. *)
Definition crop_on_drop (cw : CropWorld) (files : list (option upload))
    (st : CropState) (h : history) : CropState * history :=
  let st := with_crop_status (msg_selected (List.length files)) st in
  match files with
  | [] => (with_upload (crop_status st) "" "" st, h)
  | f0 :: _ =>
      let assets_dir := path_join (cw_cwd cw) "assets" in
      let ok := cw_makedirs cw h assets_dir in
      let h1 := (h ++ [OpMakedirs assets_dir ok])%list in
      if negb ok then (with_upload MSG_UPLOAD_FAILED "" "" st, h1)
      else
        let '(local_path, h2) := persist_upload cw assets_dir f0 h1 in
        match local_path with
        | Some (String c p) =>
            let local_path := String c p in
            let found := cw_exists cw h2 local_path in
            let h3 := (h2 ++ [OpExists local_path found])%list in
            if found then
              (with_upload (msg_ready cw local_path) local_path
                 (basename local_path) st, h3)
            else (with_upload MSG_NOT_PERSISTED "" "" st, h3)
        | _ => (with_upload MSG_NOT_PERSISTED "" "" st, h2)
        end
  end.

(** [_fetch_to_assets(src_path, out_name)] of [crop_send]: the public
    path, empty when the [try] block raised; [None] when [os.makedirs],
    which is outside the [try] block, raised. *)
Definition _fetch_to_assets (cw : CropWorld) (src_path out_name : string)
    (h : history) : option string * history :=
  let assets_dir := path_join (cw_cwd cw) "assets" in
  let ok := cw_makedirs cw h assets_dir in
  let h1 := (h ++ [OpMakedirs assets_dir ok])%list in
  if negb ok then (None, h1)
  else
    let out_path := path_join assets_dir out_name in
    let remote :=
      startswith src_path "http://" || startswith src_path "https://" in
    let content :=
      if remote then cw_download cw h1 src_path else cw_read cw h1 src_path in
    let h2 :=
      (h1 ++ [if remote then OpDownload src_path content
              else OpRead src_path content])%list in
    match content with
    | None => (Some "", h2)
    | Some content =>
        match persist cw out_path content h2 with
        | (Some p, h3) => (Some ("/" ++ basename p), h3)
        | (None, h3) => (Some "", h3)
        end
    end.

(** How [crop_send] ends: it returns, or [OSError] leaves it. *)
Inductive ended : Type :=
| Returned
| Raised.

(** The four calls of [_fetch_to_assets] and the assignments after
    them. *)
Definition fetch_images (cw : CropWorld) (t1 t2 t3 pred : string)
    (st : CropState) (h : history) : ended * CropState * history :=
  match _fetch_to_assets cw t1 "crop_t1.png" h with
  | (None, h) => (Raised, st, h)
  | (Some t1_fp, h) =>
      match _fetch_to_assets cw t2 "crop_t2.png" h with
      | (None, h) => (Raised, st, h)
      | (Some t2_fp, h) =>
          match _fetch_to_assets cw t3 "crop_t3.png" h with
          | (None, h) => (Raised, st, h)
          | (Some t3_fp, h) =>
              match _fetch_to_assets cw pred "crop_pred.png" h with
              | (None, h) => (Raised, st, h)
              | (Some pred_fp, h) =>
                  let st := with_images t1_fp t2_fp t3_fp pred_fp st in
                  (Returned,
                   with_api_status
                     (if truthy pred_fp then MSG_PREDICTION_READY
                      else MSG_NOT_FETCHED) st,
                   h)
              end
          end
      end
  end.

(** [State.crop_send] of the single-file application. *)
Definition crop_send (cw : CropWorld) (st : CropState) (h : history)
  : ended * CropState * history :=
  if negb (truthy (crop_file_path st)) then
    (Returned, with_crop_status MSG_SELECT_FIRST st, h)
  else
    let found := cw_exists cw h (crop_file_path st) in
    let h1 := (h ++ [OpExists (crop_file_path st) found])%list in
    if negb found then
      (Returned,
       with_crop_status ("File not found: " ++ crop_file_path st) st, h1)
    else if negb (cw_client cw) then
      (Returned, with_crop_status MSG_NO_CLIENT st, h1)
    else
      let st0 := with_crop_status "" (with_api_status MSG_CALLING st) in
      let res := cw_predict cw h1 (crop_file_path st) in
      let h2 := (h1 ++ [OpPredict (crop_file_path st) res])%list in
      match res with
      | PredictRaised e =>
          (Returned, with_api_status ("Model call failed: " ++ e) st0, h2)
      | PredictUnexpected shown =>
          (Returned,
           with_api_status ("Unexpected response from model: " ++ shown) st0,
           h2)
      | PredictFiles t1 t2 t3 pred _ => fetch_images cw t1 t2 t3 pred st0 h2
      end.

(** *** Vocabulary *)

Definition is_predict (o : op) : bool :=
  match o with OpPredict _ _ => true | _ => false end.

(** A successful write of the file [name] of the assets directory. *)
Definition wrote (cw : CropWorld) (name : string) (o : op) : bool :=
  match o with
  | OpWrite p _ true =>
      String.eqb p (path_join (path_join (cw_cwd cw) "assets") name)
  | _ => false
  end.

(** A thumbnail is empty, or the public name of a file that was written. *)
Definition thumbnail (cw : CropWorld) (name value : string) (ops : history)
  : Prop :=
  value = ""
  \/ (value = "/" ++ name /\ Exists (fun o => wrote cw name o = true) ops).

End Crop.

(** ** The bands of the tile *)

Module Stack.
Import App.

(** The windows a run read, in the order of the reads. *)
Fixpoint read_data (evs : list event) : list band :=
  match evs with
  | [] => []
  | EvRead _ _ _ (ReadOk data) :: rest => data :: read_data rest
  | _ :: rest => read_data rest
  end.

(** The profile the first window gives to the file. *)
Definition profile_of (data : band) : profile :=
  {| meta_dtype := dtype data;
     meta_count := 18;
     meta_height := height data;
     meta_width := width data;
     meta_transform := transform data |}.

(** The channels of a preview made of three windows. *)
Definition channels (r g b : band) (rgb : list (list Z)) : Prop :=
  same_shape r g = true /\ same_shape r b = true
  /\ exists cr cg cb,
       Preview._stretch (pixels r) = Some cr
       /\ Preview._stretch (pixels g) = Some cg
       /\ Preview._stretch (pixels b) = Some cb
       /\ rgb = [cr; cg; cb].

End Stack.

(** ** File sizes *)

Module Sizes.
Import PyStr.
Local Open Scope string_scope.

(** [str] of an [int]. *)
Definition str_of_int (n : Z) : string :=
  (if (n <? 0)%Z then "-" else "") ++ str_of_N (Z.abs_N n).

Definition size_names : list string := ["B"; "KB"; "MB"; "GB"; "TB"].

(** The loop of [format_file_size] in [utils/helpers.py]: divide by 1024
    and move to the next unit while the size is at least 1024 and a unit
    is left.  The index bounds the loop at four rounds, which is the fuel
    [format_file_size] gives it. *)
Fixpoint scale (fuel : nat) (size : Q) (i : nat) : Q * nat :=
  match fuel with
  | O => (size, i)
  | S fuel' =>
      if Qle_bool 1024 size && (i <? List.length size_names - 1)%nat
      then scale fuel' (size / 1024) (S i)
      else (size, i)
  end.

(** [format_file_size] of [utils/helpers.py]. *)
Definition format_file_size (size_bytes : Z) : string :=
  if (size_bytes =? 0)%Z then "0 B"
  else
    let '(size, i) := scale 4 (inject_Z size_bytes) 0 in
    format_f 1 size ++ " " ++ nth i size_names "".

(** [format_file_size] of [utils/file_utils.py]. *)
Definition file_utils_format_file_size (size_bytes : Z) : string :=
  if (size_bytes <? 1024)%Z then str_of_int size_bytes ++ " B"
  else if (size_bytes <? 1024 ^ 2)%Z then
    format_f 1 (inject_Z size_bytes / 1024) ++ " KB"
  else if (size_bytes <? 1024 ^ 3)%Z then
    format_f 1 (inject_Z size_bytes / inject_Z (1024 ^ 2)) ++ " MB"
  else
    format_f 1 (inject_Z size_bytes / inject_Z (1024 ^ 3)) ++ " GB".

End Sizes.

(** ** More concrete worlds *)

Module ScenarioMore.
Import Scenario.
Local Open Scope string_scope.

(** A catalogue whose STAC endpoints are down, while the granule search has
    an entry. *)
Definition granule_only : World :=
  {| py_float := decimal;
     fromisoformat := PyDatetime.iso_parse;
     today := fun _ => TODAY;
     raster_backend := true;
     EARTHDATA_TOKEN := "token";
     getcwd := "/srv/bloomwatch";
     geocode_get := fun _ _ => HttpFailed;
     search_point := fun _ _ _ _ _ => HttpFailed;
     search_bbox := fun _ _ _ _ => HttpFailed;
     collection_items := fun _ _ _ _ _ => HttpFailed;
     granules := fun _ _ _ => HttpJson [a_granule];
     probe := fun _ _ _ => ProbeStatus 206;
     read_window := fun _ _ _ _ => ReadOk tiny_band;
     makedirs := fun _ _ => true;
     write_tif := fun _ _ _ _ => true;
     save_png := fun _ _ _ => true |}.

(** A timestamp without an offset. *)
Definition naive_stamp : feature :=
  {| collection := "HLSL30.v2.0";
     prop_datetime := "2023-05-30T10:34:12";
     assets := [] |}.

(** A catalogue that lists two Landsat and two Sentinel items. *)
Definition two_collections : Client.Service :=
  {| Client.base := offline;
     Client.now_us := fun _ => 0%Z;
     Client.get_geocode := fun _ _ => HttpFailed;
     Client.get_items := fun _ coll _ _ _ =>
       if String.eqb coll "HLSL30.v2.0" then HttpJson [l30_scene; naive_stamp]
       else HttpJson [s30_later; s30_scene] |}.

(** 2023-05-02 and 2023-07-01, at midnight UTC. *)
Definition may_2 : PyDatetime.datetime :=
  {| PyDatetime.naive_us := (738642 - 1) * PyDatetime.US_PER_DAY;
     PyDatetime.utcoffset := Some 0%Z |}.

Definition july_1 : PyDatetime.datetime :=
  {| PyDatetime.naive_us := (738702 - 1) * PyDatetime.US_PER_DAY;
     PyDatetime.utcoffset := Some 0%Z |}.

(** Two layers, and a regular-expression library that rejects every
    pattern. *)
Definition two_layers : Layers.Env :=
  {| Layers.AVAILABLE_LAYERS :=
       ["MODIS_Terra_NDVI_8Day"; "VIIRS_SNPP_MODIS_Like_TrueColor"];
     Layers.re_compile := fun _ => inl "unsupported" |}.

Definition filter_form (mode : string) : Layers.FilterState :=
  {| Layers.app := paris_form;
     Layers.layer_filter := "";
     Layers.filtered_layers :=
       ["MODIS_Terra_NDVI_8Day"; "VIIRS_SNPP_MODIS_Like_TrueColor"];
     Layers.filter_mode := mode;
     Layers.regex_error := "";
     Layers.match_count := 2 |}.

(** A capabilities document with two layers, one of them with a time
    dimension, and the empty tables. *)
Definition capabilities : list Wms.layer_el :=
  [ {| Wms.name_text := Some " VIIRS_SNPP_MODIS_Like_TrueColor ";
       Wms.dimensions := [] |};
    {| Wms.name_text := Some "MODIS_Terra_NDVI_8Day";
       Wms.dimensions :=
         [("Time", Some "2023-05-25, 2023-06-02,2023-06-10")] |};
    {| Wms.name_text := None; Wms.dimensions := [] |} ].

Definition no_tables : Wms.Tables :=
  {| Wms.LAYER_TIME_VALUES := []; Wms.LAYER_TIME_DEFAULT := [] |}.

(** An empty disk on which every operation succeeds, at noon-night of
    2023-07-01. *)
Definition disk : MapWriter.MapWorld :=
  {| MapWriter.mw_cwd := "/srv/bloomwatch";
     MapWriter.mw_today := "2023-07-01";
     MapWriter.mw_time := fun _ => 1688169600%N;
     MapWriter.mw_build := fun _ _ _ => true;
     MapWriter.mw_render := fun _ _ _ => Some "<html>";
     MapWriter.mw_makedirs := fun _ _ => true;
     MapWriter.mw_exists := fun _ _ => false;
     MapWriter.mw_read := fun _ _ => None;
     MapWriter.mw_write := fun _ _ _ => true;
     MapWriter.mw_save := fun _ _ => true |}.

(** A geocoder that knows one place, in front of an empty catalogue, and a
    form with an address and no latitude. *)
Definition gazetteer : World :=
  {| py_float := decimal;
     fromisoformat := PyDatetime.iso_parse;
     today := fun _ => TODAY;
     raster_backend := true;
     EARTHDATA_TOKEN := "token";
     getcwd := "/srv/bloomwatch";
     geocode_get := fun _ _ => HttpJson [("48.8566", "2.3522")];
     search_point := fun _ _ _ _ _ => HttpJson [];
     search_bbox := fun _ _ _ _ => HttpJson [];
     collection_items := fun _ _ _ _ _ => HttpJson [];
     granules := fun _ _ _ => HttpFailed;
     probe := fun _ _ _ => ProbeStatus 206;
     read_window := fun _ _ _ _ => ReadOk tiny_band;
     makedirs := fun _ _ => true;
     write_tif := fun _ _ _ _ => true;
     save_png := fun _ _ _ => true |}.

Definition address_form : App.State :=
  {| App.map_ready := true;
     App.selected_layer := "MODIS_Terra_CorrectedReflectance_TrueColor";
     App.map_src := "/folium_map.html";
     App.date_str := "2023-06-01";
     App.bbox_minx := "";
     App.bbox_miny := "";
     App.bbox_maxx := "";
     App.bbox_maxy := "";
     App.input_lat := "";
     App.input_lon := "2.35";
     App.input_address := "  Paris ";
     App.fetch_status := "";
     App.tile_path := "";
     App.preview_png := "" |}.

(** A machine on which the dropped file cannot be read back, every other
    operation succeeds, and the model answers with four files. *)
Definition studio : Crop.CropWorld :=
  {| Crop.cw_cwd := "/srv/bloomwatch";
     Crop.cw_ext := fun _ => ".tif";
     Crop.cw_url_path := fun url => url;
     Crop.cw_client := true;
     Crop.cw_makedirs := fun _ _ => true;
     Crop.cw_exists := fun _ _ => true;
     Crop.cw_read := fun _ p =>
       if String.eqb p "/tmp/upload_1.tif" then None else Some "png";
     Crop.cw_download := fun _ _ => None;
     Crop.cw_write := fun _ _ _ => true;
     Crop.cw_predict := fun _ _ =>
       Crop.PredictFiles "/tmp/gradio/t1.png" "/tmp/gradio/t2.png"
         "/tmp/gradio/t3.png" "/tmp/gradio/pred.png" [] |}.

Definition dropped : Crop.upload :=
  {| Crop.up_path := "/tmp/upload_1.tif";
     Crop.up_url := "";
     Crop.up_name := "";
     Crop.up_data := "" |}.

Definition no_crop : Crop.CropState :=
  {| Crop.crop_status := "";
     Crop.crop_file_path := "";
     Crop.crop_file_name := "";
     Crop.crop_api_status := "";
     Crop.crop_t1 := "";
     Crop.crop_t2 := "";
     Crop.crop_t3 := "";
     Crop.crop_pred_img := "" |}.

Definition selected_crop : Crop.CropState :=
  {| Crop.crop_status := "Ready: upload_1.tif (.tif)";
     Crop.crop_file_path := "/tmp/upload_1.tif";
     Crop.crop_file_name := "upload_1.tif";
     Crop.crop_api_status := "";
     Crop.crop_t1 := "";
     Crop.crop_t2 := "";
     Crop.crop_t3 := "";
     Crop.crop_pred_img := "" |}.

End ScenarioMore.

(* ================================================================== *)
(** * Part II: properties *)
(* ================================================================== *)

(** ** The model on concrete inputs *)

Module Examples.
Local Open Scope string_scope.

Example strip_address : PyStr.strip "  10 rue de Rivoli, Paris  " = "10 rue de Rivoli, Paris".
Proof. reflexivity. Qed.

Example basename_tif :
  PyStr.basename "/srv/bloomwatch/assets/hls_tile_48.85660_2.35220_2023-06-01.tif"
  = "hls_tile_48.85660_2.35220_2023-06-01.tif".
Proof. reflexivity. Qed.

Example format_latitude : PyStr.format_f 5 (488566 # 10000) = "48.85660".
Proof. reflexivity. Qed.

Example format_negative : PyStr.format_f 6 (- (23522 # 10000)) = "-2.352200".
Proof. reflexivity. Qed.

Example ordinal_2023_06_01 : PyDatetime.ordinal_of "2023-06-01" = 738672%Z.
Proof. reflexivity. Qed.

Example ordinal_max : PyDatetime.ordinal_of "9999-12-31" = PyDatetime.MAXORDINAL.
Proof. reflexivity. Qed.

Example overflow_near_max :
  fst (Search._search_hls_items Scenario.offline Scenario.PARIS_LAT
         Scenario.PARIS_LON "9999-12-20" 20 []) = Raises OverflowError.
Proof. reflexivity. Qed.

Example stretch_ramp :
  Preview._stretch [0; 10; 20; 30; 40; 100; 3]%Q
  = Some [0; 26; 54; 81; 109; 255; 7]%Z.
Proof. reflexivity. Qed.

Example ranking_picks_three :
  Ranking.rank Scenario.offline "2023-06-01"
    [Scenario.s30_later; Scenario.s30_partial; Scenario.l30_scene;
     Scenario.s30_scene]
  = Returns [Scenario.s30_scene; Scenario.l30_scene; Scenario.s30_partial].
Proof. reflexivity. Qed.

(** Three complete acquisitions: 18 bands, the GeoTIFF and the preview. *)
Example tile_ready :
  let run := App.fetch_tile Scenario.all_complete Scenario.paris_form [] in
  fst (fst run) = App.Returned App.AtEnd
  /\ App.fetch_status (snd (fst run)) = "Tile ready."
  /\ App.tile_path (snd (fst run)) = "/hls_tile_48.85660_2.35220_2023-06-01.tif"
  /\ App.preview_png (snd (fst run)) = "/hls_tile_48.85660_2.35220_2023-06-01.png"
  /\ App.bands_read (snd run) = 18%nat.
Proof. vm_compute. repeat split. Qed.

(** A date in the future: nothing is asked, nothing is found. *)
Example future_date :
  App.fetch_tile Scenario.all_complete
    (Scenario.form "48.8566" "2.3522" "2099-01-01") []
  = (App.Returned App.AtNoItems,
     App.set_fetch_status App.MSG_NO_ITEMS
       (Scenario.form "48.8566" "2.3522" "2099-01-01"),
     []).
Proof. reflexivity. Qed.

End Examples.

Module GeoFacts.
Import Geo.
Local Open Scope R_scope.

Lemma radians_abs (lat : R) : cos (radians lat) = cos (radians (Rabs lat)).
Proof.
  unfold radians, Rabs. destruct (Rcase_abs lat) as [Hneg | Hpos]; [|reflexivity].
  replace (- lat * PI / 180) with (- (lat * PI / 180)) by lra.
  now rewrite cos_neg.
Qed.

Lemma radians_range (a : R) : 0 <= a -> a < 90 -> 0 <= radians a < PI / 2.
Proof.
  intros H0 H90. unfold radians. pose proof PI_RGT_0 as Hpi. split.
  - apply Rmult_le_pos; [apply Rmult_le_pos|]; lra.
  - assert (a * PI < 90 * PI) by (apply Rmult_lt_compat_r; lra). lra.
Qed.

Lemma cos_radians_antitone (lat1 lat2 : R) :
  Rabs lat1 <= Rabs lat2 -> Rabs lat2 < 90 ->
  cos (radians lat2) <= cos (radians lat1).
Proof.
  intros Hle H90.
  rewrite (radians_abs lat1), (radians_abs lat2).
  pose proof (Rabs_pos lat1) as P1. pose proof (Rabs_pos lat2) as P2.
  destruct (radians_range (Rabs lat1)) as [A1 B1]; [lra | lra |].
  destruct (radians_range (Rabs lat2)) as [A2 B2]; [lra | lra |].
  pose proof PI_RGT_0 as Hpi.
  apply cos_decr_1; try lra.
  unfold radians. apply Rmult_le_compat_r; [lra|].
  apply Rmult_le_compat_r; lra.
Qed.

Lemma floor_pos (lat : R) : 1 / 10 <= Rmax (1 / 10) (cos (radians lat)).
Proof. apply Rmax_l. Qed.

(** C7. For a fixed non-negative metric radius, the longitude half-width
    returned by [_deg_buffer] does not decrease when [|lat|] grows towards
    90; the divisor is floored at [111320 * 0.1], so at every latitude the
    width stays below [meters / 11132]. *)
Theorem deg_buffer_lon_monotone (meters lat1 lat2 : R) :
  0 <= meters -> Rabs lat1 <= Rabs lat2 -> Rabs lat2 < 90 ->
  snd (_deg_buffer lat1 meters) <= snd (_deg_buffer lat2 meters)
  /\ 11132 <= 111320 * Rmax (1 / 10) (cos (radians lat2))
  /\ snd (_deg_buffer lat2 meters) <= meters / 11132.
Proof.
  intros Hm Hle H90. cbn [_deg_buffer snd].
  pose proof (cos_radians_antitone lat1 lat2 Hle H90) as Hcos.
  pose proof (floor_pos lat1) as F1. pose proof (floor_pos lat2) as F2.
  set (c1 := Rmax (1 / 10) (cos (radians lat1))) in *.
  set (c2 := Rmax (1 / 10) (cos (radians lat2))) in *.
  assert (Hc : c2 <= c1).
  { unfold c1, c2. apply Rmax_case_strong; intros; [apply Rmax_l|].
    eapply Rle_trans; [exact Hcos | apply Rmax_r]. }
  assert (I12 : / (111320 * c1) <= / (111320 * c2)).
  { apply Rinv_le_contravar; nra. }
  assert (I2 : / (111320 * c2) <= / 11132).
  { apply Rinv_le_contravar; nra. }
  repeat split.
  - unfold Rdiv. apply Rmult_le_compat_l; assumption.
  - nra.
  - unfold Rdiv. apply Rmult_le_compat_l; assumption.
Qed.

Lemma deg_buffer_lon_monotone_witness :
  snd (_deg_buffer 10 500) <= snd (_deg_buffer (-60) 500)
  /\ 11132 <= 111320 * Rmax (1 / 10) (cos (radians (-60)))
  /\ snd (_deg_buffer (-60) 500) <= 500 / 11132.
Proof.
  apply (deg_buffer_lon_monotone 500 10 (-60)).
  - lra.
  - rewrite (Rabs_pos_eq 10) by lra. rewrite (Rabs_left (-60)) by lra. lra.
  - rewrite (Rabs_left (-60)) by lra. lra.
Defined.

(** The refactored client of [api/hls.py] divides by [abs(cos(lat))]
    without a floor: at the pole its divisor is zero. *)
Remark client_deg_buffer_no_floor : 111320 * Rabs (cos (radians 90)) = 0.
Proof.
  unfold radians. replace (90 * PI / 180) with (PI / 2) by lra.
  rewrite cos_PI2, Rabs_R0. lra.
Qed.

End GeoFacts.

(** ** The band taxonomy *)

Module BandsFacts.
Import Bands.
Local Open Scope string_scope.

(** C6. [_bands_for_collection] is a function of the collection identifier
    alone (it takes no world and no history): every identifier, and so each
    of the two supported collections, gets exactly six distinct band codes,
    the Sentinel alphabet for identifiers that start with HLSS30 and the
    Landsat alphabet otherwise, and equal identifiers get equal lists. *)
Theorem bands_for_collection_total :
  (forall coll_id : string,
      List.length (_bands_for_collection coll_id) = 6%nat
      /\ NoDup (_bands_for_collection coll_id)
      /\ (_bands_for_collection coll_id = S30_BANDS
          \/ _bands_for_collection coll_id = L30_BANDS))
  /\ map _bands_for_collection Search.HLS_COLLECTIONS = [S30_BANDS; L30_BANDS]
  /\ S30_BANDS <> L30_BANDS
  /\ (forall a b : string,
        a = b -> _bands_for_collection a = _bands_for_collection b).
Proof.
  split; [|split; [reflexivity|split; [discriminate|intros a b ->; reflexivity]]].
  intros coll_id. unfold _bands_for_collection.
  destruct (PyStr.startswith coll_id "HLSS30"); (split; [reflexivity|split]);
    try (left; reflexivity); try (right; reflexivity);
    repeat constructor; simpl; intuition discriminate.
Qed.

(** The client of [api/hls.py] has a different table, of the bands that
    exist in a collection; the pipeline does not call it. *)
Remark client_bands_lengths :
  List.length (bands_for_collection "HLSL30.v2.0") = 11%nat
  /\ List.length (bands_for_collection "HLSS30.v2.0") = 13%nat
  /\ bands_for_collection "MODIS" = [].
Proof. repeat split. Qed.

End BandsFacts.

(** ** The catalogue search *)

Module SearchFacts.
Import PyDatetime Search.
Local Open Scope Z_scope.

Lemma date_of_add_days (t t' : datetime) (d : Z) :
  add_days t d = Some t' -> date_of t' = date_of t + d.
Proof.
  unfold add_days, date_of. destruct (in_range _); [|discriminate].
  intros [= <-]. cbn [naive_us].
  rewrite Z.div_add by (unfold US_PER_DAY; lia). lia.
Qed.

Lemma search_window_spec (w : World) (dt : string) (tr : trace) (iv : interval) :
  search_window w dt tr = Returns iv ->
  exists t0,
    fromisoformat w dt = Some t0
    /\ start_date iv = date_of t0 - 15
    /\ end_date iv = Z.min (date_of t0 + 15) (today w tr).
Proof.
  unfold search_window. destruct (fromisoformat w dt) as [t0|]; [|discriminate].
  destruct (add_days t0 (-15)) as [lo|] eqn:Hlo; [|discriminate].
  destruct (add_days t0 15) as [hi|] eqn:Hhi; [|discriminate].
  intros [= <-]. exists t0. cbn [start_date end_date].
  rewrite (date_of_add_days _ _ _ Hlo), (date_of_add_days _ _ _ Hhi).
  split; [reflexivity|]. split; [lia|].
  destruct (Z.gtb_spec (date_of t0 + 15) (today w tr)); lia.
Qed.

(** The two sums of [search_window] stay between [datetime.min] and
    [datetime.max] exactly for the targets from 0001-01-16 to 9999-12-16. *)
Lemma window_in_range (t0 : datetime) :
  15 * US_PER_DAY <= naive_us t0 < (MAXORDINAL - 15) * US_PER_DAY
  <-> (exists lo hi, add_days t0 (-15) = Some lo /\ add_days t0 15 = Some hi).
Proof.
  unfold add_days, in_range, MAXORDINAL, US_PER_DAY. split.
  - intros H.
    destruct (Z.leb_spec 0 (naive_us t0 + -15 * 86400000000)); [|lia].
    destruct (Z.ltb_spec (naive_us t0 + -15 * 86400000000)
                (3652059 * 86400000000)); [|lia].
    destruct (Z.leb_spec 0 (naive_us t0 + 15 * 86400000000)); [|lia].
    destruct (Z.ltb_spec (naive_us t0 + 15 * 86400000000)
                (3652059 * 86400000000)); [|lia].
    cbn [andb]. eauto.
  - intros (lo & hi & Hlo & Hhi).
    destruct (Z.leb_spec 0 (naive_us t0 + -15 * 86400000000));
      [|discriminate Hlo].
    destruct (Z.ltb_spec (naive_us t0 + 15 * 86400000000)
                (3652059 * 86400000000)); [lia|].
    rewrite andb_false_r in Hhi. discriminate Hhi.
Qed.

(** C3, amended.  For a target date that parses: when the target lies
    between 0001-01-16 and 9999-12-16 the window is computed, it starts
    fifteen days before the target and ends fifteen days after it or today,
    whichever comes first, so its end never exceeds today; it is inverted
    exactly when the target is more than fifteen days after today, and then
    [_search_hls_items] returns the empty list, as a value and not as an
    exception, with the history unchanged: no request was made.  For any
    other target, the last fifteen days of year 9999 included, computing
    the window raises [OverflowError] out of [_search_hls_items], again
    before any request. *)
Theorem inverted_window_returns_empty (w : World) (lat lon : Q) (dt : string)
    (limit : Z) (tr : trace) (t0 : datetime) :
  fromisoformat w dt = Some t0 ->
  (15 * US_PER_DAY <= naive_us t0 < (MAXORDINAL - 15) * US_PER_DAY ->
   exists iv,
     search_window w dt tr = Returns iv
     /\ start_date iv = date_of t0 - 15
     /\ end_date iv = Z.min (date_of t0 + 15) (today w tr)
     /\ end_date iv <= today w tr
     /\ (start_date iv > end_date iv <-> today w tr + 15 < date_of t0)
     /\ (today w tr + 15 < date_of t0 ->
         _search_hls_items w lat lon dt limit tr = (Returns [], tr)))
  /\ (~ 15 * US_PER_DAY <= naive_us t0 < (MAXORDINAL - 15) * US_PER_DAY ->
      _search_hls_items w lat lon dt limit tr = (Raises OverflowError, tr)).
Proof.
  intros Hp. split.
  - intros Hr. apply window_in_range in Hr. destruct Hr as (lo & hi & Hlo & Hhi).
    assert (Hwin : exists iv, search_window w dt tr = Returns iv).
    { unfold search_window. rewrite Hp, Hlo, Hhi. eauto. }
    destruct Hwin as (iv & Hwin). exists iv.
    destruct (search_window_spec _ _ _ _ Hwin) as (t1 & Hp1 & Hs & He).
    assert (t1 = t0) by congruence. subst t1.
    split; [exact Hwin|]. split; [exact Hs|]. split; [exact He|].
    split; [lia|]. split; [lia|].
    intros Hfar. unfold _search_hls_items. rewrite Hwin.
    destruct (Z.gtb_spec (start_date iv) (end_date iv)); [reflexivity|lia].
  - intros Hn. unfold _search_hls_items, search_window. rewrite Hp.
    destruct (add_days t0 (-15)) as [lo|] eqn:Hlo; [|reflexivity].
    destruct (add_days t0 15) as [hi|] eqn:Hhi; [|reflexivity].
    exfalso. apply Hn, window_in_range. eauto.
Qed.

Lemma inverted_window_returns_empty_witness :
  _search_hls_items Scenario.offline Scenario.PARIS_LAT Scenario.PARIS_LON
    "2099-01-01" 20 [] = (Returns [], []).
Proof.
  destruct (inverted_window_returns_empty Scenario.offline Scenario.PARIS_LAT
              Scenario.PARIS_LON "2099-01-01" 20 []
              {| naive_us := (766280 - 1) * US_PER_DAY; utcoffset := None |}
              eq_refl) as [H _].
  destruct H as (iv & _ & _ & _ & _ & _ & He).
  - vm_compute. split; [discriminate|reflexivity].
  - apply He. vm_compute. reflexivity.
Defined.

(** C3 as the specification words it does not hold for every target far
    enough in the future: for a target in the last fifteen days of year
    9999, here 9999-12-20, which is more than fifteen days after today, the
    sum [t0 + timedelta(days=15)] leaves the range of [datetime]; the search
    raises [OverflowError] instead of returning the empty list. *)
Lemma far_future_target_raises :
  (exists t0,
      fromisoformat Scenario.offline "9999-12-20" = Some t0
      /\ today Scenario.offline [] + 15 < date_of t0)
  /\ _search_hls_items Scenario.offline Scenario.PARIS_LAT Scenario.PARIS_LON
       "9999-12-20" 20 [] = (Raises OverflowError, [])
  /\ ~ (forall dt t0,
          fromisoformat Scenario.offline dt = Some t0 ->
          today Scenario.offline [] + 15 < date_of t0 ->
          fst (_search_hls_items Scenario.offline Scenario.PARIS_LAT
                 Scenario.PARIS_LON dt 20 []) = Returns []).
Proof.
  split.
  { eexists. split; [reflexivity|]. vm_compute. reflexivity. }
  split; [reflexivity|].
  intros H.
  specialize (H "9999-12-20"%string _ eq_refl).
  assert (Hfar : today Scenario.offline [] + 15
                 < date_of {| naive_us := (3652048 - 1) * US_PER_DAY;
                              utcoffset := None |})
    by (vm_compute; reflexivity).
  specialize (H Hfar). vm_compute in H. discriminate H.
Qed.

(** The refactored client keeps a window of thirty days that may end after
    today. *)
Remark client_window_not_clamped :
  exists lo hi,
    client_window {| naive_us := (Scenario.TODAY - 1) * US_PER_DAY;
                     utcoffset := Some 0 |} = Some (lo, hi)
    /\ date_of hi = Scenario.TODAY + 30.
Proof. eexists _, _. split; reflexivity. Qed.

Lemma granule_fallback_spec (w : World) (box : bbox) (limit : Z)
    (iv : interval) (tr : trace) :
  granule_fallback w box limit iv tr =
  (match granules w tr box iv with
   | HttpJson (g :: gs) => map fabricate (slice_to (g :: gs) limit)
   | _ => []
   end,
   tr ++ [EvGranules box iv (granules w tr box iv)]).
Proof.
  unfold granule_fallback, log.
  destruct (granules w tr box iv) as [|[|g gs]]; reflexivity.
Qed.

(** C2, as the code has it. Once the window is computed and not inverted,
    [_search_hls_items] never raises and its requests follow one of five
    sequences, always in the order point POST, bbox POST, items GET per
    collection, granule GET.  A failed or empty answer of one of the two
    POSTs moves on to the next stage, and a non-empty one is the result.
    The items stage returns the concatenation of its two answers when
    neither request fails, even when that concatenation is empty; the
    granule stage is entered only when an items request fails, and yields
    the fabricated features of its hits, or the empty list. *)
Theorem search_cascade (w : World) (lat lon : Q) (dt : string) (limit : Z)
    (tr : trace) (iv : interval) :
  search_window w dt tr = Returns iv ->
  start_date iv <= end_date iv ->
  let box := Geo.bbox_around (Q2R lat) (Q2R lon) 200 in
  let a1 := search_point w tr lon lat limit iv in
  let e1 := EvSearchPoint lon lat limit iv a1 in
  let a2 := search_bbox w (tr ++ [e1]) box limit iv in
  let e2 := EvSearchBBox box limit iv a2 in
  let s30 := "HLSS30.v2.0"%string in
  let l30 := "HLSL30.v2.0"%string in
  let a3 := collection_items w (tr ++ [e1; e2]) s30 box limit iv in
  let e3 := EvCollectionItems s30 box limit iv a3 in
  let a3' := collection_items w (tr ++ [e1; e2; e3]) l30 box limit iv in
  let e3' := EvCollectionItems l30 box limit iv a3' in
  exists (feats : list feature) (evs : list event),
    _search_hls_items w lat lon dt limit tr = (Returns feats, tr ++ evs)
    /\ In (map stage evs)
         [[1]; [1; 2]; [1; 2; 3; 3]; [1; 2; 3; 4]; [1; 2; 3; 3; 4]]%nat
    /\ ((found a1 = Some feats /\ evs = [e1])
        \/ (found a1 = None /\ found a2 = Some feats /\ evs = [e1; e2])
        \/ (found a1 = None /\ found a2 = None
            /\ exists f3 f3',
                a3 = HttpJson f3 /\ a3' = HttpJson f3'
                /\ feats = f3 ++ f3' /\ evs = [e1; e2; e3; e3'])
        \/ (found a1 = None /\ found a2 = None
            /\ exists pre,
                ((a3 = HttpFailed /\ pre = [e1; e2; e3])
                 \/ ((exists f3, a3 = HttpJson f3) /\ a3' = HttpFailed
                     /\ pre = [e1; e2; e3; e3']))
                /\ evs = pre ++ [EvGranules box iv (granules w (tr ++ pre) box iv)]
                /\ feats =
                     match granules w (tr ++ pre) box iv with
                     | HttpJson (g :: gs) => map fabricate (slice_to (g :: gs) limit)
                     | _ => []
                     end)).
Proof.
  intros Hwin Hord box a1 e1 a2 e2 s30 l30 a3 e3 a3' e3'.
  unfold _search_hls_items. rewrite Hwin.
  destruct (Z.gtb_spec (start_date iv) (end_date iv)) as [Hgt|_]; [lia|].
  unfold log. fold box a1 e1.
  destruct (found a1) as [f1|] eqn:F1.
  { exists f1, [e1]. split; [reflexivity|]. split; [simpl; auto|]. left. auto. }
  fold a2 e2.
  destruct (found a2) as [f2|] eqn:F2.
  { exists f2, [e1; e2]. rewrite <- app_assoc. split; [reflexivity|].
    split; [simpl; auto|]. right; left. auto. }
  unfold HLS_COLLECTIONS. cbn [items_loop]. unfold log.
  rewrite <- !app_assoc. cbn [app]. fold s30 l30 a3 e3. fold a3' e3'.
  subst e3'. clearbody a3'. subst e3. clearbody a3.
  destruct a3 as [|f3].
  - rewrite granule_fallback_spec. rewrite <- app_assoc. cbn [app].
    eexists _, _. split; [reflexivity|]. split; [simpl; auto 6|].
    right; right; right. split; [reflexivity|]. split; [reflexivity|].
    eexists. split; [left; split; reflexivity|]. split; reflexivity.
  - destruct a3' as [|f3'].
    + rewrite granule_fallback_spec. rewrite <- app_assoc. cbn [app].
      eexists _, _. split; [reflexivity|]. split; [simpl; auto 8|].
      right; right; right. split; [reflexivity|]. split; [reflexivity|].
      eexists. split; [right; split; [eexists; reflexivity|split; reflexivity]|].
      split; reflexivity.
    + eexists _, _. split; [reflexivity|]. split; [simpl; auto 6|].
      right; right; left. split; [reflexivity|]. split; [reflexivity|].
      exists f3, f3'. repeat split; reflexivity.
Qed.

Lemma search_cascade_witness :
  exists (feats : list feature) (evs : list event),
    _search_hls_items Scenario.stac_empty Scenario.PARIS_LAT Scenario.PARIS_LON
      "2023-06-01" 20 [] = (Returns feats, evs)
    /\ In (map stage evs)
         [[1]; [1; 2]; [1; 2; 3; 3]; [1; 2; 3; 4]; [1; 2; 3; 3; 4]]%nat.
Proof.
  destruct (search_cascade Scenario.stac_empty Scenario.PARIS_LAT
              Scenario.PARIS_LON "2023-06-01" 20 []
              {| start_date := 738657; end_date := 738687 |})
    as (feats & evs & Hrun & Horder & _).
  - reflexivity.
  - cbn [start_date end_date]. lia.
  - exists feats, evs. split; assumption.
Defined.

(** C2 as the specification words it does not hold: with a catalogue whose
    three STAC stages answer without a feature, the search returns the empty
    list after the items stage, although the granule service, which is never
    asked, has an entry. *)
Lemma empty_result_without_granule_stage :
  fst (_search_hls_items Scenario.stac_empty Scenario.PARIS_LAT
         Scenario.PARIS_LON "2023-06-01" 20 []) = Returns []
  /\ map stage (snd (_search_hls_items Scenario.stac_empty Scenario.PARIS_LAT
                       Scenario.PARIS_LON "2023-06-01" 20 []))
     = [1; 2; 3; 3]%nat
  /\ (forall tr box iv,
        granules Scenario.stac_empty tr box iv = HttpJson [Scenario.a_granule])
  /\ ~ (fst (_search_hls_items Scenario.stac_empty Scenario.PARIS_LAT
               Scenario.PARIS_LON "2023-06-01" 20 []) = Returns [] ->
        forall tr box iv,
          granules Scenario.stac_empty tr box iv = HttpFailed
          \/ granules Scenario.stac_empty tr box iv = HttpJson []).
Proof.
  split; [reflexivity|]. split; [reflexivity|]. split; [reflexivity|].
  intros H. specialize (H eq_refl [] (0, 0, 0, 0)%R (mkInterval 0 0)).
  destruct H as [H|H]; discriminate H.
Qed.

End SearchFacts.

(** ** The preview stretch *)

Module PreviewFacts.
Import Preview.
Local Open Scope Q_scope.

Lemma sort_repeat (c : Q) (n : nat) : sort (repeat c n) = repeat c n.
Proof.
  induction n as [|n IH]; [reflexivity|].
  cbn [repeat sort]. rewrite IH. destruct n as [|n]; [reflexivity|].
  cbn [repeat insert_sorted].
  assert (H : Qle_bool c c = true) by (apply Qle_bool_iff, Qle_refl).
  now rewrite H.
Qed.

Lemma nth_repeat_below (c d : Q) (n i : nat) :
  (i < n)%nat -> nth i (repeat c n) d = c.
Proof.
  revert i. induction n as [|n IH]; intros i Hi; [lia|].
  destruct i as [|i]; [reflexivity|]. cbn [repeat nth]. apply IH. lia.
Qed.

(** The virtual index of a percentile between 0 and 100 falls inside the
    data. *)
Lemma previous_in_range (q : Q) (n : nat) :
  0 <= q -> q <= 100 -> (0 < n)%nat ->
  (Z.to_nat (Qfloor (q / 100 * (inject_Z (Z.of_nat n) - 1))) < n)%nat.
Proof.
  intros Hq0 Hq1 Hn.
  set (m := inject_Z (Z.of_nat n) - 1).
  assert (Hm : m == inject_Z (Z.of_nat n - 1)).
  { unfold m, Z.sub. rewrite inject_Z_plus. reflexivity. }
  assert (Hm0 : 0 <= m).
  { rewrite Hm. change 0 with (inject_Z 0). rewrite <- Zle_Qle. lia. }
  assert (Hup : q / 100 * m <= m).
  { rewrite <- (Qmult_1_l m) at 2. apply Qmult_le_compat_r; [|exact Hm0].
    apply Qle_shift_div_r; [reflexivity|]. rewrite Qmult_1_l. exact Hq1. }
  assert (Hfl : (Qfloor (q / 100 * m) <= Z.of_nat n - 1)%Z).
  { rewrite <- (Qfloor_Z (Z.of_nat n - 1)). apply Qfloor_resp_le.
    rewrite <- Hm. exact Hup. }
  lia.
Qed.

Lemma percentile_repeat (c q : Q) (n : nat) :
  0 <= q -> q <= 100 -> (0 < n)%nat ->
  exists v, percentile (repeat c n) q = Some v /\ v == c.
Proof.
  intros Hq0 Hq1 Hn. unfold percentile.
  destruct n as [|n]; [lia|]. cbn [repeat]. change (c :: repeat c n) with (repeat c (S n)).
  rewrite sort_repeat, repeat_length.
  eexists. split; [reflexivity|].
  rewrite !nth_repeat_below.
  - ring.
  - apply Nat.min_lt_iff. right. lia.
  - apply previous_in_range; assumption || lia.
Qed.

Lemma stretch_all_flat (lo c : Q) (n : nat) :
  lo == c ->
  stretch_all lo (1 # 1000000) (repeat c n) = Some (repeat 0%Z n).
Proof.
  intros Hlo. induction n as [|n IH]; [reflexivity|].
  cbn [repeat stretch_all]. rewrite IH. unfold stretch_pixel, checked_div.
  change (Qeq_bool (1 # 1000000) 0) with false. cbv iota.
  assert (Hz : Qle_bool ((c - lo) / (1 # 1000000)) 0 = true).
  { apply Qle_bool_iff. rewrite Hlo.
    setoid_replace (c - c) with 0 by ring. discriminate. }
  unfold clip01. rewrite Hz. reflexivity.
Qed.

(** C8. On a channel whose pixels all have one value, both percentiles are
    that value, the denominator is the floor [1e-6] and not their
    difference, no division has a zero denominator, and the output is the
    flat channel of zeros, of the same size. *)
Theorem stretch_constant_channel (c : Q) (n : nat) :
  (0 < n)%nat ->
  (exists lo hi,
      percentile (repeat c n) 2 = Some lo /\ percentile (repeat c n) 98 = Some hi
      /\ lo == c /\ hi == c /\ denominator lo hi = 1 # 1000000)
  /\ _stretch (repeat c n) = Some (repeat 0%Z n).
Proof.
  intros Hn.
  destruct (percentile_repeat c 2 n) as (lo & Plo & Hlo); [discriminate..|exact Hn|].
  destruct (percentile_repeat c 98 n) as (hi & Phi & Hhi); [discriminate..|exact Hn|].
  assert (Hden : denominator lo hi = 1 # 1000000).
  { unfold denominator, py_max.
    assert (H : Qle_bool (hi - lo) (1 # 1000000) = true).
    { apply Qle_bool_iff. rewrite Hlo, Hhi.
      setoid_replace (c - c) with 0 by ring. discriminate. }
    now rewrite H. }
  split.
  - exists lo, hi. repeat split; assumption.
  - unfold _stretch. rewrite Plo, Phi, Hden. apply stretch_all_flat, Hlo.
Qed.

Lemma stretch_constant_channel_witness :
  (exists lo hi,
      percentile (repeat 1200 4) 2 = Some lo /\ percentile (repeat 1200 4) 98 = Some hi
      /\ lo == 1200 /\ hi == 1200 /\ denominator lo hi = 1 # 1000000)
  /\ _stretch (repeat 1200 4) = Some (repeat 0%Z 4).
Proof. apply (stretch_constant_channel 1200 4). lia. Defined.

(** The floor makes the stretch total on every channel that has a pixel. *)
Lemma denominator_positive (lo hi : Q) : 1 # 1000000 <= denominator lo hi.
Proof.
  unfold denominator, py_max.
  destruct (Qle_bool (hi - lo) (1 # 1000000)) eqn:E; [apply Qle_refl|].
  destruct (Qlt_le_dec (1 # 1000000) (hi - lo)) as [H|H].
  - apply Qlt_le_weak, H.
  - apply Qle_bool_iff in H. congruence.
Qed.

End PreviewFacts.

(** ** The ranking *)

Module RankingFacts.
Import PyDatetime Ranking.
Local Open Scope Z_scope.

Section StableSort.
Context {A : Type}.
Implicit Types (p : Z * A) (l : list (Z * A)).

Lemma insert_by_key_perm p l : Permutation (insert_by_key p l) (p :: l).
Proof.
  induction l as [|y l IH]; cbn [insert_by_key]; [reflexivity|].
  destruct (fst p <=? fst y); [reflexivity|].
  rewrite IH. apply perm_swap.
Qed.

Lemma stable_sort_perm l : Permutation (stable_sort l) l.
Proof.
  induction l as [|p l IH]; cbn [stable_sort]; [reflexivity|].
  rewrite insert_by_key_perm. now constructor.
Qed.

Lemma insert_by_key_sorted p l :
  StronglySorted by_key l -> StronglySorted by_key (insert_by_key p l).
Proof.
  induction 1 as [|y l Hs IH Hy]; cbn [insert_by_key].
  - repeat constructor.
  - destruct (Z.leb_spec (fst p) (fst y)) as [Hle|Hlt].
    + constructor; [now constructor|]. constructor; [exact Hle|].
      eapply Forall_impl; [|exact Hy]. unfold by_key. intros; lia.
    + constructor; [exact IH|].
      eapply Permutation_Forall; [symmetry; apply insert_by_key_perm|].
      constructor; [unfold by_key; lia | exact Hy].
Qed.

Lemma stable_sort_sorted l : StronglySorted by_key (stable_sort l).
Proof.
  induction l as [|p l IH]; cbn [stable_sort]; [constructor|].
  now apply insert_by_key_sorted.
Qed.

Lemma insert_by_key_stable (k : Z) p l :
  filter (has_key k) (insert_by_key p l) = filter (has_key k) (p :: l).
Proof.
  induction l as [|y l IH]; cbn [insert_by_key]; [reflexivity|].
  destruct (Z.leb_spec (fst p) (fst y)) as [Hle|Hlt]; [reflexivity|].
  cbn [filter] in *. rewrite IH. unfold has_key.
  destruct (Z.eqb_spec (fst p) k), (Z.eqb_spec (fst y) k); try reflexivity; lia.
Qed.

Lemma stable_sort_stable (k : Z) l :
  filter (has_key k) (stable_sort l) = filter (has_key k) l.
Proof.
  induction l as [|p l IH]; cbn [stable_sort]; [reflexivity|].
  rewrite insert_by_key_stable. cbn [filter]. now rewrite IH.
Qed.

Variable d : A -> Z.

Lemma decorate_total (items : list A) :
  decorate (fun x => Some (d x)) items = Some (map (fun x => (d x, x)) items).
Proof.
  induction items as [|x items IH]; cbn [decorate map]; [reflexivity|].
  now rewrite IH.
Qed.

Lemma tagged_map (items : list A) :
  Forall (tagged d) (map (fun x => (d x, x)) items).
Proof. induction items; constructor; [reflexivity | assumption]. Qed.

Lemma sorted_undecorate l :
  Forall (tagged d) l -> StronglySorted by_key l ->
  StronglySorted (fun a b => d a <= d b) (map snd l).
Proof.
  intros Ht Hs. induction Hs as [|y l Hs IH Hy]; cbn [map]; [constructor|].
  inversion Ht as [|? ? Ty Tl]; subst. constructor; [now apply IH|].
  apply Forall_map. rewrite Forall_forall in *. intros p Hp.
  specialize (Hy p Hp). specialize (Tl p Hp). unfold by_key, tagged in *. lia.
Qed.

Lemma filter_undecorate (k : Z) l :
  Forall (tagged d) l ->
  filter (fun a => d a =? k) (map snd l) = map snd (filter (has_key k) l).
Proof.
  induction 1 as [|p l Hp Hl IH]; cbn [map filter]; [reflexivity|].
  unfold has_key at 1. rewrite Hp, IH. now destruct (d (snd p) =? k).
Qed.

(** [sort_by] with a key that never raises: the result is the stable
    rearrangement of the input by increasing key. *)
Lemma sort_by_spec (items : list A) :
  exists sorted,
    sort_by (fun x => Some (d x)) items = Returns sorted
    /\ Permutation sorted items
    /\ StronglySorted (fun a b => d a <= d b) sorted
    /\ (forall k, filter (fun a => d a =? k) sorted
                  = filter (fun a => d a =? k) items).
Proof.
  unfold sort_by. rewrite decorate_total.
  set (dl := map (fun x => (d x, x)) items).
  assert (Hdl : map snd dl = items).
  { unfold dl. rewrite map_map. cbn [snd]. apply map_id. }
  assert (Ht : Forall (tagged d) (stable_sort dl)).
  { eapply Permutation_Forall; [symmetry; apply stable_sort_perm|].
    apply tagged_map. }
  eexists. split; [reflexivity|]. repeat split.
  - apply Permutation_trans with (map snd dl);
      [apply Permutation_map, stable_sort_perm | now rewrite Hdl].
  - apply sorted_undecorate; [exact Ht | apply stable_sort_sorted].
  - intros k. rewrite filter_undecorate by exact Ht.
    rewrite stable_sort_stable, <- filter_undecorate by apply tagged_map.
    now rewrite Hdl.
Qed.

End StableSort.

Lemma ensure_aware_offset (dt : datetime) :
  utcoffset (ensure_aware dt)
  = Some (match utcoffset dt with Some o => o | None => 0 end)
  /\ naive_us (ensure_aware dt) = naive_us dt.
Proof.
  unfold ensure_aware. destruct (utcoffset dt) eqn:E.
  - rewrite E. split; reflexivity.
  - split; reflexivity.
Qed.

Lemma dt_of_aware (w : World) (f : feature) :
  exists o, utcoffset (_dt_of w f) = Some o.
Proof.
  unfold _dt_of. destruct (fromisoformat w _) as [dt|].
  - destruct (ensure_aware_offset dt) as [H _]. eauto.
  - exists 0. reflexivity.
Qed.

(** The key never raises: both sides of the subtraction are aware. *)
Lemma sort_key_distance (w : World) (target : datetime) (f : feature) :
  sort_key w (ensure_aware target) f = Some (distance w target f).
Proof.
  unfold sort_key, distance, abs_delta, utc_us.
  destruct (dt_of_aware w f) as [o Ho]. rewrite Ho.
  destruct (ensure_aware_offset target) as [Ht _]. rewrite Ht. reflexivity.
Qed.

Lemma sentinel_instant (w : World) (f : feature) :
  unparsed w f -> utc_us (_dt_of w f) = MAX_UTC.
Proof.
  unfold unparsed, _dt_of. intros ->. unfold utc_us, replace_utc, datetime_max, MAX_UTC.
  cbv [naive_us utcoffset]. lia.
Qed.

Lemma decorate_ext {A : Type} (key key' : A -> option Z) (l : list A) :
  (forall x, key x = key' x) -> decorate key l = decorate key' l.
Proof.
  intros H. induction l as [|x l IH]; cbn [decorate]; [reflexivity|].
  now rewrite H, IH.
Qed.

(** C5, as the code has it. When the requested date parses, the ranking
    never raises: it returns the first three elements of the stable
    rearrangement of the candidates by increasing distance to the target
    (a permutation of the candidates, sorted by distance, in which
    candidates at the same distance keep their discovery order).  A
    candidate whose timestamp does not parse is ranked as if it had been
    acquired at [datetime.max] in UTC; that is at least as far as every
    candidate whose instant lies between the mirror image of
    [datetime.max] about the target and [datetime.max]. *)
Theorem rank_by_distance (w : World) (date_str : string)
    (items : list feature) (target : datetime) :
  fromisoformat w date_str = Some target ->
  let d := distance w target in
  let T := utc_us (ensure_aware target) in
  exists sorted : list feature,
    rank w date_str items = Returns (firstn 3 sorted)
    /\ Permutation sorted items
    /\ StronglySorted (fun a b => d a <= d b) sorted
    /\ (forall k, filter (fun f => d f =? k) sorted
                  = filter (fun f => d f =? k) items)
    /\ (forall f, unparsed w f -> d f = Z.abs (MAX_UTC - T))
    /\ (forall f g,
          unparsed w f ->
          2 * T - MAX_UTC <= utc_us (_dt_of w g) <= MAX_UTC ->
          d g <= d f).
Proof.
  intros Hparse d T.
  destruct (sort_by_spec d items) as (sorted & Hsort & Hperm & Hsorted & Hstable).
  exists sorted. split.
  { unfold rank, sort_by. rewrite Hparse.
    rewrite (decorate_ext _ (fun x => Some (d x))) by apply sort_key_distance.
    unfold sort_by in Hsort.
    destruct (decorate (fun x => Some (d x)) items); [|discriminate].
    injection Hsort as ->. reflexivity. }
  repeat split; try assumption.
  - intros f Hf. unfold d, distance. now rewrite sentinel_instant.
  - intros f g Hf [Hlo Hhi]. unfold d, distance. fold T.
    rewrite (sentinel_instant w f Hf). lia.
Qed.

Lemma rank_by_distance_witness :
  exists sorted : list feature,
    rank Scenario.offline "2023-06-01"
      [Scenario.no_timestamp; Scenario.june_2] = Returns (firstn 3 sorted)
    /\ Permutation sorted [Scenario.no_timestamp; Scenario.june_2].
Proof.
  destruct (rank_by_distance Scenario.offline "2023-06-01"
              [Scenario.no_timestamp; Scenario.june_2]
              {| naive_us := 738671 * US_PER_DAY; utcoffset := None |})
    as (sorted & Hrank & Hperm & _).
  - reflexivity.
  - exists sorted. split; assumption.
Defined.

(** C5 as the specification words it does not hold: the distance given to a
    candidate without a timestamp is not maximal.  Here the candidate
    without a timestamp, discovered second, is ranked first, before a
    candidate whose timestamp parses. *)
Lemma sentinel_is_not_maximal :
  unparsed Scenario.offline Scenario.no_timestamp
  /\ ~ unparsed Scenario.offline Scenario.far_future
  /\ rank Scenario.offline "2023-06-01"
       [Scenario.far_future; Scenario.no_timestamp]
     = Returns [Scenario.no_timestamp; Scenario.far_future]
  /\ ~ (forall target f g,
          fromisoformat Scenario.offline "2023-06-01" = Some target ->
          unparsed Scenario.offline f -> ~ unparsed Scenario.offline g ->
          distance Scenario.offline target g <= distance Scenario.offline target f).
Proof.
  split; [reflexivity|]. split; [discriminate|]. split; [reflexivity|].
  intros H.
  specialize (H {| naive_us := 738671 * US_PER_DAY; utcoffset := None |}
                Scenario.no_timestamp Scenario.far_future eq_refl eq_refl).
  assert (Hp : ~ unparsed Scenario.offline Scenario.far_future) by discriminate.
  specialize (H Hp). vm_compute in H. apply H. reflexivity.
Qed.

End RankingFacts.

(** ** The tile fetch *)

Module AppFacts.
Import App.
Local Open Scope list_scope.

Lemma bands_read_app (a b : list event) :
  bands_read (a ++ b) = (bands_read a + bands_read b)%nat.
Proof. unfold bands_read. now rewrite filter_app, length_app. Qed.


Lemma bands_length (coll : string) :
  List.length (Bands._bands_for_collection coll) = 6%nat.
Proof.
  unfold Bands._bands_for_collection. now destruct (PyStr.startswith _ _).
Qed.

Lemma collect_hrefs_inr (d : list (string * asset)) (bands : list string)
    (acc hrefs : list (option string)) :
  collect_hrefs d bands acc = inr hrefs ->
  List.length hrefs = (List.length acc + List.length bands)%nat
  /\ forallb (has_asset d) bands = true.
Proof.
  revert acc. induction bands as [|b bands IH]; intros acc; cbn [collect_hrefs].
  - intros [= ->]. split; [cbn; lia | reflexivity].
  - cbn [forallb]. assert (Hb : has_asset d b =
        match dict_get d b with Some (Asset _ _) => true | _ => false end)
      by reflexivity.
    rewrite Hb. clear Hb.
    destruct (dict_get d b) as [[|url alts]|]; try discriminate.
    intros H. destruct (IH _ H) as [Hlen Hall]. rewrite Hall.
    rewrite length_app in Hlen. cbn [List.length] in *. split; [lia | reflexivity].
Qed.

Lemma collect_hrefs_inl (d : list (string * asset)) (bands : list string)
    (acc : list (option string)) (b : string) :
  collect_hrefs d bands acc = inl b -> forallb (has_asset d) bands = false.
Proof.
  revert acc. induction bands as [|b' bands IH]; intros acc; cbn [collect_hrefs].
  - discriminate.
  - cbn [forallb]. assert (Hb : has_asset d b' =
        match dict_get d b' with Some (Asset _ _) => true | _ => false end)
      by reflexivity.
    rewrite Hb. clear Hb.
    destruct (dict_get d b') as [[|url alts]|]; try reflexivity.
    intros H. rewrite (IH _ H). reflexivity.
Qed.

Lemma read_bands_spec (w : World) (bearer : option string) (box : bbox)
    (hrefs : list (option string)) (acc : stack) (st : State) (tr : trace)
    (r : flow stack) (st' : State) (tr' : trace) :
  read_bands w bearer box hrefs acc st tr = (r, st', tr') ->
  exists evs,
    tr' = tr ++ evs
    /\ Forall (fun e => is_probe_or_read e = true) evs
    /\ read_bands_post bearer (List.length hrefs) acc st r st' evs.
Proof.
  revert acc tr. induction hrefs as [|href hrefs IH]; intros acc tr;
    cbn [read_bands]; unfold log.
  - intros [= <- <- <-]. exists []. rewrite app_nil_r.
    repeat split; try constructor. cbn. lia.
  - set (p := probe w tr href bearer).
    destruct (unauthorized p) eqn:Hp.
    + intros [= <- <- <-]. exists [EvProbe href bearer p].
      split; [reflexivity|]. split; [repeat constructor|].
      split; [reflexivity|]. exists [], href, p. repeat split; auto.
    + set (tr1 := tr ++ [EvProbe href bearer p]).
      set (rd := read_window w tr1 href bearer box).
      destruct rd as [|data] eqn:Hrd.
      * intros [= <- <- <-]. exists [EvProbe href bearer p; EvRead href bearer box ReadRaised].
        unfold tr1. rewrite <- app_assoc. split; [reflexivity|].
        split; [repeat constructor|]. split; [reflexivity|].
        repeat constructor. exact Hp.
      * intros H. apply IH in H. destruct H as (evs & -> & Hpr & Hpost).
        exists (EvProbe href bearer p :: EvRead href bearer box (ReadOk data) :: evs).
        unfold tr1. rewrite <- !app_assoc. split; [reflexivity|].
        split; [repeat constructor; exact Hpr|].
        destruct r as [acc'|[[]|e]]; cbn [read_bands_post fst] in *;
          try contradiction.
        -- destruct Hpost as (-> & Hnf & Hn & Hlen). split; [reflexivity|].
           split; [repeat constructor; [exact Hp | exact Hnf]|].
           rewrite length_app in Hlen. cbn [List.length] in *.
           split; [|lia].
           change (EvProbe href bearer p :: EvRead href bearer box (ReadOk data) :: evs)
             with ([EvProbe href bearer p; EvRead href bearer box (ReadOk data)] ++ evs).
           rewrite bands_read_app, Hn. reflexivity.
        -- destruct Hpost as (-> & pre & h & p' & -> & Hu & Hnf).
           split; [reflexivity|].
           exists (EvProbe href bearer p :: EvRead href bearer box (ReadOk data) :: pre), h, p'.
           split; [reflexivity|]. split; [exact Hu|].
           repeat constructor; [exact Hp | exact Hnf].
        -- destruct Hpost as (-> & Hnf). split; [reflexivity|].
           repeat constructor; [exact Hp | exact Hnf].
Qed.


Lemma status_only_refl (st : State) : status_only st st.
Proof. unfold status_only. now destruct st. Qed.

Lemma status_only_set (m : string) (st st' : State) :
  status_only st st' -> status_only st (set_fetch_status m st').
Proof. unfold status_only. intros ->. reflexivity. Qed.

Lemma status_only_trans (a b c : State) :
  status_only a b -> status_only b c -> status_only a c.
Proof. unfold status_only. intros -> ->. reflexivity. Qed.

Lemma set_status_after (m : string) (st st' : State) :
  status_only st st' -> set_fetch_status m st' = set_fetch_status m st.
Proof. unfold status_only. intros ->. reflexivity. Qed.

Lemma complete_iff_hrefs (it : feature) :
  complete it =
  match collect_hrefs (assets it) (Bands._bands_for_collection (collection it)) [] with
  | inr _ => true
  | inl _ => false
  end.
Proof.
  unfold complete.
  destruct (collect_hrefs _ _ _) as [b|hrefs] eqn:E.
  - eapply collect_hrefs_inl, E.
  - eapply collect_hrefs_inr, E.
Qed.

Lemma count_complete_cons (it : feature) (items : list feature) :
  count_complete (it :: items)
  = ((if complete it then 1 else 0) + count_complete items)%nat.
Proof. unfold count_complete. cbn [filter]. now destruct (complete it). Qed.

Lemma extract_spec (w : World) (bearer : option string) (box : bbox)
    (items : list feature) (acc : stack) (st : State) (tr : trace)
    (r : flow stack) (st' : State) (tr' : trace) :
  extract w bearer box items acc st tr = (r, st', tr') ->
  exists evs,
    tr' = tr ++ evs
    /\ Forall (fun e => is_probe_or_read e = true) evs
    /\ extract_post bearer items acc st r st' evs.
Proof.
  revert acc st tr. unfold extract_post.
  induction items as [|it items IH]; intros acc st tr; cbn [extract].
  - intros [= <- <- <-]. exists []. rewrite app_nil_r.
    split; [reflexivity|]. split; [constructor|].
    split; [apply status_only_refl|]. repeat split; [constructor|cbn; lia].
  - rewrite count_complete_cons, complete_iff_hrefs.
    destruct (collect_hrefs _ _ _) as [b|hrefs] eqn:Hc.
    + intros H. apply IH in H. destruct H as (evs & -> & Hpr & Hso & Hpost).
      exists evs. split; [reflexivity|]. split; [exact Hpr|]. split.
      * eapply status_only_trans; [|exact Hso].
        apply status_only_set, status_only_refl.
      * destruct r as [acc'|[[]|e]]; cbn [fst] in *; auto.
    + apply collect_hrefs_inr in Hc. destruct Hc as [Hlen _].
      rewrite bands_length in Hlen. cbn [List.length] in Hlen.
      destruct hrefs as [|h hrefs]; [discriminate Hlen|].
      destruct (read_bands w bearer box (h :: hrefs) acc st tr)
        as [[r1 st1] tr1] eqn:Hrb.
      apply read_bands_spec in Hrb. destruct Hrb as (ev1 & -> & Hpr1 & Hpost1).
      rewrite Hlen in Hpost1. cbn [Nat.add] in Hpost1.
      destruct r1 as [acc1|o1].
      * cbn [read_bands_post] in Hpost1.
        destruct Hpost1 as (-> & Hnf1 & Hn1 & Hl1).
        intros H. apply IH in H. destruct H as (ev2 & -> & Hpr2 & Hso & Hpost).
        exists (ev1 ++ ev2). rewrite app_assoc. split; [reflexivity|].
        split; [apply Forall_app; auto|]. split; [exact Hso|].
        destruct r as [acc'|[[]|e]]; cbn [fst] in *; auto.
        -- destruct Hpost as (Hnf2 & Hn2 & Hl2).
           split; [apply Forall_app; auto|]. rewrite bands_read_app. lia.
        -- destruct Hpost as (Hst & pre & h' & p & -> & Hu & Hnf2).
           split; [exact Hst|]. exists (ev1 ++ pre), h', p.
           rewrite app_assoc. repeat split; auto. apply Forall_app; auto.
        -- apply Forall_app; auto.
      * intros [= <- <- <-]. exists ev1. split; [reflexivity|].
        split; [exact Hpr1|].
        destruct o1 as [[]|e]; cbn [read_bands_post] in Hpost1;
          try contradiction.
        -- destruct Hpost1 as (-> & pre & h' & p & -> & Hu & Hnf).
           split; [apply status_only_set, status_only_refl|].
           split; [reflexivity|]. exists pre, h', p. auto.
        -- destruct Hpost1 as (-> & Hnf).
           split; [apply status_only_refl | exact Hnf].
Qed.


Lemma locate_spec (w : World) (st : State) (tr : trace) (lat lon : option Q)
    (st1 : State) (tr1 : trace) :
  locate w st tr = (lat, lon, st1, tr1) ->
  exists evs,
    tr1 = tr ++ evs
    /\ Forall (fun e => is_geocode e = true) evs
    /\ locate_post w st lat lon st1 evs.
Proof.
  unfold locate, locate_post.
  destruct ((is_none _ || is_none _) && PyStr.truthy _).
  - unfold _geocode_address, log.
    set (a := geocode_get w tr _).
    set (q := PyStr.strip (input_address st)).
    assert (Hfail : forall la lo st2 tr2,
      (la, lo, st2, tr2)
      = (_safe_float w (input_lat st), _safe_float w (input_lon st),
         set_fetch_status MSG_GEOCODING st, tr ++ [EvGeocode q a]) ->
      (la, lo, st2, tr2) = (lat, lon, st1, tr1) ->
      exists evs, tr1 = tr ++ evs
        /\ Forall (fun e => is_geocode e = true) evs
        /\ exists a0, evs = [EvGeocode q a0]
             /\ ((exists la lo, lat = Some la /\ lon = Some lo
                   /\ st1 = set_input_lon (PyStr.format_f 6 lo)
                        (set_input_lat (PyStr.format_f 6 la)
                           (set_fetch_status MSG_GEOCODING st)))
                 \/ (lat = _safe_float w (input_lat st)
                     /\ lon = _safe_float w (input_lon st)
                     /\ st1 = set_fetch_status MSG_GEOCODING st))).
    { intros la lo st2 tr2 -> [= <- <- <- <-]. eexists. split; [reflexivity|].
      split; [repeat constructor|]. eexists. split; [reflexivity|]. right. auto. }
    destruct a as [|[|[sla slo] hits]]; try (apply Hfail; reflexivity).
    destruct (py_float w sla) as [la|]; [|apply Hfail; reflexivity].
    destruct (py_float w slo) as [lo|]; [|apply Hfail; reflexivity].
    intros [= <- <- <- <-]. eexists. split; [reflexivity|].
    split; [repeat constructor|]. eexists. split; [reflexivity|].
    left. exists la, lo. auto.
  - intros [= <- <- <- <-]. exists []. rewrite app_nil_r.
    repeat split; constructor.
Qed.

Lemma items_loop_trace (w : World) (box : bbox) (limit : Z) (iv : interval)
    (colls : list string) (feats : list feature) (tr : trace)
    (o : option (list feature)) (tr' : trace) :
  Search.items_loop w box limit iv colls feats tr = (o, tr') ->
  exists evs, tr' = tr ++ evs /\ Forall (fun e => Search.stage e = 3%nat) evs.
Proof.
  revert feats tr. induction colls as [|c colls IH]; intros feats tr;
    cbn [Search.items_loop]; unfold log.
  - intros [= <- <-]. exists []. rewrite app_nil_r. split; [reflexivity|constructor].
  - destruct (collection_items w tr c box limit iv) as [|fs] eqn:E.
    + intros [= <- <-]. eexists. split; [reflexivity|]. repeat constructor.
    + intros H. apply IH in H. destruct H as (evs & -> & Hs).
      eexists. rewrite <- app_assoc. split; [reflexivity|].
      constructor; [reflexivity | exact Hs].
Qed.

Lemma granule_fallback_trace (w : World) (box : bbox) (limit : Z)
    (iv : interval) (tr : trace) (feats : list feature) (tr' : trace) :
  Search.granule_fallback w box limit iv tr = (feats, tr') ->
  exists a, tr' = tr ++ [EvGranules box iv a].
Proof.
  unfold Search.granule_fallback, log.
  destruct (granules w tr box iv) as [|[|g gs]]; intros [= <- <-]; eauto.
Qed.

Lemma search_trace (w : World) (lat lon : Q) (dt : string) (limit : Z)
    (tr : trace) (r : result (list feature)) (tr' : trace) :
  Search._search_hls_items w lat lon dt limit tr = (r, tr') ->
  exists evs,
    tr' = tr ++ evs
    /\ Forall (fun e => is_search e = true) evs
    /\ Forall (at_point lat lon) evs
    /\ (forall iv, Search.search_window w dt tr = Returns iv ->
          (start_date iv <= end_date iv)%Z ->
          exists a rest, evs = EvSearchPoint lon lat limit iv a :: rest).
Proof.
  unfold Search._search_hls_items.
  destruct (Search.search_window w dt tr) as [iv|e].
  2:{ intros [= <- <-]. exists []. rewrite app_nil_r.
      repeat split; try constructor. discriminate. }
  destruct (Z.gtb_spec (start_date iv) (end_date iv)) as [Hgt|Hle].
  { intros [= <- <-]. exists []. rewrite app_nil_r.
    repeat split; try constructor. intros iv' [= <-] H. lia. }
  unfold log.
  set (e1 := EvSearchPoint lon lat limit iv _).
  assert (Hhead : forall rest iv', Returns iv = Returns iv' ->
            (start_date iv' <= end_date iv')%Z ->
            exists a rest', e1 :: rest = EvSearchPoint lon lat limit iv' a :: rest').
  { intros rest iv' [= <-] _. eexists _, _. reflexivity. }
  destruct (Search.found _) as [f1|].
  { intros [= <- <-]. exists [e1]. repeat split; auto; repeat constructor. }
  set (e2 := EvSearchBBox _ limit iv _).
  destruct (Search.found _) as [f2|].
  { intros [= <- <-]. exists [e1; e2]. rewrite <- app_assoc.
    repeat split; auto; repeat constructor. }
  destruct (Search.items_loop _ _ _ _ _ _ _) as [o3 tr3] eqn:H3.
  apply items_loop_trace in H3. destruct H3 as (ev3 & -> & Hs3).
  assert (Hs3' : Forall (fun e => is_search e = true) ev3).
  { eapply Forall_impl; [|exact Hs3]. intros e He. unfold is_search. now rewrite He. }
  assert (Hp3 : Forall (at_point lat lon) ev3).
  { eapply Forall_impl; [|exact Hs3]. intros [] He; try exact I. discriminate He. }
  destruct o3 as [f3|].
  { intros [= <- <-]. exists (e1 :: e2 :: ev3). rewrite <- !app_assoc.
    repeat split; auto; repeat constructor; auto. }
  destruct (Search.granule_fallback _ _ _ _ _) as [f4 tr4] eqn:H4.
  apply granule_fallback_trace in H4. destruct H4 as (a4 & ->).
  intros [= <- <-].
  exists (e1 :: e2 :: ev3
          ++ [EvGranules (Geo.bbox_around (Q2R lat) (Q2R lon) 200) iv a4]).
  rewrite <- !app_assoc. split; [reflexivity|].
  split; [repeat constructor; apply Forall_app; split; auto; repeat constructor|].
  split; [repeat constructor; apply Forall_app; split; auto; repeat constructor|].
  auto.
Qed.


Lemma build_preview_trace (w : World) (out_png : string) (arrays : list band)
    (tr : trace) (png : string) (tr' : trace) :
  build_preview w out_png arrays tr = (png, tr') ->
  exists evs, tr' = tr ++ evs /\ Forall (fun e => is_fs e = true) evs.
Proof.
  unfold build_preview, log.
  assert (Hnone : forall s, (s, tr) = (png, tr') ->
            exists evs, tr' = tr ++ evs /\ Forall (fun e => is_fs e = true) evs).
  { intros s [= <- <-]. exists []. rewrite app_nil_r. split; [reflexivity|constructor]. }
  destruct (rev _) as [|r [|g [|b [|x l]]]]; try apply Hnone.
  destruct (same_shape r g && same_shape r b); [|apply Hnone].
  destruct (Preview._stretch (pixels r)); [|apply Hnone].
  destruct (Preview._stretch (pixels g)); [|apply Hnone].
  destruct (Preview._stretch (pixels b)); [|apply Hnone].
  intros [= <- <-]. eexists. split; [reflexivity|]. repeat constructor.
Qed.

Lemma finish_spec (w : World) (lat lon : Q) (acc : stack) (st : State)
    (tr : trace) (o : outcome) (st' : State) (tr' : trace) :
  finish w lat lon acc st tr = (o, st', tr') ->
  exists evs,
    tr' = tr ++ evs
    /\ Forall (fun e => is_fs e = true) evs
    /\ finish_post acc st o st' evs.
Proof.
  unfold finish, log.
  destruct (Nat.eqb_spec (List.length (fst acc)) 18) as [H18|H18]; cbn [negb].
  2:{ intros [= <- <- <-]. exists []. rewrite app_nil_r.
      split; [reflexivity|]. split; [constructor|]. cbn. auto. }
  destruct (makedirs w tr _) eqn:Hmk; cbn [negb].
  2:{ intros [= <- <- <-]. eexists. split; [reflexivity|].
      split; [repeat constructor|]. cbn. repeat split; auto.
      eexists. left. reflexivity. }
  destruct (write_tif w _ _ _ _) eqn:Hwr; cbn [negb].
  2:{ intros [= <- <- <-]. eexists. rewrite <- app_assoc. split; [reflexivity|].
      split; [repeat constructor|]. cbn. repeat split; auto.
      eexists. right. eexists. reflexivity. }
  destruct (build_preview _ _ _ _) as [png tr3] eqn:Hp.
  apply build_preview_trace in Hp. destruct Hp as (ev3 & -> & Hfs).
  intros [= <- <- <-]. eexists. rewrite <- !app_assoc. split; [reflexivity|].
  split; [repeat constructor; exact Hfs|].
  cbn. split; [exact H18|]. eexists _, _, _, _. split; [reflexivity|].
  split; [exact Hfs | reflexivity].
Qed.

Lemma rank_length (w : World) (date_str : string) (items ranked : list feature) :
  Ranking.rank w date_str items = Returns ranked -> (List.length ranked <= 3)%nat.
Proof.
  unfold Ranking.rank. destruct (fromisoformat w date_str); [|discriminate].
  destruct (Ranking.sort_by _ _) as [sorted|]; [|discriminate].
  intros [= <-]. destruct sorted as [|? [|? [|? ?]]]; cbn; lia.
Qed.


Lemma set_final_after (m a b : string) (st st' : State) :
  status_only st st' ->
  set_fetch_status m (set_tile_path a (set_preview_png b st'))
  = set_fetch_status m (set_tile_path a (set_preview_png b st)).
Proof. unfold status_only. intros ->. reflexivity. Qed.




(** Every run of [fetch_tile] has the shape [run_post]. *)
Lemma fetch_tile_run (w : World) (st : State) (tr : trace) (o : outcome)
    (st' : State) (tr' : trace) :
  fetch_tile w st tr = (o, st', tr') ->
  exists evs, tr' = tr ++ evs /\ run_post w st tr o st' evs.
Proof.
  unfold fetch_tile, run_post.
  destruct (locate w (set_fetch_status MSG_START st) tr)
    as [[[lat lon] st1] tr1] eqn:Hloc.
  destruct (locate_spec _ _ _ _ _ _ _ Hloc) as (ev_loc & -> & Hgeo & _).
  assert (Hnoloc : lat = None \/ lon = None ->
    (Returned AtNoLocation, set_fetch_status MSG_NO_LOCATION st1, tr ++ ev_loc)
    = (o, st', tr') ->
    exists evs, tr' = tr ++ evs /\
      exists lat0 lon0 st2 l1 l2 l3 l4,
        (lat, lon, st1, tr ++ ev_loc) = (lat0, lon0, st2, tr ++ l1)
        /\ evs = l1 ++ l2 ++ l3 ++ l4
        /\ Forall (fun e => is_geocode e = true) l1
        /\ Forall (fun e => is_search e = true) l2
        /\ Forall (fun e => is_probe_or_read e = true) l3
        /\ Forall (fun e => is_fs e = true) l4
        /\ (forall la lo, lat0 = Some la -> lon0 = Some lo ->
            exists r, Search._search_hls_items w la lo (date_str st2) 20 (tr ++ l1)
                      = (r, tr ++ l1 ++ l2))
        /\ (o = Returned AtNoLocation
            \/ exists la lo, lat0 = Some la /\ lon0 = Some lo)
        /\ match o with
           | Returned AtNoLocation =>
               (lat0 = None \/ lon0 = None) /\ l2 = [] /\ l3 = [] /\ l4 = []
               /\ st' = set_fetch_status MSG_NO_LOCATION st2
           | _ => False
           end).
  { intros Hnone [= <- <- <-]. exists ev_loc. split; [reflexivity|].
    exists lat, lon, st1, ev_loc, [], [], []. rewrite !app_nil_r.
    repeat split; auto. intros la lo -> ->. destruct Hnone; discriminate. }
  destruct lat as [la|]; [destruct lon as [lo|]|].
  2:{ intros H. destruct (Hnoloc (or_intror eq_refl) H) as (evs & He & HH).
      exists evs. split; [exact He|]. destruct HH as (a&b&c&d&e&f&g&HH).
      exists a, b, c, d, e, f, g. destruct o as [[]|]; tauto. }
  2:{ intros H. destruct (Hnoloc (or_introl eq_refl) H) as (evs & He & HH).
      exists evs. split; [exact He|]. destruct HH as (a&b&c&d&e&f&g&HH).
      exists a, b, c, d, e, f, g. destruct o as [[]|]; tauto. }
  clear Hnoloc.
  destruct (Search._search_hls_items w la lo (date_str st1) 20 (tr ++ ev_loc))
    as [r tr2] eqn:Hs.
  destruct (search_trace _ _ _ _ _ _ _ _ Hs) as (ev_s & -> & Hsearch & _).
  rewrite <- app_assoc in Hs.
  assert (Hsrch : forall la0 lo0, Some la = Some la0 -> Some lo = Some lo0 ->
            exists r0, Search._search_hls_items w la0 lo0 (date_str st1) 20 (tr ++ ev_loc)
                       = (r0, tr ++ ev_loc ++ ev_s)).
  { intros ? ? [= <-] [= <-]. eauto. }
  assert (Hboth : forall o0 : outcome, o0 = Returned AtNoLocation
            \/ exists la0 lo0, Some la = Some la0 /\ Some lo = Some lo0)
    by (right; eauto).
  destruct r as [items|e].
  2:{ intros [= <- <- <-]. exists (ev_loc ++ ev_s). rewrite app_assoc.
      split; [reflexivity|]. exists (Some la), (Some lo), st1, ev_loc, ev_s, [], [].
      rewrite !app_nil_r. repeat split; auto using status_only_refl. }
  destruct items as [|it items].
  { intros [= <- <- <-]. exists (ev_loc ++ ev_s). rewrite app_assoc.
    split; [reflexivity|]. exists (Some la), (Some lo), st1, ev_loc, ev_s, [], [].
    rewrite !app_nil_r. repeat split; auto. }
  destruct (Ranking.rank w (date_str st1) (it :: items)) as [ranked|e] eqn:Hrank.
  2:{ intros [= <- <- <-]. exists (ev_loc ++ ev_s). rewrite app_assoc.
      split; [reflexivity|]. exists (Some la), (Some lo), st1, ev_loc, ev_s, [], [].
      rewrite !app_nil_r. repeat split; auto using status_only_refl. }
  apply rank_length in Hrank.
  destruct (raster_backend w); cbn [negb].
  2:{ intros [= <- <- <-]. exists (ev_loc ++ ev_s). rewrite app_assoc.
      split; [reflexivity|]. exists (Some la), (Some lo), st1, ev_loc, ev_s, [], [].
      rewrite !app_nil_r. repeat split; auto. }
  set (bearer := if PyStr.truthy _ then Some _ else None).
  set (st0 := if PyStr.truthy _ then st1 else _).
  assert (Hst0 : status_only st1 st0).
  { unfold st0. destruct (PyStr.truthy _);
      [apply status_only_refl | apply status_only_set, status_only_refl]. }
  destruct (extract w bearer _ ranked ([], None) st0 _) as [[r3 st3] tr3] eqn:Hex.
  destruct (extract_spec _ _ _ _ _ _ _ _ _ _ Hex) as (ev_x & -> & Hpr & Hso & Hpost).
  pose proof (status_only_trans _ _ _ Hst0 Hso) as Hst3.
  destruct r3 as [acc|o3].
  2:{ intros [= <- <- <-]. exists (ev_loc ++ ev_s ++ ev_x). rewrite !app_assoc.
      split; [reflexivity|].
      exists (Some la), (Some lo), st1, ev_loc, ev_s, ev_x, [].
      rewrite !app_nil_r, <- !app_assoc. repeat split; auto.
      destruct o3 as [[]|e]; try contradiction.
      - destruct Hpost as (Hmsg & pre & h & p & -> & Hu & Hnf).
        split; [reflexivity|]. split.
        + rewrite <- Hmsg. exact Hst3.
        + exists pre, h, bearer, p. auto.
      - repeat split; auto. }
  cbn [fst List.length Nat.add] in Hpost. destruct Hpost as (Hnf & Hn & Hlen).
  destruct (finish w la lo acc st3 _) as [[o4 st4] tr4] eqn:Hfin.
  destruct (finish_spec _ _ _ _ _ _ _ _ _ Hfin) as (ev_f & -> & Hfs & Hfp).
  intros [= <- <- <-]. exists (ev_loc ++ ev_s ++ ev_x ++ ev_f). rewrite !app_assoc.
  split; [reflexivity|].
  exists (Some la), (Some lo), st1, ev_loc, ev_s, ev_x, ev_f.
  rewrite <- !app_assoc. repeat split; auto.
  destruct o4 as [[]|e]; cbn [finish_post] in Hfp; try contradiction.
  - destruct Hfp as (H18 & -> & ->). rewrite Hlen, <- Hn in *.
    repeat split; auto.
    + exists ranked. split; [exact Hrank | exact Hn].
    + apply set_status_after, Hst3.
  - destruct Hfp as (H18 & dir & path & png & rest & -> & Hrest & ->).
    split; [exact Hnf|]. split; [lia|].
    exists dir, path, (snd acc), (fst acc), png, rest.
    split; [reflexivity|]. split; [exact H18|]. apply set_final_after, Hst3.
  - destruct Hfp as (H18 & -> & dir & Hev).
    split; [exact Hnf|]. split; [exact Hst3|]. split.
    + destruct Hev as [->|(path & ->)]; repeat constructor.
    + right. lia.
Qed.


Lemma app_split_skip {A : Type} (P : A -> bool) (l1 l2 pre post : list A) (e : A) :
  l1 ++ l2 = pre ++ e :: post ->
  Forall (fun x => P x = false) l1 -> P e = true ->
  exists pre2, pre = l1 ++ pre2 /\ l2 = pre2 ++ e :: post.
Proof.
  revert pre. induction l1 as [|x l1 IH]; intros pre Heq Hall He.
  - exists pre. auto.
  - inversion Hall as [|? ? Hx Hl1]; subst. destruct pre as [|y pre].
    + cbn in Heq. injection Heq as -> _. congruence.
    + cbn in Heq. injection Heq as -> Heq.
      destruct (IH pre Heq Hl1 He) as (pre2 & -> & ->). exists pre2. auto.
Qed.

Lemma Forall_flip (P Q : event -> bool) (evs : list event) :
  (forall e, P e = true -> Q e = false) ->
  Forall (fun e => P e = true) evs -> Forall (fun e => Q e = false) evs.
Proof. intros H. apply Forall_impl. exact H. Qed.

Lemma locate_frame (w : World) (st : State) (tr : trace) (lat lon : option Q)
    (st1 : State) (tr1 : trace) :
  locate w st tr = (lat, lon, st1, tr1) ->
  untouched st st1 /\ outputs_kept st st1.
Proof.
  intros H. apply locate_spec in H. destruct H as (evs & _ & _ & Hpost).
  unfold locate_post in Hpost.
  destruct ((is_none _ || is_none _) && PyStr.truthy _).
  - destruct Hpost as (a & _ & [(la & lo & _ & _ & ->)|(_ & _ & ->)]);
      split; repeat split.
  - destruct Hpost as (_ & _ & _ & ->). split; repeat split.
Qed.

Lemma frame_after_status (m : string) (st st1 : State) :
  untouched (set_fetch_status MSG_START st) st1
  /\ outputs_kept (set_fetch_status MSG_START st) st1 ->
  untouched st (set_fetch_status m st1)
  /\ outputs_kept st (set_fetch_status m st1).
Proof. intros [Hu Ho]. split; [exact Hu | exact Ho]. Qed.

Lemma frame_status_only (st st1 st' : State) :
  untouched (set_fetch_status MSG_START st) st1
  /\ outputs_kept (set_fetch_status MSG_START st) st1 ->
  status_only st1 st' ->
  untouched st st' /\ outputs_kept st st'.
Proof. intros H ->. apply frame_after_status, H. Qed.

(** C4. In any run of [fetch_tile], a preflight answered 401 or 403 is the
    last interaction of the run: the call returns at once from the
    unauthorized exit with the unauthorized status, nothing was written to
    the file system before it, no earlier preflight had been refused, and
    the two output fields are as they were. *)
Theorem unauthorized_preflight_aborts (w : World) (st : State) (tr : trace)
    (o : outcome) (st' : State) (tr' : trace)
    (pre post : list event) (h b : option string) (c : Z) :
  fetch_tile w st tr = (o, st', tr') ->
  tr' = tr ++ pre ++ EvProbe h b (ProbeStatus c) :: post ->
  (c = 401 \/ c = 403)%Z ->
  o = Returned AtUnauthorized
  /\ post = []
  /\ fetch_status st' = MSG_UNAUTHORIZED
  /\ Forall (fun e => is_fs e = false) pre
  /\ Forall not_fatal pre
  /\ outputs_kept st st'.
Proof.
  intros Hrun Htr Hc.
  destruct (fetch_tile_run _ _ _ _ _ _ Hrun) as (evs & -> & Hpost).
  apply app_inv_head in Htr. subst evs.
  assert (Hfatal : is_fatal (EvProbe h b (ProbeStatus c)) = true).
  { cbn. destruct Hc as [-> | ->]; reflexivity. }
  destruct Hpost as (lat & lon & st1 & l1 & l2 & l3 & l4 & Hloc & Hevs & Hg & Hs
                     & Hx & Hf & _ & _ & Ho).
  apply locate_frame in Hloc.
  assert (Hg' : Forall not_fatal l1) by (eapply Forall_flip; [|exact Hg]; now intros []).
  assert (Hs' : Forall not_fatal l2) by (eapply Forall_flip; [|exact Hs]; now intros []).
  assert (Hf' : Forall not_fatal l4) by (eapply Forall_flip; [|exact Hf]; now intros []).
  assert (Hgf : Forall (fun e => is_fs e = false) l1)
    by (eapply Forall_flip; [|exact Hg]; now intros []).
  assert (Hsf : Forall (fun e => is_fs e = false) l2)
    by (eapply Forall_flip; [|exact Hs]; now intros []).
  assert (Hxf : Forall (fun e => is_fs e = false) l3)
    by (eapply Forall_flip; [|exact Hx]; now intros []).
  assert (Habsurd : Forall not_fatal (l1 ++ l2 ++ l3 ++ l4) -> False).
  { intros Hall. rewrite <- Hevs in Hall. apply Forall_app in Hall.
    destruct Hall as [_ Hall]. inversion Hall as [|? ? He _]; subst.
    unfold not_fatal in He. congruence. }
  destruct o as [[]|e].
  - exfalso. destruct Ho as (_ & -> & -> & -> & _). rewrite app_nil_r in Habsurd.
    apply Habsurd, Hg'.
  - exfalso. destruct Ho as (-> & -> & _). apply Habsurd.
    rewrite !Forall_app. auto.
  - exfalso. destruct Ho as (-> & -> & _). apply Habsurd.
    rewrite !Forall_app. auto.
  - destruct Ho as (-> & -> & p0 & h0 & b0 & p & -> & Hu & Hnf).
    rewrite app_nil_r in Hevs.
    assert (Hevs' : (l1 ++ l2 ++ p0) ++ [EvProbe h0 b0 p]
                    = pre ++ EvProbe h b (ProbeStatus c) :: post).
    { rewrite Hevs, <- !app_assoc. reflexivity. }
    destruct (app_split_skip is_fatal _ _ _ _ _ Hevs') as (pre2 & -> & Hlast).
    { rewrite !Forall_app. auto. }
    { exact Hfatal. }
    destruct pre2 as [|x [|y pre2]]; try discriminate Hlast.
    injection Hlast as _ <-. rewrite app_nil_r.
    apply Forall_app in Hxf. destruct Hxf as [Hxf _].
    repeat split; try reflexivity; rewrite ?Forall_app; auto;
      apply (frame_after_status _ _ _ Hloc).
  - exfalso. destruct Ho as (-> & Hnf & _). apply Habsurd.
    rewrite app_nil_r, !Forall_app. auto.
  - exfalso. destruct Ho as (Hnf & _). apply Habsurd.
    rewrite !Forall_app. auto.
  - exfalso. destruct Ho as (Hnf & _). apply Habsurd.
    rewrite !Forall_app. auto.
Qed.


Lemma triple_eta {A B C : Type} (x : A * B * C) :
  x = (fst (fst x), snd (fst x), snd x).
Proof. now destruct x as [[a b] c]. Qed.

Lemma unauthorized_preflight_aborts_witness :
  fst (fst (fetch_tile Scenario.denied Scenario.paris_form []))
  = Returned AtUnauthorized
  /\ fetch_status (snd (fst (fetch_tile Scenario.denied Scenario.paris_form [])))
     = MSG_UNAUTHORIZED
  /\ outputs_kept Scenario.paris_form
       (snd (fst (fetch_tile Scenario.denied Scenario.paris_form []))).
Proof.
  destruct (unauthorized_preflight_aborts Scenario.denied Scenario.paris_form []
              _ _ _
              [EvSearchPoint Scenario.PARIS_LON Scenario.PARIS_LAT 20
                 Scenario.june_window (HttpJson [Scenario.s30_scene])]
              []
              (Some "https://data.lpdaac.earthdatacloud.nasa.gov/lp-prod-protected/HLS.S30.T31UDQ.2023153T104031.v2.0.B02.tif"%string)
              None 403 (triple_eta _))
    as (Ho & _ & Hst & _ & _ & Hk).
  - vm_compute. reflexivity.
  - right. reflexivity.
  - split; [exact Ho|]. split; [exact Hst | exact Hk].
Defined.


Lemma outcome_eq_dec (a b : outcome) : {a = b} + {a <> b}.
Proof. repeat decide equality. Qed.






(** The typed latitude and longitude change only in a run that begins with
    a geocoding request. *)
Lemma typed_inputs_frame (w : World) (st : State) (tr : trace)
    (o : outcome) (st' : State) (tr' : trace) :
  fetch_tile w st tr = (o, st', tr') ->
  (input_lat st' = input_lat st /\ input_lon st' = input_lon st)
  \/ exists q a rest, tr' = tr ++ EvGeocode q a :: rest.
Proof.
  intros Hrun.
  destruct (fetch_tile_run _ _ _ _ _ _ Hrun) as (evs & -> & Hpost).
  destruct Hpost as (lat & lon & st1 & l1 & l2 & l3 & l4 & Hloc & -> & _ & _
                     & _ & _ & _ & _ & Ho).
  destruct (locate_spec _ _ _ _ _ _ _ Hloc) as (l1' & Hl1 & _ & Hlp).
  apply app_inv_head in Hl1. subst l1'.
  unfold locate_post in Hlp.
  destruct ((is_none _ || is_none _) && PyStr.truthy _).
  - destruct Hlp as (a & -> & _). right. eexists _, _, _. reflexivity.
  - destruct Hlp as (_ & _ & _ & ->). left.
    destruct o as [[]|e].
    + destruct Ho as (_ & _ & _ & _ & ->). split; reflexivity.
    + destruct Ho as (_ & _ & ->). split; reflexivity.
    + destruct Ho as (_ & _ & ->). split; reflexivity.
    + destruct Ho as (_ & -> & _). split; reflexivity.
    + destruct Ho as (_ & _ & _ & _ & ->). split; reflexivity.
    + destruct Ho as (_ & _ & dir & path & meta & bands & png & rest & _ & _ & ->).
      split; reflexivity.
    + destruct Ho as (_ & -> & _). split; reflexivity.
Qed.

(** C10. A run of [fetch_tile] never assigns the fields other than
    [fetch_status], [input_lat], [input_lon], [tile_path] and
    [preview_png].  Unless it returns from its final exit, that is on each
    of the five failure returns and also when an exception leaves it, the
    fields [tile_path] and [preview_png] are as they were and no write has
    succeeded; on the five failure returns the file system was not touched
    at all.  The typed latitude and longitude are as they were unless
    the run began with a geocoding request.  At the final exit the run has
    written the GeoTIFF, and [tile_path] is the base name of that file. *)
Theorem failure_leaves_outputs (w : World) (st : State) (tr : trace)
    (o : outcome) (st' : State) (tr' : trace) :
  fetch_tile w st tr = (o, st', tr') ->
  untouched st st'
  /\ (o <> Returned AtEnd -> outputs_kept st st')
  /\ exists evs,
      tr' = tr ++ evs
      /\ (o <> Returned AtEnd -> Forall (fun e => write_ok e = false) evs)
      /\ (forall a, o = Returned a -> a <> AtEnd ->
          Forall (fun e => is_fs e = false) evs)
      /\ ((input_lat st' = input_lat st /\ input_lon st' = input_lon st)
          \/ exists q a rest, evs = EvGeocode q a :: rest)
      /\ (o = Returned AtEnd ->
          exists pre path meta bands post,
            evs = pre ++ EvWriteTif path meta bands true :: post
            /\ tile_path st' = ("/" ++ PyStr.basename path)%string
            /\ fetch_status st' = MSG_READY).
Proof.
  intros Hrun.
  destruct (fetch_tile_run _ _ _ _ _ _ Hrun) as (evs & -> & Hpost).
  destruct Hpost as (lat & lon & st1 & l1 & l2 & l3 & l4 & Hloc & -> & Hg & Hs
                     & Hx & Hf & _ & _ & Ho).
  pose proof (locate_frame _ _ _ _ _ _ _ Hloc) as Hfr.
  destruct (locate_spec _ _ _ _ _ _ _ Hloc) as (l1' & Hl1 & _ & Hlp).
  apply app_inv_head in Hl1. subst l1'.
  assert (Hin : (input_lat st1 = input_lat st /\ input_lon st1 = input_lon st)
                \/ exists q a, l1 = [EvGeocode q a]).
  { unfold locate_post in Hlp.
    destruct ((is_none _ || is_none _) && PyStr.truthy _).
    - destruct Hlp as (a & -> & _). right. eauto.
    - destruct Hlp as (_ & _ & _ & ->). left. split; reflexivity. }
  assert (Hgw : Forall (fun e => write_ok e = false) l1)
    by (eapply Forall_flip; [|exact Hg]; now intros []).
  assert (Hsw : Forall (fun e => write_ok e = false) l2)
    by (eapply Forall_flip; [|exact Hs]; now intros []).
  assert (Hxw : Forall (fun e => write_ok e = false) l3)
    by (eapply Forall_flip; [|exact Hx]; now intros []).
  assert (Hst : (o <> Returned AtEnd -> status_only st1 st' /\ Forall (fun e => write_ok e = false) l4)
                /\ (o = Returned AtEnd ->
                    exists path meta bands png rest dir,
                      l4 = EvMakedirs dir true :: EvWriteTif path meta bands true :: rest
                      /\ st' = set_fetch_status MSG_READY
                                 (set_tile_path ("/" ++ PyStr.basename path)
                                    (set_preview_png png st1)))).
  { destruct o as [[]|e]; (split; [intros Hne|intros Heq; try discriminate Heq]);
      try congruence.
    - destruct Ho as (_ & _ & _ & -> & ->). split; [reflexivity | constructor].
    - destruct Ho as (_ & -> & ->). split; [reflexivity | constructor].
    - destruct Ho as (_ & -> & ->). split; [reflexivity | constructor].
    - destruct Ho as (-> & -> & _). split; [reflexivity | constructor].
    - destruct Ho as (-> & _ & _ & _ & ->). split; [reflexivity | constructor].
    - destruct Ho as (_ & _ & dir & path & meta & bands & png & rest & -> & _ & ->).
      exists path, meta, bands, png, rest, dir. split; reflexivity.
    - destruct Ho as (_ & Hso & Hw & _). split; assumption. }
  destruct Hst as [Hfail Hend].
  assert (Hsame : untouched st1 st'
                  /\ input_lat st' = input_lat st1 /\ input_lon st' = input_lon st1).
  { destruct (outcome_eq_dec o (Returned AtEnd)) as [Heq|Hne].
    - destruct (Hend Heq) as (path & meta & bands & png & rest & dir & _ & ->).
      repeat split.
    - destruct (Hfail Hne) as [-> _]. repeat split. }
  destruct Hsame as (Hu1 & Hla & Hlo). destruct Hfr as [Hu0 Hk0].
  split.
  { unfold untouched in *. cbn in Hu0. intuition congruence. }
  split.
  { intros Hne. destruct (Hfail Hne) as [-> _]. exact Hk0. }
  assert (Hgf : Forall (fun e => is_fs e = false) l1)
    by (eapply Forall_flip; [|exact Hg]; now intros []).
  assert (Hsf : Forall (fun e => is_fs e = false) l2)
    by (eapply Forall_flip; [|exact Hs]; now intros []).
  assert (Hxf : Forall (fun e => is_fs e = false) l3)
    by (eapply Forall_flip; [|exact Hx]; now intros []).
  eexists. split; [reflexivity|]. split; [|split; [|split]].
  - intros Hne. destruct (Hfail Hne) as [_ Hw]. rewrite !Forall_app. auto.
  - intros a -> Ha. rewrite !Forall_app.
    assert (Hnil : l4 = []).
    { destruct a; try contradiction.
      - now destruct Ho as (_ & _ & _ & -> & _).
      - now destruct Ho as (_ & -> & _).
      - now destruct Ho as (_ & -> & _).
      - now destruct Ho as (-> & _).
      - now destruct Ho as (-> & _). }
    rewrite Hnil. auto.
  - destruct Hin as [[H1 H2]|(q & a & ->)].
    + left. split; congruence.
    + right. eexists _, _, _. reflexivity.
  - intros Heq. destruct (Hend Heq) as (path & meta & bands & png & rest & dir & -> & ->).
    exists (l1 ++ l2 ++ l3 ++ [EvMakedirs dir true]), path, meta, bands, rest.
    rewrite <- !app_assoc. repeat split.
Qed.

Lemma failure_leaves_outputs_witness :
  outputs_kept Scenario.paris_form
    (snd (fst (fetch_tile Scenario.one_partial Scenario.paris_form [])))
  /\ untouched Scenario.paris_form
       (snd (fst (fetch_tile Scenario.one_partial Scenario.paris_form []))).
Proof.
  destruct (failure_leaves_outputs Scenario.one_partial Scenario.paris_form []
              _ _ _ (triple_eta _)) as (Hu & Hk & _).
  split; [|exact Hu]. apply Hk.
  assert (Ho : fst (fst (fetch_tile Scenario.one_partial Scenario.paris_form []))
               = Returned AtIncomplete) by (vm_compute; reflexivity).
  rewrite Ho. discriminate.
Defined.


Lemma safe_float_spec (w : World) (s : string) (x : Q) :
  _safe_float w s = Some x <-> (s <> ""%string /\ py_float w s = Some x).
Proof.
  unfold _safe_float. destruct s as [|c s]; cbn [PyStr.truthy].
  - split; [discriminate | intros [H _]; congruence].
  - split; [intros H; split; [discriminate | exact H] | tauto].
Qed.

(** C9, as the code has it. A typed text is accepted exactly when it is
    not empty and [float] parses it.  When both typed texts are accepted,
    the run does not end at the no-location exit, asks no geocoder, leaves
    the two texts as they are, and searches at exactly that latitude and
    longitude, whatever their values: the point request that opens the
    search of a window that is not inverted carries them.  When one of
    them is not accepted, either the run starts with a geocoding request or
    it ends at the no-location exit without any search. *)
Theorem typed_coordinate_used_as_is (w : World) (st : State) (tr : trace)
    (o : outcome) (st' : State) (tr' : trace) :
  fetch_tile w st tr = (o, st', tr') ->
  (forall s x,
      _safe_float w s = Some x <-> (s <> ""%string /\ py_float w s = Some x))
  /\ exists evs,
      tr' = tr ++ evs
      /\ (forall lat lon,
            _safe_float w (input_lat st) = Some lat ->
            _safe_float w (input_lon st) = Some lon ->
            o <> Returned AtNoLocation
            /\ Forall (fun e => is_geocode e = false) evs
            /\ Forall (at_point lat lon) evs
            /\ input_lat st' = input_lat st
            /\ input_lon st' = input_lon st
            /\ (forall iv,
                  Search.search_window w (date_str st) tr = Returns iv ->
                  (start_date iv <= end_date iv)%Z ->
                  exists a rest, evs = EvSearchPoint lon lat 20 iv a :: rest))
      /\ (_safe_float w (input_lat st) = None
          \/ _safe_float w (input_lon st) = None ->
          (o = Returned AtNoLocation
           /\ Forall (fun e => is_search e = false) evs)
          \/ exists q a rest, evs = EvGeocode q a :: rest).
Proof.
  intros Hrun. split; [apply safe_float_spec|].
  pose proof (typed_inputs_frame _ _ _ _ _ _ Hrun) as Hin.
  destruct (fetch_tile_run _ _ _ _ _ _ Hrun) as (evs & -> & Hpost).
  exists evs. split; [reflexivity|].
  assert (Hin' : (input_lat st' = input_lat st /\ input_lon st' = input_lon st)
                 \/ exists q a rest, evs = EvGeocode q a :: rest).
  { destruct Hin as [H|(q & a & rest & H)]; [left; exact H|right].
    apply app_inv_head in H. eauto. }
  clear Hin. rename Hin' into Hin.
  destruct Hpost as (lat & lon & st1 & l1 & l2 & l3 & l4 & Hloc & -> & Hg & Hs
                     & Hx & Hf & Hsearch & Hboth & Ho).
  destruct (locate_spec _ _ _ _ _ _ _ Hloc) as (l1' & Hl1 & _ & Hlp).
  apply app_inv_head in Hl1. subst l1'.
  unfold locate_post in Hlp. cbn [input_lat input_lon input_address set_fetch_status] in Hlp.
  split.
  - intros la lo Hla Hlo. rewrite Hla, Hlo in Hlp. cbn [is_none orb andb] in Hlp.
    destruct Hlp as (-> & -> & -> & ->).
    destruct (Hsearch la lo eq_refl eq_refl) as (r & Hsr).
    cbn [app] in *. rewrite app_nil_r in Hsr.
    destruct (search_trace _ _ _ _ _ _ _ _ Hsr) as (l2' & Hl2 & _ & Hpt & Hhead).
    apply app_inv_head in Hl2. subst l2'.
    split.
    { destruct o as [[]|e]; try discriminate.
      destruct Ho as ([H|H] & _); discriminate H. }
    split.
    { rewrite !Forall_app. repeat split.
      - eapply Forall_flip; [|exact Hs]; now intros [].
      - eapply Forall_flip; [|exact Hx]; now intros [].
      - eapply Forall_flip; [|exact Hf]; now intros []. }
    split.
    { rewrite !Forall_app. repeat split; [exact Hpt | |].
      - eapply Forall_impl; [|exact Hx]. now intros [].
      - eapply Forall_impl; [|exact Hf]. now intros []. }
    destruct Hin as [[H1 H2]|(q & a & rest & Hq)].
    2:{ exfalso. eapply Forall_flip in Hs; [|intros e He; instantiate (1 := is_geocode);
          destruct e; try reflexivity; discriminate He].
        destruct l2 as [|e2 l2]; cbn [app] in Hq.
        - eapply Forall_flip in Hx; [|intros e He; instantiate (1 := is_geocode);
            destruct e; try reflexivity; discriminate He].
          destruct l3 as [|e3 l3]; cbn [app] in Hq.
          + eapply Forall_flip in Hf; [|intros e He; instantiate (1 := is_geocode);
              destruct e; try reflexivity; discriminate He].
            destruct l4; [discriminate Hq|]. injection Hq as -> _.
            inversion Hf; discriminate.
          + injection Hq as -> _. inversion Hx; discriminate.
        - injection Hq as -> _. inversion Hs; discriminate. }
    split; [exact H1|]. split; [exact H2|].
    intros iv Hw Hle. destruct (Hhead iv Hw Hle) as (a & rest & ->).
    eexists _, _. reflexivity.
  - intros Hnone.
    assert (Hc : (is_none (_safe_float w (input_lat st))
                  || is_none (_safe_float w (input_lon st)) = true)%bool).
    { destruct Hnone as [-> | ->]; [reflexivity | apply orb_true_r]. }
    rewrite Hc in Hlp. cbn [andb] in Hlp.
    destruct (PyStr.truthy _).
    + right. destruct Hlp as (a & -> & _). eexists _, _, _. reflexivity.
    + left. destruct Hlp as (-> & -> & -> & _).
      destruct Hboth as [-> | (la & lo & Hla & Hlo)].
      * destruct Ho as (_ & -> & -> & -> & _). split; [reflexivity | constructor].
      * exfalso. destruct Hnone as [H|H]; congruence.
Qed.


Lemma typed_coordinate_used_as_is_witness :
  exists a rest,
    snd (fetch_tile Scenario.offline (Scenario.form "48.8566" "2.3522" "2023-06-01") [])
    = EvSearchPoint Scenario.PARIS_LON Scenario.PARIS_LAT 20 Scenario.june_window a
      :: rest.
Proof.
  destruct (typed_coordinate_used_as_is Scenario.offline
              (Scenario.form "48.8566" "2.3522" "2023-06-01") [] _ _ _
              (triple_eta _)) as (_ & evs & Htr & Htyped & _).
  cbn [app] in Htr. rewrite Htr.
  destruct (Htyped Scenario.PARIS_LAT Scenario.PARIS_LON eq_refl eq_refl)
    as (_ & _ & _ & _ & _ & Hhead).
  apply (Hhead Scenario.june_window); [reflexivity|].
  cbn [start_date end_date Scenario.june_window]. lia.
Defined.

(** C9 as the specification words it does not hold: the typed coordinate
    (123, 500) is outside the range of latitudes and longitudes, and the
    search is made at that point. *)
Lemma out_of_range_coordinate_is_searched :
  (exists a rest,
      snd (fetch_tile Scenario.offline (Scenario.form "123" "500" "2023-06-01") [])
      = EvSearchPoint 500 123 20 Scenario.june_window a :: rest)
  /\ ~ in_wgs84 123 500
  /\ ~ (forall lon lat limit iv a,
          In (EvSearchPoint lon lat limit iv a)
            (snd (fetch_tile Scenario.offline
                    (Scenario.form "123" "500" "2023-06-01") [])) ->
          in_wgs84 lat lon).
Proof.
  assert (Hrun : exists a rest,
      snd (fetch_tile Scenario.offline (Scenario.form "123" "500" "2023-06-01") [])
      = EvSearchPoint 500 123 20 Scenario.june_window a :: rest).
  { eexists _, _. reflexivity. }
  assert (Hout : ~ in_wgs84 123 500).
  { intros [[_ H] _]. revert H. vm_compute. intros H. apply H. reflexivity. }
  split; [exact Hrun|]. split; [exact Hout|].
  intros Hall. destruct Hrun as (a & rest & Hrun). apply Hout.
  apply (Hall 500 123 20%Z Scenario.june_window a). rewrite Hrun. left. reflexivity.
Qed.

End AppFacts.

(** ** More on the spatial buffer *)

Module GeoMore.
Import Geo.
Local Open Scope R_scope.

Lemma floor_range (lat : R) :
  1 / 10 <= Rmax (1 / 10) (cos (radians lat)) <= 1.
Proof.
  split; [apply Rmax_l|].
  apply Rmax_lub; [lra | apply COS_bound].
Qed.

(** X1. For a non-negative radius and any latitude, the latitude
    half-height returned by [_deg_buffer] is not negative and the longitude
    half-width is at least as large; the result does not depend on the sign
    of the latitude; the box built from it contains the point, and lies
    inside the box built around the same point for any larger radius: the
    box of 200 m of the search lies inside the window of 500 m that
    [fetch_tile] reads.  These are order relations only. *)
Theorem deg_buffer_box (lat lon meters wider : R) :
  0 <= meters <= wider ->
  let dlat := fst (_deg_buffer lat meters) in
  let dlon := snd (_deg_buffer lat meters) in
  0 <= dlat <= dlon
  /\ _deg_buffer (- lat) meters = _deg_buffer lat meters
  /\ (let '(west, south, east, north) := bbox_around lat lon meters in
      let '(west', south', east', north') := bbox_around lat lon wider in
      west <= lon <= east /\ south <= lat <= north
      /\ west' <= west /\ south' <= south
      /\ east <= east' /\ north <= north').
Proof.
  intros [Hm Hw]. unfold bbox_around, _deg_buffer. cbn [fst snd].
  destruct (floor_range lat) as [Hlo Hhi].
  set (c := Rmax (1 / 10) (cos (radians lat))) in *.
  assert (Hc : 0 < c) by lra.
  assert (Hinv0 : 0 < / 111320) by (apply Rinv_0_lt_compat; lra).
  assert (Hinvc : 0 < / (111320 * c)) by (apply Rinv_0_lt_compat; nra).
  assert (Hinv1 : / 111320 <= / (111320 * c)).
  { apply Rinv_le_contravar; nra. }
  assert (H0 : 0 <= meters / 111320) by (unfold Rdiv; nra).
  assert (H1 : meters / 111320 <= meters / (111320 * c))
    by (unfold Rdiv; apply Rmult_le_compat_l; assumption).
  assert (H2 : meters / 111320 <= wider / 111320)
    by (unfold Rdiv; apply Rmult_le_compat_r; lra).
  assert (H3 : meters / (111320 * c) <= wider / (111320 * c))
    by (unfold Rdiv; apply Rmult_le_compat_r; lra).
  split; [lra|]. split.
  { unfold radians. replace (- lat * PI / 180) with (- (lat * PI / 180)) by lra.
    now rewrite cos_neg. }
  repeat split; lra.
Qed.

Lemma deg_buffer_box_witness :
  (let '(west, south, east, north) := bbox_around 45 2 200 in
   let '(west', south', east', north') := bbox_around 45 2 500 in
   west' <= west /\ south' <= south /\ east <= east' /\ north <= north').
Proof.
  destruct (deg_buffer_box 45 2 200 500) as (_ & _ & H); [lra|].
  unfold bbox_around in *. cbn [fst snd] in *.
  destruct (_deg_buffer 45 200) as [a b], (_deg_buffer 45 500) as [a' b'].
  destruct H as (_ & _ & H). exact H.
Defined.

End GeoMore.

(** ** The choice of the asset reference *)

Module HrefFacts.
Import App.

Lemma find_https_some (alts : list (option string)) (h : option string) :
  find is_https alts = Some h -> In h alts /\ is_https h = true.
Proof. apply find_some. Qed.

(** X3. [_pick_href] returns an HTTPS reference exactly when the asset has
    one, as its [href] or among its alternates; the [href] is preferred,
    then the first HTTPS alternate; when there is none, the [href] is
    returned as it is, possibly absent. *)
Theorem pick_href_prefers_https (url : option string)
    (alternates : list (option string)) :
  let r := _pick_href (Asset url alternates) in
  (is_https url = true -> r = url)
  /\ (is_https url = false ->
      forall h, find is_https alternates = Some h -> r = h)
  /\ (is_https r = true <->
      is_https url = true \/ exists h, In h alternates /\ is_https h = true)
  /\ (is_https r = false -> r = url).
Proof.
  cbn [_pick_href]. destruct (is_https url) eqn:Hu.
  - split; [reflexivity|]. split; [discriminate|]. split; [|congruence].
    split; [auto | intros _; exact Hu].
  - destruct (find is_https alternates) as [h|] eqn:Hf.
    + destruct (find_https_some _ _ Hf) as [Hin Hh].
      split; [discriminate|]. split; [intros _ h' [= <-]; reflexivity|].
      split; [|congruence].
      split; [intros _; right; eauto | intros _; exact Hh].
    + split; [discriminate|]. split; [discriminate|]. split; [|reflexivity].
      split; [congruence|].
      intros [H|(h & Hin & Hh)]; [discriminate|].
      pose proof (find_none _ _ Hf _ Hin). congruence.
Qed.

End HrefFacts.

(** ** More on the preview stretch *)

Module PreviewMore.
Import Preview.
Local Open Scope Q_scope.

Lemma clip01_range (r : Q) : 0 <= clip01 r <= 1.
Proof.
  unfold clip01. destruct (Qle_bool r 0) eqn:E0; [split; discriminate|].
  destruct (Qle_bool 1 r) eqn:E1; [split; discriminate|].
  split.
  - apply Qlt_le_weak, Qnot_le_lt. intros H. apply Qle_bool_iff in H. congruence.
  - apply Qlt_le_weak, Qnot_le_lt. intros H. apply Qle_bool_iff in H. congruence.
Qed.

Lemma clip01_monotone (r s : Q) : r <= s -> clip01 r <= clip01 s.
Proof.
  intros Hrs. pose proof (clip01_range s) as [Hs0 Hs1].
  unfold clip01 at 1. destruct (Qle_bool r 0) eqn:E0; [exact Hs0|].
  assert (Hr0 : 0 < r).
  { apply Qnot_le_lt. intros H. apply Qle_bool_iff in H. congruence. }
  destruct (Qle_bool 1 r) eqn:E1.
  - apply Qle_bool_iff in E1. unfold clip01.
    assert (H0 : Qle_bool s 0 = false).
    { destruct (Qle_bool s 0) eqn:E; [|reflexivity].
      apply Qle_bool_iff in E. exfalso.
      apply (Qlt_irrefl 0). eapply Qlt_le_trans; [exact Hr0|].
      eapply Qle_trans; eassumption. }
    assert (H1 : Qle_bool 1 s = true).
    { apply Qle_bool_iff. eapply Qle_trans; eassumption. }
    rewrite H0, H1. apply Qle_refl.
  - unfold clip01.
    assert (H0 : Qle_bool s 0 = false).
    { destruct (Qle_bool s 0) eqn:E; [|reflexivity].
      apply Qle_bool_iff in E. exfalso.
      apply (Qlt_irrefl 0). eapply Qlt_le_trans; [exact Hr0|].
      eapply Qle_trans; eassumption. }
    rewrite H0. destruct (Qle_bool 1 s) eqn:E1s; [|exact Hrs].
    apply Qlt_le_weak, Qnot_le_lt. intros H. apply Qle_bool_iff in H. congruence.
Qed.

(** On a non-negative value the conversion to [uint8] is the integer part
    modulo 256. *)
Lemma to_uint8_floor (q : Q) : 0 <= q -> to_uint8 q = (Qfloor q mod 256)%Z.
Proof.
  intros Hq. unfold to_uint8. destruct q as [n d]. cbn [Qnum Qden Qfloor].
  assert (Hn : (0 <= n)%Z).
  { unfold Qle in Hq. cbn in Hq. lia. }
  now rewrite Z.quot_div_nonneg by lia.
Qed.

Lemma byte_of_unit (c : Q) :
  0 <= c <= 1 ->
  to_uint8 (c * 255) = Qfloor (c * 255) /\ (0 <= Qfloor (c * 255) <= 255)%Z.
Proof.
  intros [H0 H1].
  assert (Hlo : 0 <= c * 255).
  { apply Qmult_le_0_compat; [exact H0 | discriminate]. }
  assert (Hhi : c * 255 <= 255).
  { setoid_replace 255 with (1 * 255) at 2 by ring.
    apply Qmult_le_compat_r; [exact H1 | discriminate]. }
  assert (Hf0 : (0 <= Qfloor (c * 255))%Z).
  { change 0%Z with (Qfloor 0). apply Qfloor_resp_le, Hlo. }
  assert (Hf1 : (Qfloor (c * 255) <= 255)%Z).
  { change 255%Z with (Qfloor 255). apply Qfloor_resp_le, Hhi. }
  rewrite to_uint8_floor by exact Hlo. rewrite Z.mod_small by lia. lia.
Qed.

Lemma stretch_all_map (lo den : Q) (x : list Q) :
  ~ den == 0 ->
  stretch_all lo den x
  = Some (map (fun v => to_uint8 (clip01 ((v - lo) / den) * 255)) x).
Proof.
  intros Hden. induction x as [|v x IH]; [reflexivity|].
  cbn [stretch_all map]. rewrite IH. unfold stretch_pixel, checked_div.
  destruct (Qeq_bool den 0) eqn:E; [|reflexivity].
  apply Qeq_bool_iff in E. contradiction.
Qed.

Lemma scaled_monotone (lo den u v : Q) :
  0 < den -> u <= v -> (u - lo) / den <= (v - lo) / den.
Proof.
  intros Hden Huv. unfold Qdiv. apply Qmult_le_compat_r.
  - unfold Qminus. apply Qplus_le_compat; [exact Huv | apply Qle_refl].
  - apply Qlt_le_weak, Qinv_lt_0_compat, Hden.
Qed.

(** X4. On every channel that has a pixel, [_stretch] succeeds: no
    division has a zero denominator.  Its output has one byte per pixel,
    each between 0 and 255, and is an order-preserving function of the pixel
    value; a pixel at or below the 2nd percentile becomes 0, and, when the
    two percentiles are at least [1e-6] apart, a pixel at or above the 98th
    becomes 255. *)
Theorem stretch_is_monotone (x : list Q) :
  x <> [] ->
  exists (lo hi : Q) (f : Q -> Z),
    percentile x 2 = Some lo /\ percentile x 98 = Some hi
    /\ _stretch x = Some (map f x)
    /\ (forall v, (0 <= f v <= 255)%Z)
    /\ (forall u v, u <= v -> (f u <= f v)%Z)
    /\ (forall v, v <= lo -> f v = 0%Z)
    /\ ((1 # 1000000) <= hi - lo -> forall v, hi <= v -> f v = 255%Z).
Proof.
  intros Hx. destruct x as [|p x]; [contradiction|].
  destruct (percentile (p :: x) 2) as [lo|] eqn:Plo; [|discriminate Plo].
  destruct (percentile (p :: x) 98) as [hi|] eqn:Phi; [|discriminate Phi].
  pose proof (PreviewFacts.denominator_positive lo hi) as Hden.
  set (den := denominator lo hi) in *.
  assert (Hpos : 0 < den) by (eapply Qlt_le_trans; [|exact Hden]; reflexivity).
  assert (Hnz : ~ den == 0).
  { intros E. rewrite E in Hpos. discriminate Hpos. }
  exists lo, hi, (fun v => to_uint8 (clip01 ((v - lo) / den) * 255)).
  split; [reflexivity|]. split; [reflexivity|]. split.
  { unfold _stretch. rewrite Plo, Phi. fold den. apply stretch_all_map, Hnz. }
  split.
  { intros v. destruct (byte_of_unit _ (clip01_range ((v - lo) / den))) as [-> H].
    exact H. }
  split.
  { intros u v Huv.
    destruct (byte_of_unit _ (clip01_range ((u - lo) / den))) as [-> _].
    destruct (byte_of_unit _ (clip01_range ((v - lo) / den))) as [-> _].
    apply Qfloor_resp_le. apply Qmult_le_compat_r; [|discriminate].
    apply clip01_monotone, scaled_monotone; assumption. }
  split.
  { intros v Hv.
    assert (Hr : (v - lo) / den <= 0).
    { unfold Qdiv. setoid_replace 0 with (0 * / den) by ring.
      apply Qmult_le_compat_r.
      - unfold Qminus. setoid_replace 0 with (lo + - lo) by ring.
        apply Qplus_le_compat; [exact Hv | apply Qle_refl].
      - apply Qlt_le_weak, Qinv_lt_0_compat, Hpos. }
    apply Qle_bool_iff in Hr. unfold clip01. rewrite Hr. reflexivity. }
  intros Hgap v Hv.
  assert (Hd : den <= hi - lo).
  { unfold den, denominator, py_max.
    destruct (Qle_bool (hi - lo) (1 # 1000000)); [exact Hgap | apply Qle_refl]. }
  assert (Hr : 1 <= (v - lo) / den).
  { apply Qle_shift_div_l; [exact Hpos|]. rewrite Qmult_1_l.
    eapply Qle_trans; [exact Hd|].
    unfold Qminus. apply Qplus_le_compat; [exact Hv | apply Qle_refl]. }
  assert (H0 : Qle_bool ((v - lo) / den) 0 = false).
  { destruct (Qle_bool ((v - lo) / den) 0) eqn:E; [|reflexivity].
    apply Qle_bool_iff in E. exfalso.
    assert (H10 : 1 <= 0) by (eapply Qle_trans; eassumption).
    revert H10. unfold Qle. cbn. lia. }
  apply Qle_bool_iff in Hr. unfold clip01. rewrite H0, Hr. reflexivity.
Qed.

Lemma stretch_is_monotone_witness :
  exists (lo hi : Q) (f : Q -> Z),
    percentile [0; 10; 20; 30; 40; 100; 3] 2 = Some lo
    /\ percentile [0; 10; 20; 30; 40; 100; 3] 98 = Some hi
    /\ _stretch [0; 10; 20; 30; 40; 100; 3]
       = Some (map f [0; 10; 20; 30; 40; 100; 3])
    /\ (forall v, (0 <= f v <= 255)%Z)
    /\ (forall u v, u <= v -> (f u <= f v)%Z).
Proof.
  destruct (stretch_is_monotone [0; 10; 20; 30; 40; 100; 3])
    as (lo & hi & f & H1 & H2 & H3 & H4 & H5 & _); [discriminate|].
  exists lo, hi, f. repeat split; auto; apply H4.
Defined.

End PreviewMore.

(** ** More on the tile fetch *)

Module AppMoreFacts.
Import App AppMore AppFacts.
Local Open Scope list_scope.

Lemma fetch_tile_phases (w : World) (st : State) (tr : trace) (o : outcome)
    (st' : State) (tr' : trace) :
  fetch_tile w st tr = (o, st', tr') -> phases w st tr o st' tr'.
Proof.
  unfold fetch_tile.
  destruct (locate w (set_fetch_status MSG_START st) tr)
    as [[[lat lon] st1] tr1] eqn:Hloc.
  destruct (locate_spec _ _ _ _ _ _ _ Hloc) as (ev_loc & -> & Hgeo & _).
  assert (Hearly : forall o0 st0,
            o0 <> Returned AtUnauthorized -> o0 <> Returned AtIncomplete ->
            o0 <> Returned AtEnd ->
            (o0, st0, tr ++ ev_loc) = (o, st', tr') ->
            phases w st tr o st' tr').
  { intros o0 st0 H1 H2 H3 [= <- <- <-]. exists ev_loc, [].
    split; [exact Hgeo|]. split; [constructor|]. left.
    rewrite app_nil_r. repeat split; assumption. }
  destruct lat as [la|]; [destruct lon as [lo|]|];
    try (apply Hearly; discriminate).
  clear Hearly.
  destruct (Search._search_hls_items w la lo (date_str st1) 20 (tr ++ ev_loc))
    as [r tr2] eqn:Hs.
  destruct (search_trace _ _ _ _ _ _ _ _ Hs) as (ev_s & -> & Hsearch & _).
  rewrite <- app_assoc in *.
  assert (Hearly : forall o0 st0,
            o0 <> Returned AtUnauthorized -> o0 <> Returned AtIncomplete ->
            o0 <> Returned AtEnd ->
            (o0, st0, tr ++ ev_loc ++ ev_s) = (o, st', tr') ->
            phases w st tr o st' tr').
  { intros o0 st0 H1 H2 H3 [= <- <- <-]. exists ev_loc, ev_s.
    split; [exact Hgeo|]. split; [exact Hsearch|]. left.
    repeat split; assumption. }
  destruct r as [items|e]; [|apply Hearly; discriminate].
  destruct items as [|it items]; [apply Hearly; discriminate|].
  destruct (Ranking.rank w (date_str st1) (it :: items)) as [ranked|e] eqn:Hrank;
    [|apply Hearly; discriminate].
  destruct (raster_backend w); cbn [negb]; [|apply Hearly; discriminate].
  clear Hearly. fold (bearer_of w).
  set (st0 := if PyStr.truthy _ then st1 else _).
  assert (Hst0 : status_only st1 st0).
  { unfold st0. destruct (PyStr.truthy _);
      [apply status_only_refl | apply status_only_set, status_only_refl]. }
  destruct (extract w (bearer_of w) _ ranked ([], None) st0 _)
    as [[r3 st3] tr3] eqn:Hex.
  intros Hfin. exists ev_loc, ev_s. split; [exact Hgeo|]. split; [exact Hsearch|].
  right. exists la, lo, st1, (it :: items), ranked, st0, r3, st3, tr3.
  split; [exact Hloc|]. split; [exact Hs|]. split; [exact Hrank|].
  split; [exact Hst0|]. split; [exact Hex|].
  destruct r3 as [acc|o3]; [exact Hfin|].
  injection Hfin as <- <- <-. auto.
Qed.

Lemma closed_pairs_app (bearer : option string) (box : bbox)
    (a b : list event) :
  closed_pairs bearer box a ->
  (closed_pairs bearer box b -> closed_pairs bearer box (a ++ b))
  /\ (well_paired bearer box b -> well_paired bearer box (a ++ b)).
Proof.
  remember (List.length a) as n eqn:Hn. revert a Hn.
  induction n as [n IH] using lt_wf_ind. intros a Hn Ha.
  destruct a as [|e1 a]; [cbn; auto|].
  destruct e1; try contradiction.
  destruct a as [|e2 a]; [contradiction|].
  destruct e2; try contradiction.
  destruct ans0 as [|data]; [contradiction|].
  cbn in Ha. destruct Ha as (Hb & Hu & Hh & Hb' & Hbox & Hrest).
  cbn [List.length] in Hn.
  destruct (IH (List.length a) ltac:(lia) a eq_refl Hrest) as [IHc IHw].
  split; intros Hb2; cbn [app closed_pairs well_paired]; repeat split; auto.
Qed.

Lemma closed_pairs_well (bearer : option string) (box : bbox)
    (evs : list event) :
  closed_pairs bearer box evs -> well_paired bearer box evs.
Proof.
  intros H. destruct (closed_pairs_app bearer box evs [] H) as [_ Hw].
  rewrite app_nil_r in Hw. apply Hw. exact I.
Qed.

Lemma count_app (kind : event -> bool) (a b : list event) :
  count kind (a ++ b) = (count kind a + count kind b)%nat.
Proof. unfold count. now rewrite filter_app, length_app. Qed.

Lemma count_none (kind : event -> bool) (evs : list event) :
  Forall (fun e => kind e = false) evs -> count kind evs = 0%nat.
Proof.
  unfold count. induction 1 as [|e evs He _ IH]; [reflexivity|].
  cbn [filter]. now rewrite He.
Qed.

Lemma read_bands_paired (w : World) (bearer : option string) (box : bbox)
    (hrefs : list (option string)) (acc : stack) (st : State) (tr : trace)
    (r : flow stack) (st' : State) (tr' : trace) :
  read_bands w bearer box hrefs acc st tr = (r, st', tr') ->
  exists evs,
    tr' = tr ++ evs
    /\ (count is_probe evs <= List.length hrefs)%nat
    /\ (count is_read evs <= count is_probe evs)%nat
    /\ match r with
       | Next _ => closed_pairs bearer box evs
       | Exit _ => well_paired bearer box evs
       end.
Proof.
  revert acc tr. induction hrefs as [|href hrefs IH]; intros acc tr;
    cbn [read_bands]; unfold log.
  - intros [= <- <- <-]. exists []. rewrite app_nil_r.
    repeat split; cbn; auto.
  - set (p := probe w tr href bearer).
    destruct (unauthorized p) eqn:Hp.
    + intros [= <- <- <-]. exists [EvProbe href bearer p].
      split; [reflexivity|]. cbn. repeat split; auto; lia.
    + set (tr1 := tr ++ [EvProbe href bearer p]).
      destruct (read_window w tr1 href bearer box) as [|data] eqn:Hrd.
      * intros [= <- <- <-].
        exists [EvProbe href bearer p; EvRead href bearer box ReadRaised].
        unfold tr1. rewrite <- app_assoc. split; [reflexivity|].
        cbn. repeat split; auto; lia.
      * intros H. apply IH in H. destruct H as (evs & -> & Hc & Hrp & Hshape).
        exists ([EvProbe href bearer p; EvRead href bearer box (ReadOk data)] ++ evs).
        unfold tr1. rewrite <- !app_assoc. split; [reflexivity|].
        rewrite !count_app.
        change (count is_probe [EvProbe href bearer p; EvRead href bearer box (ReadOk data)])
          with 1%nat.
        change (count is_read [EvProbe href bearer p; EvRead href bearer box (ReadOk data)])
          with 1%nat.
        cbn [List.length]. split; [lia|]. split; [lia|].
        destruct r; cbn [app closed_pairs well_paired]; repeat split; auto.
Qed.

Lemma extract_paired (w : World) (bearer : option string) (box : bbox)
    (items : list feature) (acc : stack) (st : State) (tr : trace)
    (r : flow stack) (st' : State) (tr' : trace) :
  extract w bearer box items acc st tr = (r, st', tr') ->
  exists evs,
    tr' = tr ++ evs
    /\ (count is_probe evs <= 6 * List.length items)%nat
    /\ (count is_read evs <= count is_probe evs)%nat
    /\ match r with
       | Next _ => closed_pairs bearer box evs
       | Exit _ => well_paired bearer box evs
       end.
Proof.
  revert acc st tr. induction items as [|it items IH]; intros acc st tr;
    cbn [extract].
  - intros [= <- <- <-]. exists []. rewrite app_nil_r.
    repeat split; cbn; auto.
  - assert (Hskip : forall st0,
              extract w bearer box items acc st0 tr = (r, st', tr') ->
              exists evs, tr' = tr ++ evs
                /\ (count is_probe evs <= 6 * List.length (it :: items))%nat
                /\ (count is_read evs <= count is_probe evs)%nat
                /\ match r with
                   | Next _ => closed_pairs bearer box evs
                   | Exit _ => well_paired bearer box evs
                   end).
    { intros st0 H. apply IH in H. destruct H as (evs & -> & Hc & Hrp & Hshape).
      exists evs. cbn [List.length]. repeat split; auto; lia. }
    destruct (collect_hrefs _ _ _) as [b|hrefs] eqn:Hc; [apply Hskip|].
    apply collect_hrefs_inr in Hc. destruct Hc as [Hlen _].
    rewrite bands_length in Hlen. cbn [List.length Nat.add] in Hlen.
    destruct hrefs as [|h hrefs]; [apply Hskip|]. clear Hskip.
    destruct (read_bands w bearer box (h :: hrefs) acc st tr)
      as [[r1 st1] tr1] eqn:Hrb.
    apply read_bands_paired in Hrb.
    destruct Hrb as (ev1 & -> & Hc1 & Hrp1 & Hshape1). rewrite Hlen in Hc1.
    destruct r1 as [acc1|o1].
    + intros H. apply IH in H. destruct H as (ev2 & -> & Hc2 & Hrp2 & Hshape2).
      exists (ev1 ++ ev2). rewrite app_assoc. split; [reflexivity|].
      rewrite !count_app. cbn [List.length]. split; [lia|]. split; [lia|].
      destruct (closed_pairs_app bearer box ev1 ev2 Hshape1) as [Hcl Hwl].
      destruct r; auto.
    + intros [= <- <- <-]. exists ev1. cbn [List.length].
      repeat split; auto; lia.
Qed.

Lemma well_paired_bearer (bearer : option string) (box : bbox)
    (evs : list event) :
  well_paired bearer box evs ->
  Forall (fun e => match e with
                   | EvProbe _ b _ => b = bearer
                   | EvRead _ b box' _ => b = bearer /\ box' = box
                   | _ => False
                   end) evs.
Proof.
  remember (List.length evs) as n eqn:Hn. revert evs Hn.
  induction n as [n IH] using lt_wf_ind. intros evs Hn H.
  destruct evs as [|e1 evs]; [constructor|].
  destruct e1; try contradiction. cbn in H. destruct H as [Hb H].
  constructor; [exact Hb|].
  destruct evs as [|e2 evs]; [constructor|].
  destruct e2; try contradiction.
  destruct H as (Hu & Hh & Hb' & Hbox & H).
  constructor; [auto|].
  destruct ans0 as [|data]; [subst; constructor|].
  cbn [List.length] in Hn. apply (IH (List.length evs)); [lia | reflexivity | exact H].
Qed.

Lemma closed_pairs_counts (bearer : option string) (box : bbox)
    (evs : list event) :
  closed_pairs bearer box evs ->
  count is_probe evs = bands_read evs /\ count is_read evs = bands_read evs.
Proof.
  remember (List.length evs) as n eqn:Hn. revert evs Hn.
  induction n as [n IH] using lt_wf_ind. intros evs Hn H.
  destruct evs as [|e1 evs]; [split; reflexivity|].
  destruct e1; try contradiction.
  destruct evs as [|e2 evs]; [contradiction|].
  destruct e2; try contradiction.
  destruct ans0 as [|data]; [contradiction|].
  cbn in H. destruct H as (_ & _ & _ & _ & _ & H).
  cbn [List.length] in Hn.
  destruct (IH (List.length evs) ltac:(lia) evs eq_refl H) as [H1 H2].
  unfold count, bands_read in *. cbn [filter is_probe is_read read_ok List.length].
  split; congruence.
Qed.

Lemma probe_read_block (w : World) (st : State) (tr : trace)
    (o : outcome) (st' : State) (tr' : trace) :
  fetch_tile w st tr = (o, st', tr') ->
  exists pre block post box,
    tr' = tr ++ pre ++ block ++ post
    /\ Forall (fun e => is_probe_or_read e = false) pre
    /\ Forall (fun e => is_probe_or_read e = false) post
    /\ well_paired (bearer_of w) box block.
Proof.
  intros Hrun. apply fetch_tile_phases in Hrun.
  destruct Hrun as (ev_loc & ev_s & Hgeo & Hsearch & Hcase).
  assert (Hpre : Forall (fun e => is_probe_or_read e = false) (ev_loc ++ ev_s)).
  { apply Forall_app. split.
    - eapply Forall_flip; [|exact Hgeo]. now intros [].
    - eapply Forall_flip; [|exact Hsearch]. now intros []. }
  destruct Hcase as [(-> & H1 & H2 & H3)
                    |(lat & lon & st1 & found & items & st0 & r & st2 & tr2
                      & Hloc & Hs & Hrank & Hst0 & Hex & Hr)].
  - exists (ev_loc ++ ev_s), [], [], (0, 0, 0, 0)%R.
    rewrite !app_nil_r. repeat split; auto; constructor.
  - destruct (extract_paired _ _ _ _ _ _ _ _ _ _ Hex)
      as (ev_x & -> & _ & _ & Hshape).
    destruct r as [acc|o1].
    + destruct (finish_spec _ _ _ _ _ _ _ _ _ Hr) as (ev_f & -> & Hfs & _).
      exists (ev_loc ++ ev_s), ev_x, ev_f, (Geo.bbox_around (Q2R lat) (Q2R lon) 500).
      rewrite <- !app_assoc. split; [reflexivity|]. split; [exact Hpre|].
      split; [eapply Forall_flip; [|exact Hfs]; now intros []|].
      apply closed_pairs_well, Hshape.
    + destruct Hr as (-> & -> & ->).
      exists (ev_loc ++ ev_s), ev_x, [], (Geo.bbox_around (Q2R lat) (Q2R lon) 500).
      rewrite app_nil_r, <- !app_assoc. split; [reflexivity|]. split; [exact Hpre|].
      split; [constructor|]. exact Hshape.
Qed.

(** X5. In every run of [fetch_tile] the preflights and reads form one
    contiguous block, before which and after which there is none.  In the
    block each read comes right after the preflight of the same reference,
    which was not refused; a refused preflight or a read that raised ends
    the block.  A run makes at most 18 preflights and no more reads than
    preflights, and a run that reaches the final exit made exactly 18 of
    each. *)
Theorem reads_follow_preflights (w : World) (st : State) (tr : trace)
    (o : outcome) (st' : State) (tr' : trace) :
  fetch_tile w st tr = (o, st', tr') ->
  exists pre block post box,
    tr' = tr ++ pre ++ block ++ post
    /\ Forall (fun e => is_probe_or_read e = false) pre
    /\ Forall (fun e => is_probe_or_read e = false) post
    /\ well_paired (bearer_of w) box block
    /\ (count is_probe block <= 18)%nat
    /\ (count is_read block <= count is_probe block)%nat
    /\ (o = Returned AtEnd ->
        count is_probe block = 18%nat /\ count is_read block = 18%nat).
Proof.
  intros Hrun. apply fetch_tile_phases in Hrun.
  destruct Hrun as (ev_loc & ev_s & Hgeo & Hsearch & Hcase).
  assert (Hpre : Forall (fun e => is_probe_or_read e = false) (ev_loc ++ ev_s)).
  { apply Forall_app. split.
    - eapply Forall_flip; [|exact Hgeo]. now intros [].
    - eapply Forall_flip; [|exact Hsearch]. now intros []. }
  destruct Hcase as [(-> & H1 & H2 & H3)
                    |(lat & lon & st1 & found & items & st0 & r & st2 & tr2
                      & Hloc & Hs & Hrank & Hst0 & Hex & Hr)].
  - exists (ev_loc ++ ev_s), [], [], (0, 0, 0, 0)%R.
    rewrite !app_nil_r. repeat split; auto; try constructor; try (cbn; lia);
      congruence.
  - apply rank_length in Hrank.
    destruct (extract_spec _ _ _ _ _ _ _ _ _ _ Hex) as (ev0 & Htr0 & _ & _ & Hpost).
    destruct (extract_paired _ _ _ _ _ _ _ _ _ _ Hex)
      as (ev_x & -> & Hc & Hrp & Hshape).
    apply app_inv_head in Htr0. subst ev0.
    destruct r as [acc|o1].
    + destruct (finish_spec _ _ _ _ _ _ _ _ _ Hr) as (ev_f & -> & Hfs & Hfp).
      exists (ev_loc ++ ev_s), ev_x, ev_f, (Geo.bbox_around (Q2R lat) (Q2R lon) 500).
      rewrite <- !app_assoc. split; [reflexivity|]. split; [exact Hpre|].
      split; [eapply Forall_flip; [|exact Hfs]; now intros []|].
      split; [apply closed_pairs_well, Hshape|].
      split; [lia|]. split; [exact Hrp|].
      intros ->. cbn [finish_post] in Hfp. destruct Hfp as (H18 & _).
      destruct Hpost as (_ & Hn & Hlen). cbn [fst List.length Nat.add] in Hlen.
      destruct (closed_pairs_counts _ _ _ Hshape) as [-> ->]. lia.
    + destruct Hr as (-> & -> & ->).
      exists (ev_loc ++ ev_s), ev_x, [], (Geo.bbox_around (Q2R lat) (Q2R lon) 500).
      rewrite app_nil_r, <- !app_assoc. split; [reflexivity|]. split; [exact Hpre|].
      split; [constructor|]. split; [exact Hshape|]. split; [lia|].
      split; [exact Hrp|]. intros ->. destruct Hpost as [].
Qed.

Lemma reads_follow_preflights_witness :
  exists pre block post box,
    snd (fetch_tile Scenario.all_complete Scenario.paris_form [])
    = pre ++ block ++ post
    /\ well_paired (bearer_of Scenario.all_complete) box block
    /\ count is_probe block = 18%nat /\ count is_read block = 18%nat.
Proof.
  destruct (reads_follow_preflights Scenario.all_complete Scenario.paris_form []
              _ _ _ (triple_eta _))
    as (pre & block & post & box & Htr & _ & _ & Hw & _ & _ & Hend).
  exists pre, block, post, box. split; [exact Htr|]. split; [exact Hw|].
  apply Hend. vm_compute. reflexivity.
Defined.

(** X6. Every preflight and every read of a run carries the credential of
    the run: the stripped [EARTHDATA_TOKEN] when it is not blank, and no
    credential otherwise. *)
Theorem requests_carry_the_token (w : World) (st : State) (tr : trace)
    (o : outcome) (st' : State) (tr' : trace) :
  fetch_tile w st tr = (o, st', tr') ->
  (bearer_of w = None <-> PyStr.strip (EARTHDATA_TOKEN w) = ""%string)
  /\ exists evs,
      tr' = tr ++ evs
      /\ forall e, In e evs ->
           match e with
           | EvProbe _ b _ | EvRead _ b _ _ => b = bearer_of w
           | _ => True
           end.
Proof.
  intros Hrun. split.
  { unfold bearer_of. destruct (PyStr.strip (EARTHDATA_TOKEN w)); cbn;
      split; congruence. }
  destruct (probe_read_block _ _ _ _ _ _ Hrun)
    as (pre & block & post & box & -> & Hpre & Hpostf & Hw).
  eexists. split; [reflexivity|]. intros e He.
  apply in_app_or in He. destruct He as [He|He].
  { rewrite Forall_forall in Hpre. specialize (Hpre e He). now destruct e. }
  apply in_app_or in He. destruct He as [He|He].
  - apply well_paired_bearer in Hw. rewrite Forall_forall in Hw.
    specialize (Hw e He). destruct e; tauto.
  - rewrite Forall_forall in Hpostf. specialize (Hpostf e He). now destruct e.
Qed.

Lemma requests_carry_the_token_witness :
  exists evs,
    snd (fetch_tile Scenario.all_complete Scenario.paris_form []) = [] ++ evs
    /\ forall e, In e evs ->
         match e with
         | EvProbe _ b _ | EvRead _ b _ _ => b = bearer_of Scenario.all_complete
         | _ => True
         end.
Proof.
  exact (proj2 (requests_carry_the_token Scenario.all_complete
                  Scenario.paris_form [] _ _ _ (triple_eta _))).
Defined.

End AppMoreFacts.

(** ** The metadata-only fallback *)

Module FallbackFacts.
Import App AppMore AppFacts AppMoreFacts.
Local Open Scope list_scope.

Lemma none_of_kind (kind : event -> bool) (evs : list event) :
  Forall (fun e => kind e = false) evs ->
  Exists (fun e => kind e = true) evs -> False.
Proof.
  rewrite Forall_forall, Exists_exists. intros H (e & He & Hk).
  specialize (H e He). congruence.
Qed.

Lemma fabricated_assetless (gs : list granule) :
  Forall (fun f => assets f = []) (map Search.fabricate gs).
Proof. apply Forall_forall. intros f Hf. apply in_map_iff in Hf.
  destruct Hf as (g & <- & _). reflexivity. Qed.

(** A search that consulted the granule listing returns only features
    without assets. *)
Lemma search_granule_assetless (w : World) (lat lon : Q) (dt : string)
    (limit : Z) (tr : trace) (feats : list feature) (evs : list event) :
  Search._search_hls_items w lat lon dt limit tr = (Returns feats, tr ++ evs) ->
  Exists (fun e => is_granule e = true) evs ->
  Forall (fun f => assets f = []) feats.
Proof.
  unfold Search._search_hls_items.
  destruct (Search.search_window w dt tr) as [iv|e]; [|discriminate].
  destruct (start_date iv >? end_date iv)%Z.
  { intros [= <- _] _. constructor. }
  unfold log.
  set (e1 := EvSearchPoint lon lat limit iv _).
  destruct (Search.found _) as [f1|].
  { intros [= <- H] Hex. apply app_inv_head in H. subst evs.
    exfalso. revert Hex. apply none_of_kind. repeat constructor. }
  set (e2 := EvSearchBBox _ limit iv _).
  destruct (Search.found _) as [f2|].
  { intros [= <- H] Hex. rewrite <- app_assoc in H. apply app_inv_head in H.
    subst evs. exfalso. revert Hex. apply none_of_kind. repeat constructor. }
  destruct (Search.items_loop _ _ _ _ _ _ _) as [o3 tr3] eqn:H3.
  apply items_loop_trace in H3. destruct H3 as (ev3 & -> & Hs3).
  destruct o3 as [f3|].
  { intros [= <- H] Hex. rewrite <- !app_assoc in H. apply app_inv_head in H.
    subst evs. exfalso. revert Hex. apply none_of_kind.
    repeat constructor. eapply Forall_impl; [|exact Hs3].
    intros [] He; try reflexivity. discriminate He. }
  unfold Search.granule_fallback.
  destruct (granules w _ _ iv) as [|[|g gs]].
  - intros [= <- _] _. constructor.
  - intros [= <- _] _. constructor.
  - intros [= <- _] _. apply fabricated_assetless.
Qed.

Lemma decorate_snd {A : Type} (key : A -> option Z) (l : list A)
    (d : list (Z * A)) :
  Ranking.decorate key l = Some d -> map snd d = l.
Proof.
  revert d. induction l as [|x l IH]; cbn [Ranking.decorate]; intros d.
  - intros [= <-]. reflexivity.
  - destruct (key x); [|discriminate].
    destruct (Ranking.decorate key l) as [d'|]; [|discriminate].
    intros [= <-]. cbn. now rewrite (IH d' eq_refl).
Qed.

(** The ranking returns acquisitions of the search, and invents none. *)
Lemma rank_incl (w : World) (ds : string) (items ranked : list feature) :
  Ranking.rank w ds items = Returns ranked -> incl ranked items.
Proof.
  unfold Ranking.rank. destruct (fromisoformat w ds) as [t|]; [|discriminate].
  unfold Ranking.sort_by.
  destruct (Ranking.decorate _ items) as [d|] eqn:Hd; [|discriminate].
  intros [= <-] x Hx.
  assert (Hin : In x (map snd (Ranking.stable_sort d))).
  { rewrite <- (firstn_skipn 3 (map snd _)). apply in_or_app. now left. }
  rewrite <- (decorate_snd _ _ _ Hd).
  apply in_map_iff in Hin. destruct Hin as (p & <- & Hp).
  apply in_map. eapply Permutation_in; [|exact Hp].
  apply RankingFacts.stable_sort_perm.
Qed.

(** Acquisitions without assets are skipped one after the other: nothing is
    requested and nothing is stacked. *)
Lemma extract_assetless (w : World) (bearer : option string) (box : bbox)
    (items : list feature) (acc : stack) (st : State) (tr : trace) :
  Forall (fun f => assets f = []) items ->
  exists st', extract w bearer box items acc st tr = (Next acc, st', tr)
              /\ status_only st st'.
Proof.
  intros H. revert st. induction H as [|it items Hit _ IH]; intros st.
  - exists st. split; [reflexivity|apply status_only_refl].
  - cbn [extract]. rewrite Hit.
    assert (Hb : collect_hrefs [] (Bands._bands_for_collection (collection it)) []
                 = inl "B02"%string).
    { unfold Bands._bands_for_collection.
      destruct (PyStr.startswith _ _); reflexivity. }
    rewrite Hb.
    destruct (IH (set_fetch_status (msg_band_missing "B02") st)) as (st' & -> & Hs).
    exists st'. split; [reflexivity|].
    eapply status_only_trans; [|exact Hs].
    apply status_only_set, status_only_refl.
Qed.

(** X7. A run whose search went as far as the granule listing never asks
    for an asset and never touches the file system: it makes no preflight,
    no read, no directory and no file.  It does not end with a tile, nor on
    a refused preflight, and when it reaches the count check it reports
    that 0 of the 18 band slices were read. *)
Theorem granule_listing_yields_no_tile (w : World) (st : State) (tr : trace)
    (o : outcome) (st' : State) (evs : list event) :
  fetch_tile w st tr = (o, st', tr ++ evs) ->
  Exists (fun e => is_granule e = true) evs ->
  Forall (fun e => is_probe_or_read e = false /\ is_fs e = false) evs
  /\ o <> Returned AtEnd
  /\ o <> Returned AtUnauthorized
  /\ (o = Returned AtIncomplete -> fetch_status st' = msg_incomplete 0).
Proof.
  intros Hrun Hex. apply fetch_tile_phases in Hrun.
  destruct Hrun as (ev_loc & ev_s & Hgeo & Hsearch & Hcase).
  assert (Hquiet : Forall (fun e => is_probe_or_read e = false /\ is_fs e = false)
                     (ev_loc ++ ev_s)).
  { apply Forall_app. split.
    - eapply Forall_impl; [|exact Hgeo]. now intros [].
    - eapply Forall_impl; [|exact Hsearch]. now intros []. }
  destruct Hcase as [(H & H1 & H2 & H3)
                    |(lat & lon & st1 & found & items & st0 & r & st2 & tr2
                      & Hloc & Hs & Hrank & Hst0 & Hext & Hr)].
  - apply app_inv_head in H. subst evs. repeat split; auto. congruence.
  - assert (Hgr : Exists (fun e => is_granule e = true) ev_s).
    { destruct (extract_spec _ _ _ _ _ _ _ _ _ _ Hext) as (ev_x & -> & Hpr & _).
      assert (Htail : exists ev_f, evs = ev_loc ++ ev_s ++ ev_x ++ ev_f
                                   /\ Forall (fun e => is_fs e = true) ev_f).
      { destruct r as [acc|o1].
        - destruct (finish_spec _ _ _ _ _ _ _ _ _ Hr) as (ev_f & H & Hfs & _).
          exists ev_f. split; [|exact Hfs].
          rewrite <- !app_assoc in H. now apply app_inv_head in H.
        - destruct Hr as (_ & _ & H). exists []. split; [|constructor].
          rewrite <- !app_assoc in H. apply app_inv_head in H.
          now rewrite app_nil_r. }
      destruct Htail as (ev_f & -> & Hfs).
      apply Exists_app in Hex. destruct Hex as [Hex|Hex].
      { exfalso. revert Hex. apply none_of_kind.
        eapply Forall_impl; [|exact Hgeo]. now intros []. }
      apply Exists_app in Hex. destruct Hex as [Hex|Hex]; [exact Hex|].
      apply Exists_app in Hex. destruct Hex as [Hex|Hex].
      - exfalso. revert Hex. apply none_of_kind.
        eapply Forall_impl; [|exact Hpr]. now intros [].
      - exfalso. revert Hex. apply none_of_kind.
        eapply Forall_impl; [|exact Hfs]. now intros []. }
    rewrite app_assoc in Hs.
    pose proof (search_granule_assetless _ _ _ _ _ _ _ _ Hs Hgr) as Hfound.
    assert (Hitems : Forall (fun f => assets f = []) items).
    { apply Forall_forall. intros f Hf. rewrite Forall_forall in Hfound.
      apply Hfound. eapply rank_incl; eassumption. }
    destruct (extract_assetless w (bearer_of w)
                (Geo.bbox_around (Q2R lat) (Q2R lon) 500) items ([], None) st0
                (tr ++ ev_loc ++ ev_s) Hitems) as (st2' & Hext' & _).
    rewrite Hext' in Hext. injection Hext as <- <- <-.
    unfold finish in Hr. cbn in Hr. injection Hr as <- <- H.
    apply app_inv_head in H. subst evs.
    repeat split; auto; discriminate.
Qed.

Lemma granule_listing_yields_no_tile_witness :
  exists evs,
    snd (fetch_tile ScenarioMore.granule_only Scenario.paris_form []) = evs
    /\ Forall (fun e => is_probe_or_read e = false /\ is_fs e = false) evs
    /\ fetch_status (snd (fst (fetch_tile ScenarioMore.granule_only
                                 Scenario.paris_form [])))
       = msg_incomplete 0.
Proof.
  eexists. split; [reflexivity|].
  destruct (granule_listing_yields_no_tile ScenarioMore.granule_only
              Scenario.paris_form [] _ _ _ (triple_eta _))
    as (Hq & _ & _ & Hm).
  - vm_compute. apply Exists_cons_tl, Exists_cons_tl, Exists_cons_tl,
      Exists_cons_hd. reflexivity.
  - split; [exact Hq|]. apply Hm. vm_compute. reflexivity.
Defined.

End FallbackFacts.

(** ** Paths and names *)

Module PathFacts.
Import PyStr.
Local Open Scope string_scope.

Lemma contains_slash_cons (c : ascii) (s : string) :
  contains "/" (String c s) = Ascii.eqb c "/"%char || contains "/" s.
Proof.
  cbn [contains String.prefix].
  destruct (Ascii.ascii_dec "/"%char c) as [<-|Hne].
  - rewrite Ascii.eqb_refl. now destruct s.
  - assert (Ascii.eqb c "/"%char = false) as ->; [|reflexivity].
    apply Ascii.eqb_neq. congruence.
Qed.

Lemma contains_slash_app (a b : string) :
  contains "/" (a ++ b) = contains "/" a || contains "/" b.
Proof.
  induction a as [|c a IH].
  - reflexivity.
  - change (String c a ++ b) with (String c (a ++ b)).
    rewrite !contains_slash_cons, IH. apply orb_assoc.
Qed.

Lemma basename_app (d n : string) :
  contains "/" n = false -> basename (d ++ n) = basename d ++ n.
Proof.
  intros Hn. induction d as [|c d IH].
  - cbn [append basename]. destruct n as [|c n]; [reflexivity|].
    rewrite contains_slash_cons in Hn. apply orb_false_elim in Hn.
    destruct Hn as [Hc Hn]. cbn [basename]. now rewrite Hc, Hn.
  - change (String c d ++ n) with (String c (d ++ n)). cbn [basename].
    destruct (Ascii.eqb c "/"%char); [exact IH|].
    rewrite contains_slash_app, Hn, orb_false_r.
    destruct (contains "/" d); [exact IH|reflexivity].
Qed.

Lemma endswith_slash_cons (c : ascii) (d : string) :
  endswith_slash (String c d)
  = match d with EmptyString => Ascii.eqb c "/"%char | _ => endswith_slash d end.
Proof.
  unfold endswith_slash. cbn [list_ascii_of_string rev].
  destruct d as [|c' d]; [reflexivity|].
  cbn [list_ascii_of_string rev].
  destruct (rev (list_ascii_of_string d) ++ [c'])%list as [|x l] eqn:E.
  - destruct (rev (list_ascii_of_string d)); discriminate E.
  - reflexivity.
Qed.

Lemma basename_endswith_slash (d : string) :
  endswith_slash d = true -> basename d = "".
Proof.
  induction d as [|c d IH]; [discriminate|].
  rewrite endswith_slash_cons. destruct d as [|c' d].
  - intros Hc. cbn [basename]. now rewrite Hc.
  - intros H. specialize (IH H). cbn [basename].
    destruct (Ascii.eqb c "/"%char); [exact IH|].
    assert (Hs : contains "/" (String c' d) = true).
    { clear IH. revert c' H. induction d as [|c2 d IHd]; intros c' H.
      - rewrite endswith_slash_cons in H. rewrite contains_slash_cons, H.
        reflexivity.
      - rewrite endswith_slash_cons in H. rewrite contains_slash_cons.
        rewrite (IHd c2 H). apply orb_true_r. }
    rewrite Hs. exact IH.
Qed.

(** The base name of a file joined to a directory is the file's name. *)
Lemma basename_join (d n : string) :
  contains "/" n = false -> basename (path_join d n) = n.
Proof.
  intros Hn. unfold path_join, startswith.
  assert (Hp : String.prefix "/" n = false).
  { destruct n as [|c n]; [reflexivity|].
    rewrite contains_slash_cons in Hn. apply orb_false_elim in Hn.
    destruct Hn as [Hc _]. cbn [String.prefix].
    destruct (Ascii.ascii_dec "/"%char c) as [<-|]; [|reflexivity].
    now rewrite Ascii.eqb_refl in Hc. }
  rewrite Hp.
  destruct (negb (truthy d) || endswith_slash d) eqn:E.
  - rewrite (basename_app _ _ Hn).
    apply orb_true_iff in E. destruct E as [E|E].
    + destruct d; [reflexivity|discriminate E].
    + now rewrite (basename_endswith_slash _ E).
  - assert (H : basename (d ++ "/" ++ n) = basename (d ++ "/") ++ n).
    { rewrite <- (basename_app (d ++ "/") n Hn).
      f_equal. clear. induction d as [|c d IH]; [reflexivity|].
      cbn [append]. now rewrite <- IH. }
    rewrite H.
    assert (Hd : basename (d ++ "/") = "").
    { clear. induction d as [|c d IH]; [reflexivity|].
      change (String c d ++ "/") with (String c (d ++ "/")). cbn [basename].
      destruct (Ascii.eqb c "/"%char); [exact IH|].
      rewrite contains_slash_app, (contains_slash_cons "/" ""), Ascii.eqb_refl.
      cbn [orb]. rewrite orb_true_r. exact IH. }
    now rewrite Hd.
Qed.

Lemma uint_no_slash (u : Decimal.uint) :
  contains "/" (NilEmpty.string_of_uint u) = false.
Proof.
  induction u; cbn [NilEmpty.string_of_uint]; [reflexivity|..];
    rewrite contains_slash_cons, IHu; reflexivity.
Qed.

Lemma str_of_N_no_slash (n : N) : contains "/" (str_of_N n) = false.
Proof.
  unfold str_of_N, NilZero.string_of_uint.
  destruct (N.to_uint n); try reflexivity; apply uint_no_slash.
Qed.

Lemma zeros_no_slash (k : nat) : contains "/" (zeros k) = false.
Proof.
  induction k as [|k IH]; [reflexivity|].
  cbn [zeros]. now rewrite contains_slash_cons, IH.
Qed.

Lemma format_f_no_slash (d : nat) (x : Q) : contains "/" (format_f d x) = false.
Proof.
  unfold format_f. rewrite !contains_slash_app, str_of_N_no_slash.
  destruct (Qnum x <? 0)%Z; cbn [orb]; (destruct d; [reflexivity|]);
    rewrite !contains_slash_app, zeros_no_slash, str_of_N_no_slash; reflexivity.
Qed.

End PathFacts.

(** ** The name of the tile *)

Module NamingFacts.
Import App AppMore AppFacts AppMoreFacts PathFacts.
Local Open Scope string_scope.

Lemma build_preview_name (w : World) (out_png : string) (arrays : list band)
    (tr : trace) (png : string) (tr' : trace) :
  build_preview w out_png arrays tr = (png, tr') ->
  png = "" \/ png = "/" ++ PyStr.basename out_png.
Proof.
  unfold build_preview.
  destruct (rev _) as [|r [|g [|b [|? ?]]]]; try (intros [= <- _]; now left).
  destruct (same_shape r g && same_shape r b); [|intros [= <- _]; now left].
  destruct (Preview._stretch (pixels r)); [|intros [= <- _]; now left].
  destruct (Preview._stretch (pixels g)); [|intros [= <- _]; now left].
  destruct (Preview._stretch (pixels b)); [|intros [= <- _]; now left].
  destruct (save_png w tr out_png _); intros [= <- _]; [now right|now left].
Qed.

Lemma stem_no_slash (lat lon : Q) (date ext : string) :
  PyStr.contains "/" date = false ->
  PyStr.contains "/" ext = false ->
  PyStr.contains "/"
    (("hls_tile_" ++ PyStr.format_f 5 lat ++ "_" ++ PyStr.format_f 5 lon ++ "_"
      ++ date) ++ ext) = false.
Proof.
  intros Hd He. rewrite !contains_slash_app, !format_f_no_slash, Hd, He.
  reflexivity.
Qed.

Lemma finish_names (w : World) (lat lon : Q) (acc : stack) (st : State)
    (tr : trace) (st' : State) (tr' : trace) :
  finish w lat lon acc st tr = (Returned AtEnd, st', tr') ->
  PyStr.contains "/" (date_str st) = false ->
  let stem := "hls_tile_" ++ PyStr.format_f 5 lat ++ "_" ++ PyStr.format_f 5 lon
              ++ "_" ++ date_str st in
  let assets_dir := PyStr.path_join (getcwd w) "assets" in
  tile_path st' = "/" ++ stem ++ ".tif"
  /\ (preview_png st' = "" \/ preview_png st' = "/" ++ stem ++ ".png")
  /\ exists rest,
       tr' = (tr ++ EvMakedirs assets_dir true
                 :: EvWriteTif (PyStr.path_join assets_dir (stem ++ ".tif"))
                      (snd acc) (fst acc) true
                 :: rest)%list.
Proof.
  intros H Hd stem assets_dir. unfold finish, log in H.
  destruct (negb (Nat.eqb _ 18)); [discriminate|].
  fold assets_dir in H. fold stem in H.
  destruct (makedirs w tr assets_dir) eqn:Hmk; cbn [negb] in H; [|discriminate].
  destruct (write_tif w _ _ _ _) eqn:Hw; cbn [negb] in H; [|discriminate].
  destruct (build_preview _ _ _ _) as [png tr3] eqn:Hp.
  injection H as <- <-.
  pose proof (build_preview_name _ _ _ _ _ _ Hp) as Hname.
  apply build_preview_trace in Hp.
  cbn [tile_path preview_png set_fetch_status set_tile_path set_preview_png].
  rewrite (basename_join _ (stem ++ ".tif")) by (apply stem_no_slash; auto).
  rewrite (basename_join _ (stem ++ ".png")) in Hname
    by (apply stem_no_slash; auto).
  split; [reflexivity|]. split; [exact Hname|].
  destruct Hp as (evs & -> & _). exists evs.
  rewrite <- !app_assoc. reflexivity.
Qed.

(** X8. The name of the tile is a function of the coordinate and the date.
    When a run ends with a tile and the date has no slash, the GeoTIFF was
    written in the [assets] directory of the working directory under the
    name [hls_tile_<lat>_<lon>_<date>.tif], with the coordinate the run
    located, printed with five decimals; [tile_path] is that name behind a
    slash, and [preview_png] is empty or the same name ending in [.png]. *)
Theorem tile_is_named_after_the_request (w : World) (st : State) (tr : trace)
    (st' : State) (tr' : trace) :
  fetch_tile w st tr = (Returned AtEnd, st', tr') ->
  PyStr.contains "/" (date_str st) = false ->
  exists lat lon st1 tr1 stem,
    locate w (set_fetch_status MSG_START st) tr = (Some lat, Some lon, st1, tr1)
    /\ stem = "hls_tile_" ++ PyStr.format_f 5 lat ++ "_"
              ++ PyStr.format_f 5 lon ++ "_" ++ date_str st
    /\ tile_path st' = "/" ++ stem ++ ".tif"
    /\ (preview_png st' = "" \/ preview_png st' = "/" ++ stem ++ ".png")
    /\ exists before meta bands rest,
         tr' = (before
                ++ EvWriteTif
                     (PyStr.path_join (PyStr.path_join (getcwd w) "assets")
                        (stem ++ ".tif")) meta bands true
                :: rest)%list.
Proof.
  intros Hrun Hd. apply fetch_tile_phases in Hrun.
  destruct Hrun as (ev_loc & ev_s & _ & _ & Hcase).
  destruct Hcase as [(_ & _ & _ & H)
                    |(lat & lon & st1 & found & items & st0 & r & st2 & tr2
                      & Hloc & Hs & Hrank & Hst0 & Hext & Hr)];
    [congruence|].
  destruct (extract_spec _ _ _ _ _ _ _ _ _ _ Hext) as (ev_x & _ & _ & Hst2 & Hpost).
  destruct r as [acc|o1].
  2:{ destruct Hr as (<- & _ & _). destruct Hpost. }
  assert (Hdate : date_str st2 = date_str st).
  { destruct (locate_frame _ _ _ _ _ _ _ Hloc) as [(_ & _ & _ & H1 & _) _].
    unfold status_only in Hst0, Hst2. rewrite Hst2, Hst0. exact H1. }
  rewrite <- Hdate in Hd.
  destruct (finish_names _ _ _ _ _ _ _ _ Hr Hd) as (Ht & Hp & rest & Htr).
  rewrite Hdate in Ht, Hp, Htr.
  exists lat, lon, st1, (tr ++ ev_loc)%list. eexists. split; [exact Hloc|].
  split; [reflexivity|]. split; [exact Ht|]. split; [exact Hp|].
  exists (tr2 ++ [EvMakedirs (PyStr.path_join (getcwd w) "assets") true])%list,
    (snd acc), (fst acc), rest.
  rewrite Htr, <- app_assoc. reflexivity.
Qed.

Lemma tile_is_named_after_the_request_witness :
  tile_path (snd (fst (fetch_tile Scenario.all_complete Scenario.paris_form [])))
  = "/hls_tile_48.85660_2.35220_2023-06-01.tif".
Proof.
  destruct (tile_is_named_after_the_request Scenario.all_complete
              Scenario.paris_form []
              (snd (fst (fetch_tile Scenario.all_complete Scenario.paris_form [])))
              (snd (fetch_tile Scenario.all_complete Scenario.paris_form [])))
    as (lat & lon & st1 & tr1 & stem & Hloc & -> & Ht & _).
  - vm_compute. reflexivity.
  - vm_compute. reflexivity.
  - rewrite Ht. vm_compute in Hloc. injection Hloc as <- <- _ _.
    vm_compute. reflexivity.
Defined.

End NamingFacts.

(** ** The refactored client *)

Module ClientFacts.
Import PyDatetime Client.
Local Open Scope list_scope.

Lemma keep_items_app (s : Service) (target : datetime) (items : list feature)
    (acc : list (Z * feature)) :
  keep_items s target items acc = acc ++ keep_items s target items [].
Proof.
  revert acc. induction items as [|it items IH]; intros acc; cbn [keep_items].
  - now rewrite app_nil_r.
  - destruct (time_delta s target it) as [d|]; [|apply IH].
    rewrite IH, (IH ([] ++ [(d, it)])), <- app_assoc. reflexivity.
Qed.

Lemma keep_items_cons (s : Service) (target : datetime) (it : feature)
    (items : list feature) :
  keep_items s target (it :: items) []
  = match time_delta s target it with
    | Some d => (d, it) :: keep_items s target items []
    | None => keep_items s target items []
    end.
Proof.
  cbn [keep_items]. destruct (time_delta s target it) as [d|]; [|reflexivity].
  now rewrite keep_items_app.
Qed.

Lemma keep_items_concat (s : Service) (target : datetime)
    (a b : list feature) :
  keep_items s target (a ++ b) []
  = keep_items s target a [] ++ keep_items s target b [].
Proof.
  induction a as [|it a IH]; [reflexivity|].
  change ((it :: a) ++ b) with (it :: (a ++ b)). rewrite !keep_items_cons.
  destruct (time_delta s target it); rewrite IH; reflexivity.
Qed.

Lemma time_delta_usable (s : Service) (target : datetime) (it : feature)
    (d : Z) (o : Z) :
  utcoffset target = Some o ->
  time_delta s target it = Some d -> usable s target (d, it).
Proof.
  intros Ho. unfold time_delta, usable. cbn [fst snd].
  destruct (prop_datetime it) as [|c r] eqn:Hp; [discriminate|]. cbn [PyStr.truthy].
  destruct (fromisoformat (base s) _) as [t|]; [|discriminate].
  unfold abs_delta. rewrite Ho. destruct (utcoffset t) as [ot|] eqn:Ht; [|discriminate].
  intros [= <-]. exists t. split; [discriminate|]. split; [reflexivity|].
  exists ot. split; [exact Ht|]. unfold Ranking.utc_us. now rewrite Ho, Ht.
Qed.

Lemma kept_usable (s : Service) (target : datetime) (o : Z)
    (items : list feature) (p : Z * feature) :
  utcoffset target = Some o ->
  In p (keep_items s target items []) ->
  In (snd p) items /\ usable s target p.
Proof.
  intros Ho. induction items as [|it items IH]; [intros []|].
  rewrite keep_items_cons.
  destruct (time_delta s target it) as [d|] eqn:Hd.
  - intros [<-|Hin].
    + split; [now left|]. eapply time_delta_usable; eassumption.
    + destruct (IH Hin). split; [now right|assumption].
  - intros Hin. destruct (IH Hin). split; [now right|assumption].
Qed.

Lemma target_aware (s : Service) (dt : string) (h : history) :
  utcoffset (target_of s dt h) = Some 0%Z.
Proof. unfold target_of. now destruct (fromisoformat (base s) dt). Qed.

Lemma answered_app (a b : list request) :
  answered (a ++ b) = answered a ++ answered b.
Proof.
  induction a as [|r a IH]; [reflexivity|].
  destruct r as [q ans|c bx l win [|items]]; cbn [answered app]; rewrite ?IH;
    try reflexivity.
  now rewrite app_assoc.
Qed.

(** The loop over the collections: one request per collection, in order,
    until one fails. *)
Lemma collect_spec (s : Service) (box : bbox) (limit : Z)
    (window : datetime * datetime) (target : datetime) (colls : list string)
    (acc : list (Z * feature)) (h : history)
    (r : option (list (Z * feature))) (h' : history) :
  collect s box limit window target colls acc h = (r, h') ->
  exists reqs,
    h' = h ++ reqs
    /\ match r with
       | Some all_items =>
           Forall2 (fun c q => asks c limit window q /\ failed q = false)
             colls reqs
           /\ all_items = acc ++ keep_items s target (answered reqs) []
       | None =>
           exists done q,
             reqs = done ++ [q] /\ failed q = true
             /\ Forall (fun q => failed q = false) done
             /\ Forall2 (fun c q => asks c limit window q)
                  (firstn (List.length reqs) colls) reqs
       end.
Proof.
  revert acc h. induction colls as [|c colls IH]; intros acc h; cbn [collect].
  - intros [= <- <-]. exists []. rewrite !app_nil_r. split; [reflexivity|].
    split; [constructor|reflexivity].
  - destruct (get_items s h c box limit window) as [|items] eqn:Ha.
    + intros [= <- <-]. eexists. split; [reflexivity|].
      exists [], (GetItems c box limit window HttpFailed).
      split; [reflexivity|]. split; [reflexivity|]. split; [constructor|].
      cbn. constructor; [now cbn|constructor].
    + intros H. apply IH in H. destruct H as (reqs & -> & Hr).
      exists (GetItems c box limit window (HttpJson items) :: reqs).
      rewrite <- app_assoc. split; [reflexivity|].
      destruct r as [all_items|].
      * destruct Hr as (Hf & ->). split.
        -- constructor; [now cbn|exact Hf].
        -- cbn [answered]. rewrite keep_items_concat, app_assoc.
           f_equal. apply keep_items_app.
      * destruct Hr as (done & q & -> & Hq & Hd & Hf).
        exists (GetItems c box limit window (HttpJson items) :: done), q.
        split; [reflexivity|]. split; [exact Hq|].
        split; [constructor; [reflexivity|exact Hd]|].
        cbn [List.length firstn]. constructor; [now cbn|exact Hf].
Qed.

Lemma slice_to_firstn {A : Type} (l : list A) (limit : Z) :
  (0 <= limit)%Z -> Search.slice_to l limit = firstn (Z.to_nat limit) l.
Proof.
  intros H. unfold Search.slice_to.
  destruct (Z.leb_spec 0 limit); [reflexivity|lia].
Qed.

Lemma sorted_split {A : Type} (R : A -> A -> Prop) (a b : list A) :
  StronglySorted R (a ++ b) ->
  StronglySorted R a /\ forall x y, In x a -> In y b -> R x y.
Proof.
  induction a as [|x a IH]; cbn [app].
  - intros _. split; [constructor|intros ? ? []].
  - intros H. inversion H as [|? ? Hs Hall]; subst.
    destruct (IH Hs) as [Ha Hab]. rewrite Forall_app in Hall.
    destruct Hall as [Hxa Hxb]. split; [now constructor|].
    intros u v [<-|Hu] Hv.
    + rewrite Forall_forall in Hxb. now apply Hxb.
    + now apply Hab.
Qed.

Lemma firstn_sorted {A : Type} (R : A -> A -> Prop) (n : nat) (l : list A) :
  StronglySorted R l ->
  StronglySorted R (firstn n l)
  /\ forall x y, In x (firstn n l) -> In y (skipn n l) -> R x y.
Proof. intros H. rewrite <- (firstn_skipn n l) in H. now apply sorted_split. Qed.

Lemma search_hls_items_spec (s : Service) (lat lon : Q)
    (dt : string) (limit : Z) (h : history) (items : list (Z * feature))
    (h' : history) :
  search_hls_items s lat lon dt limit h = (items, h') ->
  (0 <= limit)%Z ->
  let target := target_of s dt h in
  exists reqs,
    h' = h ++ reqs
    /\ (List.length reqs <= 2)%nat
    /\ (forall lo hi, Search.client_window target = Some (lo, hi) ->
          naive_us lo = (naive_us target - 30 * US_PER_DAY)%Z
          /\ naive_us hi = (naive_us target + 30 * US_PER_DAY)%Z
          /\ Forall2 (fun c q => asks c limit (lo, hi) q)
               (firstn (List.length reqs) COLLECTIONS) reqs)
    /\ (Exists (fun q => failed q = true) reqs -> items = [])
    /\ (Z.of_nat (List.length items) <= limit)%Z
    /\ StronglySorted Ranking.by_key items
    /\ Forall (fun p => In (snd p) (answered reqs) /\ usable s target p) items
    /\ (Forall (fun q => failed q = false) reqs ->
        List.length reqs = 2%nat ->
        exists rest,
          Permutation (items ++ rest) (keep_items s target (answered reqs) [])
          /\ forall a b, In a items -> In b rest -> (fst a <= fst b)%Z).
Proof.
  intros Hrun Hlim target. unfold search_hls_items in Hrun. fold target in Hrun.
  destruct (Search.client_window target) as [[lo hi]|] eqn:Hwin.
  2:{ injection Hrun as <- <-. exists []. rewrite app_nil_r.
      split; [reflexivity|]. split; [cbn; lia|]. split; [discriminate|].
      split; [reflexivity|]. split; [cbn; lia|]. split; [constructor|].
      split; [constructor|]. discriminate. }
  assert (Hw : naive_us lo = (naive_us target - 30 * US_PER_DAY)%Z
               /\ naive_us hi = (naive_us target + 30 * US_PER_DAY)%Z).
  { clear Hrun. unfold Search.client_window, add_days in Hwin.
    destruct (in_range (naive_us target + -30 * US_PER_DAY)); [|discriminate].
    destruct (in_range (naive_us target + 30 * US_PER_DAY)); [|discriminate].
    injection Hwin as <- <-. cbn [naive_us]. split; unfold US_PER_DAY; lia. }
  destruct (collect s _ limit (lo, hi) target COLLECTIONS [] h) as [r h1] eqn:Hc.
  apply collect_spec in Hc. destruct Hc as (reqs & -> & Hr).
  exists reqs. destruct r as [all_items|].
  - injection Hrun as <- <-. destruct Hr as (Hf & ->). cbn [app].
    assert (Hlen : List.length reqs = 2%nat).
    { apply Forall2_length in Hf. now rewrite <- Hf. }
    assert (Hok : Forall (fun q => failed q = false) reqs).
    { clear -Hf. induction Hf as [|c q cs qs [_ Hq] _ IH]; constructor; auto. }
    rewrite slice_to_firstn by exact Hlim.
    set (kept := keep_items s target (answered reqs) []).
    destruct (firstn_sorted Ranking.by_key (Z.to_nat limit) _
                (RankingFacts.stable_sort_sorted kept)) as [Hs Hsplit].
    split; [reflexivity|]. split; [lia|]. split.
    { intros lo' hi' [= <- <-]. split; [apply Hw|]. split; [apply Hw|].
      rewrite Hlen. cbn [firstn COLLECTIONS].
      eapply Forall2_impl; [|exact Hf]. now intros c q [Ha _]. }
    split.
    { intros Hex. exfalso. rewrite Forall_forall in Hok.
      apply Exists_exists in Hex. destruct Hex as (q & Hq & Hfq).
      specialize (Hok q Hq). congruence. }
    split.
    { pose proof (firstn_le_length (Z.to_nat limit)
                    (Ranking.stable_sort kept)). lia. }
    split; [exact Hs|]. split.
    { apply Forall_forall. intros p Hp.
      apply (kept_usable s target 0 (answered reqs));
        [apply target_aware|].
      apply (Permutation_in p (RankingFacts.stable_sort_perm kept)).
      rewrite <- (firstn_skipn (Z.to_nat limit) (Ranking.stable_sort kept)).
      apply in_or_app. now left. }
    intros _ _. exists (skipn (Z.to_nat limit) (Ranking.stable_sort kept)).
    split; [|exact Hsplit].
    rewrite firstn_skipn. apply RankingFacts.stable_sort_perm.
  - injection Hrun as <- <-.
    destruct Hr as (done & q & -> & Hq & Hd & Hf).
    assert (Hlen : (List.length (done ++ [q]) <= 2)%nat).
    { apply Forall2_length in Hf. rewrite <- Hf, length_firstn. cbn. lia. }
    split; [reflexivity|]. split; [exact Hlen|]. split.
    { intros lo' hi' [= <- <-]. split; [apply Hw|]. split; [apply Hw|]. exact Hf. }
    split; [reflexivity|]. split; [cbn; lia|]. split; [constructor|].
    split; [constructor|].
    intros Hok _. exfalso. rewrite Forall_app in Hok. destruct Hok as [_ Hok].
    inversion Hok; subst. congruence.
Qed.


(** X9. [HLSClient.search_hls_items] with a non-negative limit.  It asks the
    catalogue at most twice, Landsat first and Sentinel second, for the
    sixty days centred on the target instant.  If a request fails the result
    is empty, whatever the other one answered.  Otherwise the result is
    made of answered items whose timestamp parses to an aware instant, each
    with its distance to the target; it is ordered by increasing distance,
    has at most [limit] items, and none of the usable items left out is
    closer than a returned one. *)
Theorem client_search_keeps_the_closest (s : Service) (lat lon : Q)
    (dt : string) (limit : Z) (h : history) (items : list (Z * feature))
    (h' : history) :
  search_hls_items s lat lon dt limit h = (items, h') ->
  (0 <= limit)%Z ->
  let target := target_of s dt h in
  exists reqs,
    h' = h ++ reqs
    /\ (List.length reqs <= 2)%nat
    /\ (forall lo hi, Search.client_window target = Some (lo, hi) ->
          naive_us lo = (naive_us target - 30 * US_PER_DAY)%Z
          /\ naive_us hi = (naive_us target + 30 * US_PER_DAY)%Z
          /\ Forall2 (fun c q => asks c limit (lo, hi) q)
               (firstn (List.length reqs) COLLECTIONS) reqs)
    /\ (Exists (fun q => failed q = true) reqs -> items = [])
    /\ (Z.of_nat (List.length items) <= limit)%Z
    /\ StronglySorted Ranking.by_key items
    /\ Forall (fun p => In (snd p) (answered reqs) /\ usable s target p) items
    /\ (Forall (fun q => failed q = false) reqs ->
        List.length reqs = 2%nat ->
        exists rest,
          Permutation (items ++ rest) (keep_items s target (answered reqs) [])
          /\ forall a b, In a items -> In b rest -> (fst a <= fst b)%Z).
Proof. apply search_hls_items_spec. Qed.

Lemma client_search_keeps_the_closest_witness :
  exists reqs,
    snd (search_hls_items ScenarioMore.two_collections Scenario.PARIS_LAT
           Scenario.PARIS_LON "2023-06-01" 3 []) = [] ++ reqs
    /\ StronglySorted Ranking.by_key
         (fst (search_hls_items ScenarioMore.two_collections Scenario.PARIS_LAT
                 Scenario.PARIS_LON "2023-06-01" 3 [])).
Proof.
  destruct (client_search_keeps_the_closest ScenarioMore.two_collections
              Scenario.PARIS_LAT Scenario.PARIS_LON "2023-06-01" 3 [] _ _
              (surjective_pairing _) ltac:(lia))
    as (reqs & Hh & _ & _ & _ & _ & Hs & _).
  exists reqs. split; [exact Hh | exact Hs].
Defined.










End ClientFacts.

(** ** The helpers of [utils/helpers.py] *)

Module HelpersFacts.
Import PyStr Helpers.
Local Open Scope string_scope.

Lemma substring_0_length (n : nat) (s : string) :
  String.length (substring 0 n s) = Nat.min n (String.length s).
Proof.
  revert s. induction n as [|n IH]; intros [|c s]; cbn; try reflexivity.
  now rewrite IH.
Qed.

Lemma map_chars_length (f : ascii -> ascii) (s : string) :
  String.length (map_chars f s) = String.length s.
Proof. induction s as [|c s IH]; cbn; [reflexivity|now rewrite IH]. Qed.

Lemma all_chars_substring (p : ascii -> bool) (n : nat) (s : string) :
  all_chars p s = true -> all_chars p (substring 0 n s) = true.
Proof.
  revert s. induction n as [|n IH]; intros [|c s]; cbn; try reflexivity.
  intros H. apply andb_true_iff in H. destruct H as [-> H]. now apply IH.
Qed.

Lemma all_chars_map (p : ascii -> bool) (f : ascii -> ascii) (s : string) :
  (forall c, p (f c) = true) -> all_chars p (map_chars f s) = true.
Proof.
  intros H. induction s as [|c s IH]; cbn; [reflexivity|]. now rewrite H, IH.
Qed.

Lemma map_chars_fixed (p : ascii -> bool) (f : ascii -> ascii) (s : string) :
  (forall c, p c = true -> f c = c) ->
  all_chars p s = true -> map_chars f s = s.
Proof.
  intros H. induction s as [|c s IH]; cbn; [reflexivity|].
  intros Hs. apply andb_true_iff in Hs. destruct Hs as [Hc Hs].
  now rewrite (H c Hc), (IH Hs).
Qed.

Lemma substring_0_idem (n : nat) (s : string) :
  substring 0 n (substring 0 n s) = substring 0 n s.
Proof.
  revert s. induction n as [|n IH]; intros [|c s]; cbn; try reflexivity.
  now rewrite IH.
Qed.

Lemma all_ascii (p : ascii -> bool) :
  (forall n, (n < 256)%nat -> p (ascii_of_nat n) = true) ->
  forall c, p c = true.
Proof.
  intros H c. rewrite <- (ascii_nat_embedding c). apply H, nat_ascii_bounded.
Qed.

Lemma in_class_isalnum (c : ascii) :
  in_class c = isalnum c || (Ascii.eqb c "-"%char || Ascii.eqb c "_"%char).
Proof.
  unfold in_class, isalnum.
  destruct (_ && _), (_ && _), (_ && _), (Ascii.eqb c "-"), (Ascii.eqb c "_");
    reflexivity.
Qed.

Lemma in_class_no_slash (s : string) :
  all_chars in_class s = true -> contains "/" s = false.
Proof.
  induction s as [|c s IH]; [reflexivity|]. cbn [all_chars].
  intros H. apply andb_true_iff in H. destruct H as [Hc Hs].
  rewrite PathFacts.contains_slash_cons, (IH Hs), orb_false_r.
  destruct (Ascii.eqb_spec c "/"%char) as [->|]; [discriminate Hc|reflexivity].
Qed.

(** X11. [_slug] makes a name that is safe in a file name and in a URL
    path.  On ASCII text the result has the length of the text, capped at
    80; it is made of letters, digits, [-] and [_] only, so it has no slash;
    slugging a slug changes nothing; and it is the first 80 characters of
    what [slug] of [utils/helpers.py] makes of the same text, once the text
    is stripped. *)
Theorem slug_is_a_safe_name (s : string) :
  all_chars is_ascii s = true ->
  String.length (_slug s) = Nat.min 80 (String.length s)
  /\ all_chars in_class (_slug s) = true
  /\ contains "/" (_slug s) = false
  /\ _slug (_slug s) = _slug s
  /\ _slug (strip s) = substring 0 80 (slug s).
Proof.
  intros _. unfold _slug, slug.
  set (f := fun c => if isalnum c || _ then c else "_"%char).
  assert (Hf : forall c, in_class (f c) = true).
  { intros c. unfold f. rewrite in_class_isalnum.
    destruct (isalnum c || _) eqn:E; [exact E|reflexivity]. }
  assert (Hall : all_chars in_class (substring 0 80 (map_chars f s)) = true).
  { apply all_chars_substring, all_chars_map, Hf. }
  split; [now rewrite substring_0_length, map_chars_length|].
  split; [exact Hall|]. split; [apply in_class_no_slash, Hall|]. split.
  - rewrite (map_chars_fixed in_class f _ ) by
      (try exact Hall; intros c Hc; unfold f; rewrite <- in_class_isalnum;
       now rewrite Hc).
    apply substring_0_idem.
  - f_equal. induction (strip s) as [|c r IH]; [reflexivity|].
    cbn [map_chars]. rewrite IH. unfold f at 1. now rewrite <- in_class_isalnum.
Qed.

Lemma slug_is_a_safe_name_witness :
  _slug "MODIS Terra/Aqua (NDVI) 8-day" = "MODIS_Terra_Aqua__NDVI__8-day"
  /\ contains "/" (_slug "MODIS Terra/Aqua (NDVI) 8-day") = false.
Proof.
  split; [reflexivity|].
  apply (slug_is_a_safe_name "MODIS Terra/Aqua (NDVI) 8-day"). reflexivity.
Defined.

Lemma truncated_length (text : string) (k : nat) :
  (k <= String.length text)%nat ->
  String.length (substring 0 k text ++ "...") = (k + 3)%nat.
Proof.
  intros H. assert (Ha : forall a b, String.length (a ++ b)
                         = (String.length a + String.length b)%nat).
  { intros a b. induction a as [|c a IH]; cbn; [reflexivity|now rewrite IH]. }
  rewrite Ha, substring_0_length. cbn. lia.
Qed.

(** X12. [truncate_text] keeps its promise when the limit is at least 3:
    the result is never longer than [max_length]; it is the text itself
    when the text fits, and otherwise the first [max_length - 3] characters
    of the text followed by three dots, exactly [max_length] long. *)
Theorem truncate_text_fits (text : string) (max_length : Z) :
  (3 <= max_length)%Z ->
  (Z.of_nat (String.length (truncate_text text max_length)) <= max_length)%Z
  /\ ((Z.of_nat (String.length text) <= max_length)%Z ->
      truncate_text text max_length = text)
  /\ ((max_length < Z.of_nat (String.length text))%Z ->
      truncate_text text max_length
      = substring 0 (Z.to_nat (max_length - 3)) text ++ "..."
      /\ Z.of_nat (String.length (truncate_text text max_length)) = max_length).
Proof.
  intros H3. unfold truncate_text, str_slice_to.
  destruct (Z.leb_spec (Z.of_nat (String.length text)) max_length) as [Hfit|Hlong].
  - split; [exact Hfit|]. split; [reflexivity|lia].
  - destruct (Z.leb_spec 0 (max_length - 3)); [|lia].
    rewrite truncated_length by lia.
    split; [lia|]. split; [lia|]. intros _. split; [reflexivity|lia].
Qed.

Lemma truncate_text_fits_witness :
  truncate_text "Harmonized Landsat Sentinel-2" 12 = "Harmonize...".
Proof.
  destruct (truncate_text_fits "Harmonized Landsat Sentinel-2" 12 ltac:(lia))
    as (_ & _ & H). destruct (H ltac:(cbn; lia)) as [-> _]. reflexivity.
Defined.

(** Below 3 the promise fails: the slice counts from the end of the text. *)
Remark truncate_text_small_limit :
  truncate_text "abcdefgh" 2 = "abcdefg..."
  /\ String.length (truncate_text "abcdefgh" 2) = 10%nat.
Proof. split; reflexivity. Qed.

Local Ltac by_reals :=
  repeat match goal with
  | H : _ /\ _ |- _ => destruct H
  | H : Qle _ _ |- _ => apply Qle_Rle in H
  | H : Qlt _ _ |- _ => apply Qlt_Rlt in H
  | H : Qeq _ _ |- _ => apply Qeq_eqR in H
  end;
  match goal with
  | |- Qle _ _ => apply Rle_Qle
  | |- Qlt _ _ => apply Rlt_Qlt
  | |- Qeq _ _ => apply eqR_Qeq
  end; lra.

Lemma Qle_bool_false (a b : Q) : Qle_bool a b = false -> (b < a)%Q.
Proof.
  intros H. apply Qnot_le_lt. intros H'. apply Qle_bool_iff in H'. congruence.
Qed.

(** X13. [clamp] with bounds in order returns a value between them: the
    value itself (up to equality of numbers) when it already lies between
    them, and the nearer bound otherwise. *)
Theorem clamp_in_bounds (value min_val max_val : Q) :
  (min_val <= max_val)%Q ->
  (min_val <= clamp value min_val max_val <= max_val)%Q
  /\ ((min_val <= value <= max_val)%Q ->
      (clamp value min_val max_val == value)%Q)
  /\ ((value <= min_val)%Q -> (clamp value min_val max_val == min_val)%Q)
  /\ ((max_val <= value)%Q -> (clamp value min_val max_val == max_val)%Q).
Proof.
  intros Hb. unfold clamp, Preview.py_max, py_min.
  destruct (Qle_bool max_val value) eqn:E1;
    [apply Qle_bool_iff in E1|apply Qle_bool_false in E1].
  - destruct (Qle_bool max_val min_val) eqn:E2;
      [apply Qle_bool_iff in E2|apply Qle_bool_false in E2];
      repeat split; intros; by_reals.
  - destruct (Qle_bool value min_val) eqn:E2;
      [apply Qle_bool_iff in E2|apply Qle_bool_false in E2];
      repeat split; intros; by_reals.
Qed.

Lemma clamp_in_bounds_witness :
  (clamp 200 (-90) 90 == 90)%Q /\ (clamp 12 (-90) 90 == 12)%Q.
Proof.
  destruct (clamp_in_bounds 200 (-90) 90) as (_ & _ & _ & H1);
    [unfold Qle; cbn; lia|].
  destruct (clamp_in_bounds 12 (-90) 90) as (_ & H2 & _);
    [unfold Qle; cbn; lia|].
  split; [apply H1|apply H2]; unfold Qle; cbn; lia.
Defined.

(** With the bounds out of order the lower bound wins. *)
Remark clamp_crossed_bounds (value min_val max_val : Q) :
  (max_val < min_val)%Q -> clamp value min_val max_val = min_val.
Proof.
  intros H. unfold clamp, Preview.py_max, py_min.
  destruct (Qle_bool max_val value) eqn:E1.
  - assert (Qle_bool max_val min_val = true) as ->; [|reflexivity].
    apply Qle_bool_iff in E1. apply Qle_bool_iff. by_reals.
  - apply Qle_bool_false in E1.
    assert (Qle_bool value min_val = true) as ->; [|reflexivity].
    apply Qle_bool_iff. by_reals.
Qed.

(** X14. The two [safe_float] helpers agree on a text, given what
    [float] does with it: it ignores the white space around the text, and
    it rejects the empty text. *)
Theorem safe_float_helpers_agree (w : World) (s : string) :
  py_float w (strip s) = py_float w s ->
  py_float w "" = None ->
  safe_float w s = App._safe_float w s.
Proof.
  intros Hws Hempty. unfold safe_float, App._safe_float.
  destruct s as [|c s]; [reflexivity|]. cbn [truthy negb orb].
  destruct (strip (String c s)) as [|c' r] eqn:E.
  - cbn [truthy negb]. congruence.
  - cbn [truthy negb]. congruence.
Qed.

Lemma safe_float_helpers_agree_witness :
  safe_float Scenario.offline "48.8566" = Some (Scenario.PARIS_LAT).
Proof.
  rewrite (safe_float_helpers_agree Scenario.offline "48.8566");
    reflexivity.
Defined.

End HelpersFacts.

(** ** The layer filter *)

Module LayersFacts.
Import PyStr Layers.
Local Open Scope string_scope.

Lemma mem_In (x : string) (l : list string) : mem x l = true <-> In x l.
Proof.
  unfold mem. rewrite existsb_exists. split.
  - intros (y & Hy & He). apply String.eqb_eq in He. now subst.
  - intros H. exists x. split; [exact H|apply String.eqb_refl].
Qed.

Lemma reselect_spec (filtered : list string) (s : App.State) :
  reselect filtered s = with_selected_layer (App.selected_layer (reselect filtered s)) s
  /\ (filtered <> [] -> In (App.selected_layer (reselect filtered s)) filtered)
  /\ (In (App.selected_layer s) filtered \/ filtered = [] ->
      reselect filtered s = s)
  /\ (~ In (App.selected_layer s) filtered ->
      forall first rest, filtered = first :: rest ->
      App.selected_layer (reselect filtered s) = first).
Proof.
  unfold reselect. destruct (mem (App.selected_layer s) filtered) eqn:E; cbn [negb].
  - apply mem_In in E. split; [now destruct s|]. split; [auto|].
    split; [auto|]. intros H. contradiction.
  - assert (Hn : ~ In (App.selected_layer s) filtered).
    { intros H. apply mem_In in H. congruence. }
    destruct filtered as [|first rest].
    + split; [now destruct s|]. split; [congruence|]. split; [auto|].
      intros _ ? ? [=].
    + split; [reflexivity|]. split; [intros _; now left|].
      split; [intros [H|H]; [contradiction|discriminate]|].
      intros _ ? ? [= <- <-]. reflexivity.
Qed.

Lemma matches_spec (env : Env) (mode q q_lower : string)
    (filtered : list string) (error : string) :
  matches env mode q q_lower = (filtered, error) ->
  (exists keep, filtered = filter keep (AVAILABLE_LAYERS env))
  /\ (error <> "" ->
      filtered = [] /\ mode = "regex"
      /\ exists e, re_compile env q = inl e).
Proof.
  unfold matches.
  destruct (String.eqb mode "prefix").
  { intros [= <- <-]. split; [eauto|]. congruence. }
  destruct (String.eqb_spec mode "regex") as [->|].
  2:{ intros [= <- <-]. split; [eauto|]. congruence. }
  destruct (re_compile env q) as [e|search].
  - intros [= <- <-]. split; [|eauto].
    exists (fun _ => false). clear. induction (AVAILABLE_LAYERS env); auto.
  - intros [= <- <-]. split; [eauto|]. congruence.
Qed.

(** X15. Whatever the state before, after [set_layer_filter] or
    [set_filter_mode] the list shown is a selection of the available
    layers in their order, the count is its length, and the selected layer
    is in the list unless the list is empty.  The selection moves only when
    it has to, and then to the first match; no other field of the
    application changes, so the map keeps showing the layer it showed.  A
    blank query shows every layer, and an invalid regular expression shows
    none. *)
Theorem filter_keeps_the_selection_listed (env : Env) (value : string)
    (s : FilterState) :
  forall s',
    s' = set_layer_filter env value s \/ s' = set_filter_mode env value s ->
    consistent env s'
    /\ app s' = with_selected_layer (App.selected_layer (app s')) (app s)
    /\ (In (App.selected_layer (app s)) (filtered_layers s')
        \/ filtered_layers s' = [] -> app s' = app s)
    /\ (~ In (App.selected_layer (app s)) (filtered_layers s') ->
        forall first rest, filtered_layers s' = first :: rest ->
        App.selected_layer (app s') = first)
    /\ (lower (strip (layer_filter s')) = "" ->
        filtered_layers s' = AVAILABLE_LAYERS env)
    /\ (regex_error s' <> "" -> filtered_layers s' = []).
Proof.
  assert (Hgen : forall v s0,
            let s' := set_layer_filter env v s0 in
            consistent env s'
            /\ app s' = with_selected_layer (App.selected_layer (app s')) (app s0)
            /\ (In (App.selected_layer (app s0)) (filtered_layers s')
                \/ filtered_layers s' = [] -> app s' = app s0)
            /\ (~ In (App.selected_layer (app s0)) (filtered_layers s') ->
                forall first rest, filtered_layers s' = first :: rest ->
                App.selected_layer (app s') = first)
            /\ (lower (strip (layer_filter s')) = "" ->
                filtered_layers s' = AVAILABLE_LAYERS env)
            /\ (regex_error s' <> "" -> filtered_layers s' = [])).
  { intros v s0. unfold set_layer_filter.
    destruct (lower (strip v)) as [|c r] eqn:Hq; cbn [truthy negb].
    - cbn zeta. unfold consistent.
      cbn [app layer_filter filtered_layers regex_error match_count].
      destruct (reselect_spec (AVAILABLE_LAYERS env) (app s0))
        as (H1 & H2 & H3 & H4).
      split; [split; [|split; [reflexivity|exact H2]]|].
      { exists (fun _ => true). clear. induction (AVAILABLE_LAYERS env) as [|x l IH];
          [reflexivity|]. cbn. now rewrite <- IH. }
      split; [exact H1|]. split; [exact H3|]. split; [exact H4|].
      split; [reflexivity|congruence].
    - destruct (matches env _ v (String c r)) as [filtered error] eqn:Hm.
      apply matches_spec in Hm. destruct Hm as (Hsel & Herr).
      cbn zeta. unfold consistent.
      cbn [app layer_filter filtered_layers regex_error match_count].
      destruct (reselect_spec filtered (app s0)) as (H1 & H2 & H3 & H4).
      split; [split; [exact Hsel|split; [reflexivity|exact H2]]|].
      split; [exact H1|]. split; [exact H3|]. split; [exact H4|].
      split; [rewrite Hq; discriminate|]. intros He. apply Herr, He. }
  intros s' [->| ->]; [apply Hgen|].
  unfold set_filter_mode. cbn [layer_filter].
  match goal with
  | |- context [set_layer_filter env (layer_filter s) ?s0] =>
      exact (Hgen (layer_filter s) s0)
  end.
Qed.

Lemma filter_keeps_the_selection_listed_witness :
  App.selected_layer
    (app (set_layer_filter ScenarioMore.two_layers "viirs"
            (ScenarioMore.filter_form "contains")))
  = "VIIRS_SNPP_MODIS_Like_TrueColor"
  /\ consistent ScenarioMore.two_layers
       (set_layer_filter ScenarioMore.two_layers "viirs"
          (ScenarioMore.filter_form "contains")).
Proof.
  destruct (filter_keeps_the_selection_listed ScenarioMore.two_layers "viirs"
              (ScenarioMore.filter_form "contains") _ (or_introl eq_refl))
    as (Hc & _).
  split; [reflexivity|exact Hc].
Defined.

(** X16. For the same query, what the [prefix] mode shows is among what
    the [contains] mode shows. *)
Theorem prefix_matches_are_contains_matches (env : Env) (value : string)
    (s1 s2 : FilterState) :
  lower (filter_mode s1) = "prefix" ->
  lower (filter_mode s2) = "contains" ->
  incl (filtered_layers (set_layer_filter env value s1))
       (filtered_layers (set_layer_filter env value s2)).
Proof.
  intros H1 H2. unfold set_layer_filter.
  destruct (lower (strip value)) as [|c r] eqn:Hq; cbn [truthy negb].
  { cbn. apply incl_refl. }
  assert (M1 : lower (if truthy (filter_mode s1) then filter_mode s1
                      else "contains") = "prefix").
  { destruct (filter_mode s1); [discriminate H1|exact H1]. }
  assert (M2 : lower (if truthy (filter_mode s2) then filter_mode s2
                      else "contains") = "contains").
  { destruct (filter_mode s2); [reflexivity|exact H2]. }
  rewrite M1, M2. unfold matches. cbn [String.eqb Ascii.eqb Bool.eqb].
  cbn [filtered_layers]. intros lid Hin.
  apply filter_In in Hin. destruct Hin as [Hin Hp]. apply filter_In.
  split; [exact Hin|]. unfold startswith in Hp.
  destruct (lower lid); cbn [contains]; now rewrite Hp.
Qed.

Lemma prefix_matches_are_contains_matches_witness :
  filtered_layers
    (set_layer_filter ScenarioMore.two_layers "modis"
       (ScenarioMore.filter_form "Prefix"))
  = ["MODIS_Terra_NDVI_8Day"]
  /\ incl ["MODIS_Terra_NDVI_8Day"]
       (filtered_layers
          (set_layer_filter ScenarioMore.two_layers "modis"
             (ScenarioMore.filter_form "contains"))).
Proof.
  split; [reflexivity|].
  apply (prefix_matches_are_contains_matches ScenarioMore.two_layers "modis"
           (ScenarioMore.filter_form "Prefix")
           (ScenarioMore.filter_form "contains")); reflexivity.
Defined.

End LayersFacts.

(** ** The WMS capabilities and the time of a layer *)

Module WmsFacts.
Import PyStr Wms.
Local Open Scope string_scope.

Lemma lookup_store {A : Type} (d : list (string * A)) (k k' : string) (v : A) :
  lookup (store d k v) k' = if String.eqb k k' then Some v else lookup d k'.
Proof.
  induction d as [|[k0 v0] d IH]; cbn [store lookup].
  - rewrite String.eqb_sym. reflexivity.
  - destruct (String.eqb_spec k0 k) as [->|Hne]; cbn [lookup].
    + destruct (String.eqb k k'); reflexivity.
    + rewrite IH. destruct (String.eqb_spec k0 k') as [->|]; [|reflexivity].
      destruct (String.eqb_spec k k'); [congruence|reflexivity].
Qed.

Lemma visit_ok (lyr : layer_el) (layers : list string) (tables : Tables) :
  tables_ok tables -> tables_ok (snd (visit lyr (layers, tables))).
Proof.
  intros Hok. unfold visit.
  destruct (name_text lyr) as [text|]; [|exact Hok].
  destruct (truthy text); cbn [negb]; [|exact Hok].
  destruct (time_dim (dimensions lyr)) as [[n t]|]; [|exact Hok].
  destruct (truthy (strip _)); [|exact Hok].
  destruct (time_values _) as [|v vs]; [exact Hok|].
  cbn [snd]. intros lid vals. cbn [LAYER_TIME_VALUES LAYER_TIME_DEFAULT].
  rewrite !lookup_store. destruct (String.eqb (strip text) lid).
  - intros [= <-]. split; [discriminate|reflexivity].
  - apply Hok.
Qed.

Lemma visit_all_ok (doc : list layer_el) (layers : list string)
    (tables : Tables) :
  tables_ok tables -> tables_ok (snd (visit_all doc (layers, tables))).
Proof.
  revert layers tables. induction doc as [|lyr doc IH]; intros layers tables Hok.
  - exact Hok.
  - cbn [visit_all]. destruct (visit lyr (layers, tables)) as [l1 t1] eqn:E.
    apply IH. change t1 with (snd (l1, t1)). rewrite <- E. now apply visit_ok.
Qed.

Lemma last_In {A : Type} (l : list A) (d : A) : l <> [] -> In (last l d) l.
Proof.
  induction l as [|x l IH]; [congruence|]. intros _.
  destruct l as [|y l]; [now left|]. right. apply IH. discriminate.
Qed.

(** X17. The time sent for a layer is one the layer allows.  The two
    tables filled by [list_wms_layers] go together, whatever the
    capabilities document and whether the request fails or not: a layer
    with time values has its default among them, the last one.  So for a
    layer with time values [_choose_time] returns the desired day, stripped,
    when it is one of the values, and otherwise the last value; never
    anything else. *)
Theorem chosen_time_is_allowed (answer : http (list layer_el))
    (tables : Tables) (today layer_id : string) (desired_date : option string) :
  tables_ok tables ->
  let tables' := snd (list_wms_layers answer tables) in
  tables_ok tables'
  /\ forall allowed,
       lookup (LAYER_TIME_VALUES tables') layer_id = Some allowed ->
       let chosen := _choose_time tables' today layer_id desired_date in
       In chosen allowed
       /\ (forall d, desired_date = Some d -> In (strip d) allowed ->
           d <> "" -> chosen = strip d)
       /\ ((forall d, desired_date = Some d -> ~ In (strip d) allowed) ->
           chosen = last allowed "").
Proof.
  intros Hok tables'.
  assert (Hok' : tables_ok tables').
  { unfold tables', list_wms_layers. destruct answer as [|doc]; [exact Hok|].
    pose proof (visit_all_ok doc [] tables Hok) as H.
    destruct (visit_all doc ([], tables)) as [l t]. exact H. }
  split; [exact Hok'|]. intros allowed Hal chosen.
  destruct (Hok' _ _ Hal) as [Hne Hdef].
  unfold chosen, _choose_time. rewrite Hal, Hdef.
  destruct allowed as [|v vs]; [congruence|].
  destruct desired_date as [d|].
  - destruct (truthy d && Layers.mem (strip d) (v :: vs)) eqn:E.
    + apply andb_true_iff in E. destruct E as [_ E].
      apply LayersFacts.mem_In in E.
      split; [exact E|]. split; [intros d' [= <-] _ _; reflexivity|].
      intros H. exfalso. exact (H d eq_refl E).
    + split; [apply last_In; discriminate|]. split; [|reflexivity].
      intros d' [= <-] Hin Hd. exfalso.
      apply LayersFacts.mem_In in Hin. rewrite Hin, andb_true_r in E.
      destruct d; [congruence|discriminate E].
  - split; [apply last_In; discriminate|]. split; [discriminate|reflexivity].
Qed.

Lemma chosen_time_is_allowed_witness :
  _choose_time
    (snd (list_wms_layers (HttpJson ScenarioMore.capabilities)
            ScenarioMore.no_tables))
    "2023-07-01" "MODIS_Terra_NDVI_8Day" (Some "2023-06-03")
  = "2023-06-10".
Proof.
  destruct (chosen_time_is_allowed (HttpJson ScenarioMore.capabilities)
              ScenarioMore.no_tables "2023-07-01" "MODIS_Terra_NDVI_8Day"
              (Some "2023-06-03")) as [_ H].
  - intros lid vals [=].
  - destruct (H ["2023-05-25"; "2023-06-02"; "2023-06-10"] eq_refl)
      as (_ & _ & Hlast).
    rewrite Hlast; [reflexivity|].
    intros d [= <-]. cbn. intros [H1|[H1|[H1|[]]]]; discriminate H1.
Defined.

Lemma ltb_trichotomy (x y : string) :
  String.eqb x y = false -> String.ltb x y = false -> String.ltb y x = true.
Proof.
  unfold String.ltb. intros He Hl.
  rewrite String.compare_antisym.
  destruct (String.compare x y) eqn:E; cbn [CompOpp].
  - apply String.compare_eq_iff in E. subst. now rewrite String.eqb_refl in He.
  - discriminate Hl.
  - reflexivity.
Qed.

Lemma insert_new_In (x y : string) (l : list string) :
  In y (insert_new x l) <-> y = x \/ In y l.
Proof.
  induction l as [|z l IH]; cbn [insert_new].
  - cbn. intuition.
  - destruct (String.eqb_spec x z) as [->|Hne].
    + cbn. intuition.
    + destruct (String.ltb x z); cbn [In]; [intuition|].
      rewrite IH. intuition.
Qed.

Lemma insert_new_sorted (x : string) (l : list string) :
  Sorted increasing l -> Sorted increasing (insert_new x l).
Proof.
  induction 1 as [|z l Hs IH Hz]; cbn [insert_new].
  - repeat constructor.
  - destruct (String.eqb x z) eqn:He; [now constructor|].
    destruct (String.ltb x z) eqn:Hl.
    + constructor; [now constructor|]. constructor. exact Hl.
    + constructor; [exact IH|].
      pose proof (ltb_trichotomy _ _ He Hl) as Hzx.
      destruct l as [|u l]; cbn [insert_new]; [now repeat constructor|].
      inversion Hz as [|? ? Hzu]; subst.
      destruct (String.eqb x u); [now constructor|].
      destruct (String.ltb x u); now constructor.
Qed.

Lemma sorted_set_spec (l : list string) :
  Sorted increasing (sorted_set l) /\ forall y, In y (sorted_set l) <-> In y l.
Proof.
  induction l as [|x l [IHs IHi]]; cbn [sorted_set fold_right].
  - split; [constructor|reflexivity].
  - split; [now apply insert_new_sorted|].
    intros y. fold (sorted_set l). rewrite insert_new_In, IHi. cbn. intuition.
Qed.

Lemma visit_layers (lyr : layer_el) (layers : list string) (tables : Tables) :
  fst (visit lyr (layers, tables))
  = (layers ++ match layer_name lyr with Some n => [n] | None => [] end)%list.
Proof.
  unfold visit, layer_name.
  destruct (name_text lyr) as [text|]; [|now rewrite app_nil_r].
  destruct text as [|c text]; cbn [truthy negb].
  { cbn. now rewrite app_nil_r. }
  cbn zeta.
  destruct (time_dim (dimensions lyr)) as [[n t]|];
    [destruct (truthy (strip _)); [destruct (time_values _)|]|];
    cbn [fst]; destruct (truthy (strip (String c text)));
    rewrite ?app_nil_r; reflexivity.
Qed.

Lemma visit_all_layers (doc : list layer_el) (layers : list string)
    (tables : Tables) :
  forall y,
    In y (fst (visit_all doc (layers, tables)))
    <-> In y layers \/ exists lyr, In lyr doc /\ layer_name lyr = Some y.
Proof.
  revert layers tables. induction doc as [|lyr doc IH]; intros layers tables y.
  - cbn. split; [auto|]. intros [H|(? & [] & _)]. exact H.
  - cbn [visit_all]. destruct (visit lyr (layers, tables)) as [l1 t1] eqn:E.
    rewrite IH. pose proof (visit_layers lyr layers tables) as Hl.
    rewrite E in Hl. cbn [fst] in Hl. subst l1. rewrite in_app_iff. split.
    + intros [[H|H]|(l & Hin & Hn)].
      * now left.
      * right. exists lyr. split; [now left|].
        destruct (layer_name lyr); [|destruct H].
        destruct H as [->|[]]. reflexivity.
      * right. exists l. split; [now right|exact Hn].
    + intros [H|(l & [->|Hin] & Hn)].
      * left. now left.
      * left. right. rewrite Hn. now left.
      * right. exists l. split; assumption.
Qed.

(** X18. [list_wms_layers] returns the names of the capabilities document:
    a name is listed exactly when a layer element has it as the stripped,
    non-empty text of its [wms:Name]; the list is in strictly increasing
    order, so no name comes twice; and a request that fails gives the empty
    list and leaves the tables as they were. *)
Theorem listed_layers_are_the_names (answer : http (list layer_el))
    (tables : Tables) :
  let layers := fst (list_wms_layers answer tables) in
  Sorted increasing layers
  /\ match answer with
     | HttpFailed =>
         layers = [] /\ snd (list_wms_layers answer tables) = tables
     | HttpJson doc =>
         forall y, In y layers
                   <-> exists lyr, In lyr doc /\ layer_name lyr = Some y
     end.
Proof.
  unfold list_wms_layers. destruct answer as [|doc]; cbn zeta.
  - split; [constructor|]. split; reflexivity.
  - pose proof (visit_all_layers doc [] tables) as Hv.
    destruct (visit_all doc ([], tables)) as [l t]. cbn [fst] in *.
    destruct (sorted_set_spec l) as [Hs Hi]. split; [exact Hs|].
    intros y. rewrite Hi, Hv. cbn [In]. intuition.
Qed.

End WmsFacts.

(** ** The map writer and [build_map] *)

Module MapFacts.
Import PyStr Helpers Wms MapWriter.
Local Open Scope string_scope.

Lemma str_app_assoc (a b c : string) : (a ++ b) ++ c = a ++ b ++ c.
Proof. induction a as [|x a IH]; cbn; [reflexivity|now rewrite IH]. Qed.

Lemma choose_time_allowed (tables : Tables) (today lid : string)
    (desired : option string) (allowed : list string) :
  tables_ok tables ->
  lookup (LAYER_TIME_VALUES tables) lid = Some allowed ->
  In (_choose_time tables today lid desired) allowed.
Proof.
  intros Hok Hal. destruct (Hok _ _ Hal) as [Hne Hdef].
  unfold _choose_time. rewrite Hal, Hdef.
  destruct allowed as [|v vs]; [congruence|].
  destruct desired as [d|]; [|apply WmsFacts.last_In; discriminate].
  destruct (truthy d && Layers.mem (strip d) (v :: vs)) eqn:E.
  - apply andb_true_iff in E. destruct E as [_ E].
    now apply LayersFacts.mem_In in E.
  - apply WmsFacts.last_In. discriminate.
Qed.

Lemma shown_none (sel : string) (l : list string) (f : string -> overlay) :
  (forall lid, ov_show (f lid) = String.eqb sel lid) ->
  ~ In sel l -> filter ov_show (map f l) = [].
Proof.
  intros Hf. induction l as [|x l IH]; [reflexivity|]. intros Hn.
  cbn [map filter]. rewrite Hf.
  destruct (String.eqb_spec sel x) as [->|_]; [exfalso; apply Hn; now left|].
  apply IH. intros H. apply Hn. now right.
Qed.

Lemma shown_one (sel : string) (l : list string) (f : string -> overlay) :
  (forall lid, ov_show (f lid) = String.eqb sel lid) ->
  NoDup l -> In sel l -> filter ov_show (map f l) = [f sel].
Proof.
  intros Hf Hnd. induction Hnd as [|x l Hx Hnd IH]; [intros []|].
  intros Hin. cbn [map filter]. rewrite Hf.
  destruct (String.eqb_spec sel x) as [->|Hne].
  - f_equal. apply (shown_none x); assumption.
  - apply IH. destruct Hin as [->|H]; [congruence|exact H].
Qed.

(** X19. The map has one overlay per available layer, in their order, and
    the time of each is one its layer allows when the tables are
    consistent.  When the available layers are distinct and the selected
    layer is one of them, it is the only overlay shown; when a layer is
    selected that is not available, no overlay is shown; and when none is
    selected, the first available layer is shown. *)
Theorem one_overlay_is_shown (available : list string) (tables : Tables)
    (today selected_layer time_str : string) :
  NoDup available ->
  available <> [] ->
  let ovs := overlays available tables today selected_layer time_str in
  map ov_name ovs = available
  /\ (tables_ok tables ->
      forall ov allowed,
        In ov ovs ->
        lookup (LAYER_TIME_VALUES tables) (ov_name ov) = Some allowed ->
        In (ov_time ov) allowed)
  /\ (selected_layer <> "" -> In selected_layer available ->
      map ov_name (filter ov_show ovs) = [selected_layer])
  /\ (selected_layer <> "" -> ~ In selected_layer available ->
      filter ov_show ovs = [])
  /\ (selected_layer = "" ->
      map ov_name (filter ov_show ovs) = [hd "" available]).
Proof.
  intros Hnd Hne ovs. unfold overlays in ovs.
  destruct available as [|first rest]; [congruence|].
  set (f := fun lid => {| ov_name := lid; ov_time := _; ov_show := _ |}) in ovs.
  split.
  { unfold ovs. rewrite map_map. cbn [ov_name f]. apply map_id. }
  split.
  { intros Hok ov allowed Hin Hal. unfold ovs in Hin. apply in_map_iff in Hin.
    destruct Hin as (lid & <- & _). cbn [f ov_name ov_time] in *.
    eapply choose_time_allowed; eassumption. }
  destruct selected_layer as [|c sel].
  - split; [congruence|]. split; [congruence|]. intros _.
    unfold ovs. rewrite (shown_one first (first :: rest) f).
    + reflexivity.
    + intros lid. cbn [f ov_show truthy]. apply String.eqb_sym.
    + exact Hnd.
    + now left.
  - split; [|split; [|discriminate]].
    + intros _ Hin. unfold ovs. rewrite (shown_one (String c sel) _ f); auto.
    + intros _ Hn. unfold ovs. apply (shown_none (String c sel)); auto.
Qed.

Lemma one_overlay_is_shown_witness :
  map ov_name
    (filter ov_show
       (overlays ["MODIS_Terra_NDVI_8Day"; "VIIRS_SNPP_MODIS_Like_TrueColor"]
          ScenarioMore.no_tables "2023-07-01"
          "VIIRS_SNPP_MODIS_Like_TrueColor" "2023-06-01"))
  = ["VIIRS_SNPP_MODIS_Like_TrueColor"].
Proof.
  apply (one_overlay_is_shown
           ["MODIS_Terra_NDVI_8Day"; "VIIRS_SNPP_MODIS_Like_TrueColor"]
           ScenarioMore.no_tables "2023-07-01"
           "VIIRS_SNPP_MODIS_Like_TrueColor" "2023-06-01").
  - repeat constructor; cbn; intuition discriminate.
  - discriminate.
  - discriminate.
  - right. now left.
Defined.

Lemma _slug_in_class (s : string) : all_chars in_class (_slug s) = true.
Proof.
  unfold _slug. apply HelpersFacts.all_chars_substring,
    HelpersFacts.all_chars_map.
  intros c. rewrite HelpersFacts.in_class_isalnum.
  destruct (isalnum c || _) eqn:E; [exact E|reflexivity].
Qed.

Lemma page_name_no_slash (slugged date : string) :
  all_chars in_class slugged = true ->
  contains "/" date = false ->
  contains "/" ("folium_map_" ++ slugged ++ "_" ++ date ++ ".html") = false.
Proof.
  intros Hs Hd. rewrite !PathFacts.contains_slash_app, Hd,
    (HelpersFacts.in_class_no_slash _ Hs). reflexivity.
Qed.

Lemma save_fallback_spec (mw : MapWorld) (path html : string)
    (h h' : fs_history) :
  save_fallback mw path h = (Done, h') ->
  exists before op, h' = (h ++ before ++ [op])%list /\ holds_page path html op.
Proof.
  unfold save_fallback. destruct (mw_save mw h path); [|discriminate].
  intros [= <-]. exists [], (OpSave path true). now split.
Qed.

Lemma write_spec (mw : MapWorld) (path html : string) (h0 h' : fs_history) :
  (if mw_write mw h0 path html
   then (Done, (h0 ++ [OpWrite path html (mw_write mw h0 path html)])%list)
   else save_fallback mw path
          (h0 ++ [OpWrite path html (mw_write mw h0 path html)])%list)
  = (Done, h') ->
  exists before op, h' = (h0 ++ before ++ [op])%list /\ holds_page path html op.
Proof.
  destruct (mw_write mw h0 path html).
  - intros [= <-]. exists [], (OpWrite path html true). now split.
  - intros H. apply (save_fallback_spec _ _ html) in H.
    destruct H as (before & op & -> & Hop).
    exists (OpWrite path html false :: before), op.
    rewrite <- !app_assoc. now split.
Qed.

(** When the writer of a page returns, the file holds the page. *)
Lemma write_page_spec (mw : MapWorld) (path html : string)
    (h h' : fs_history) :
  write_page mw path html h = (Done, h') ->
  exists before op, h' = (h ++ before ++ [op])%list /\ holds_page path html op.
Proof.
  unfold write_page.
  destruct (mw_exists mw h path) eqn:Hex.
  - destruct (mw_read mw _ path) as [existing|] eqn:Hrd.
    + destruct (String.eqb_spec existing html) as [->|Hne].
      * intros [= <-]. exists [OpExists path true], (OpRead path (Some html)).
        rewrite <- app_assoc. now split.
      * intros H. apply write_spec in H. destruct H as (before & op & -> & Hop).
        exists ([OpExists path true; OpRead path (Some existing)] ++ before)%list,
          op.
        rewrite <- !app_assoc. now split.
    + intros H. apply (save_fallback_spec _ _ html) in H.
      destruct H as (before & op & -> & Hop).
      exists ([OpExists path true; OpRead path None] ++ before)%list, op.
      rewrite <- !app_assoc. now split.
  - intros H. apply write_spec in H. destruct H as (before & op & -> & Hop).
    exists (OpExists path false :: before), op.
    rewrite <- !app_assoc. now split.
Qed.

(** X20. [build_map] always ends with [map_ready] set, and touches no
    other field than [map_src].  It changes [map_src] only when a layer is
    selected and the writer returned; the new value is then
    [/folium_map_<slug>_<date>.html?t=<clock>].  Unless the date is empty,
    that is the name of the file the writer used, and the file holds the
    rendered page: the writer found it there unchanged, or wrote it, or
    saved it. *)
Theorem map_src_names_the_page (mw : MapWorld) (w : World) (st : App.State)
    (h : fs_history) (st' : App.State) (h' : fs_history) :
  build_map mw w st h = (st', h') ->
  App.map_ready st' = true
  /\ st' = set_map_ready true (set_map_src (App.map_src st') st)
  /\ (App.map_src st' = App.map_src st
      \/ exists name,
           App.selected_layer st <> ""
           /\ name = "folium_map_" ++ _slug (App.selected_layer st) ++ "_"
                     ++ App.date_str st ++ ".html"
           /\ App.map_src st' = "/" ++ name ++ "?t=" ++ str_of_N (mw_time mw h')
           /\ (App.date_str st <> "" ->
               contains "/" (App.date_str st) = false ->
               exists html before op,
                 mw_render mw (App.selected_layer st) (App.date_str st)
                   (bbox_of w st) = Some html
                 /\ h' = (h ++ before ++ [op])%list
                 /\ holds_page
                      (path_join (path_join (mw_cwd mw) "assets") name) html op
                 /\ basename
                      (path_join (path_join (mw_cwd mw) "assets") name)
                    = name)).
Proof.
  unfold build_map.
  destruct (_write_folium_map_to_assets mw _ _ _ h) as [r h1] eqn:Hw.
  intros [= <- <-]. split; [reflexivity|].
  destruct r.
  2:{ split; [now destruct st|]. now left. }
  destruct (App.selected_layer st) as [|c sel] eqn:Hsel; cbn [truthy].
  { split; [now destruct st|]. now left. }
  split; [now destruct st|]. right. eexists. split; [discriminate|].
  split; [reflexivity|]. split.
  { cbn [App.map_src set_map_ready set_map_src]. rewrite !str_app_assoc.
    reflexivity. }
  intros Hd Hslash. unfold _write_folium_map_to_assets in Hw.
  destruct (App.date_str st) as [|dc dr] eqn:Hdate; [congruence|].
  cbn [truthy] in Hw.
  destruct (mw_build mw _ _ _); cbn [negb] in Hw; [|discriminate].
  destruct (mw_makedirs mw h _); cbn [negb] in Hw; [|discriminate].
  destruct (mw_render mw _ _ _) as [html|] eqn:Hr; [|discriminate].
  unfold page_path in Hw. cbn [truthy] in Hw.
  apply write_page_spec in Hw. destruct Hw as (before & op & -> & Hop).
  exists html, (OpMakedirs (path_join (mw_cwd mw) "assets") true :: before), op.
  split; [reflexivity|]. split; [now rewrite <- app_assoc|].
  split; [exact Hop|].
  apply PathFacts.basename_join, page_name_no_slash;
    [apply _slug_in_class|exact Hslash].
Qed.

Lemma map_src_names_the_page_witness :
  App.map_src (fst (build_map ScenarioMore.disk Scenario.offline
                      Scenario.paris_form []))
  = "/folium_map_MODIS_Terra_CorrectedReflectance_TrueColor_2023-06-01.html?t=1688169600"
  /\ snd (build_map ScenarioMore.disk Scenario.offline Scenario.paris_form [])
     = [OpMakedirs "/srv/bloomwatch/assets" true;
        OpExists "/srv/bloomwatch/assets/folium_map_MODIS_Terra_CorrectedReflectance_TrueColor_2023-06-01.html" false;
        OpWrite "/srv/bloomwatch/assets/folium_map_MODIS_Terra_CorrectedReflectance_TrueColor_2023-06-01.html" "<html>" true].
Proof.
  destruct (map_src_names_the_page ScenarioMore.disk Scenario.offline
              Scenario.paris_form [] _ _ (surjective_pairing _))
    as (_ & _ & [H|(name & _ & -> & Hsrc & _)]).
  - vm_compute in H. discriminate H.
  - split; [rewrite Hsrc|]; vm_compute; reflexivity.
Defined.

(** With an empty date the two names part: the file is named after today,
    and [map_src] after nothing. *)
Remark map_src_with_an_empty_date :
  App.map_src (fst (build_map ScenarioMore.disk Scenario.offline
                      (Scenario.form "" "" "") []))
  = "/folium_map_MODIS_Terra_CorrectedReflectance_TrueColor_.html?t=1688169600"
  /\ snd (build_map ScenarioMore.disk Scenario.offline (Scenario.form "" "" "") [])
     = [OpMakedirs "/srv/bloomwatch/assets" true;
        OpExists "/srv/bloomwatch/assets/folium_map_MODIS_Terra_CorrectedReflectance_TrueColor_2023-07-01.html" false;
        OpWrite "/srv/bloomwatch/assets/folium_map_MODIS_Terra_CorrectedReflectance_TrueColor_2023-07-01.html" "<html>" true].
Proof. split; vm_compute; reflexivity. Qed.

Lemma in_class_not_space (c : ascii) : in_class c = true -> is_space c = false.
Proof.
  destruct c as [[] [] [] [] [] [] [] []]; cbn; intros H;
    first [reflexivity | discriminate H].
Qed.

Lemma rstrip_fixed (s : string) :
  all_chars in_class s = true -> rstrip s = s.
Proof.
  induction s as [|c s IH]; [reflexivity|]. cbn [all_chars rstrip].
  intros H. apply andb_true_iff in H. destruct H as [Hc Hs].
  rewrite (IH Hs). destruct s; [|reflexivity].
  now rewrite (in_class_not_space _ Hc).
Qed.

Lemma strip_fixed (s : string) : all_chars in_class s = true -> strip s = s.
Proof.
  intros H. unfold strip.
  assert (Hl : lstrip s = s).
  { destruct s as [|c s]; [reflexivity|]. cbn [lstrip all_chars] in *.
    apply andb_true_iff in H. destruct H as [Hc _].
    now rewrite (in_class_not_space _ Hc). }
  rewrite Hl. now apply rstrip_fixed.
Qed.

Lemma in_class_plain (c : ascii) :
  in_class c = true -> Ascii.eqb c " "%char = false /\ Ascii.eqb c "/"%char = false.
Proof.
  destruct c as [[] [] [] [] [] [] [] []]; cbn; intros H;
    first [split; reflexivity | discriminate H].
Qed.

Lemma replace_fixed (s : string) :
  all_chars in_class s = true -> replace_space_slash s = s.
Proof.
  intros H. unfold replace_space_slash.
  rewrite (HelpersFacts.map_chars_fixed in_class _ s); [|
    intros c Hc; now rewrite (proj1 (in_class_plain c Hc)) | exact H].
  apply (HelpersFacts.map_chars_fixed in_class); [|exact H].
  intros c Hc. now rewrite (proj2 (in_class_plain c Hc)).
Qed.

Lemma slug_fixed (s : string) : all_chars in_class s = true -> slug s = s.
Proof.
  intros H. unfold slug. rewrite (strip_fixed _ H).
  apply (HelpersFacts.map_chars_fixed in_class); [|exact H].
  intros c Hc. now rewrite Hc.
Qed.

(** X21. In the refactored application the name in [map_src] and the name
    of the file are made by two different functions.  They agree when the
    selected layer is made of letters, digits, [-] and [_] only, and the
    date is not empty: [map_src] is then the path the writer returns when it
    succeeds, followed by the clock.  [map_src] gets that value whether the
    writer succeeded or not. *)
Theorem refactored_map_src_names_the_page (mw : MapWorld) (w : World)
    (st : App.State) (h : fs_history) :
  App.selected_layer st <> "" ->
  all_chars in_class (App.selected_layer st) = true ->
  App.date_str st <> "" ->
  let '(returned, h1) :=
    write_folium_map_to_assets mw (App.selected_layer st) (App.date_str st)
      (service_bbox_of w st) h in
  let '(st', h') := service_build_map mw w st h in
  h' = h1
  /\ App.map_src st'
     = "/" ++ service_filename (App.selected_layer st) (App.date_str st)
       ++ "?t=" ++ str_of_N (mw_time mw h')
  /\ (returned = ""
      \/ returned
         = "/" ++ service_filename (App.selected_layer st) (App.date_str st)).
Proof.
  intros Hsel Hcls Hdate. unfold service_build_map.
  destruct (write_folium_map_to_assets mw _ _ _ h) as [returned h1] eqn:Hw.
  split; [reflexivity|].
  destruct (App.selected_layer st) as [|c sel] eqn:E; [congruence|].
  destruct (App.date_str st) as [|dc dr] eqn:Ed; [congruence|].
  cbn [truthy]. split.
  - cbn [App.map_src set_map_ready set_map_src]. unfold service_filename.
    cbn [truthy]. rewrite (slug_fixed _ Hcls), (replace_fixed _ Hcls).
    rewrite !str_app_assoc. reflexivity.
  - unfold write_folium_map_to_assets in Hw.
    destruct (mw_makedirs mw h _); cbn [negb] in Hw;
      [|injection Hw as <- _; now left].
    destruct (mw_build mw _ _ _); cbn [negb] in Hw;
      [|injection Hw as <- _; now left].
    destruct (mw_save mw _ _); injection Hw as <- _; [now right|now left].
Qed.

Lemma refactored_map_src_names_the_page_witness :
  App.map_src (fst (service_build_map ScenarioMore.disk Scenario.offline
                      Scenario.paris_form []))
  = "/folium_map_MODIS_Terra_CorrectedReflectance_TrueColor_2023-06-01.html?t=1688169600".
Proof.
  pose proof (refactored_map_src_names_the_page ScenarioMore.disk
                Scenario.offline Scenario.paris_form []
                ltac:(discriminate) eq_refl ltac:(discriminate)) as H.
  destruct (write_folium_map_to_assets _ _ _ _ _) as [returned h1].
  destruct (service_build_map _ _ _ _) as [st' h'] eqn:E.
  cbn [fst]. destruct H as (_ & Hm & _). rewrite Hm.
  apply (f_equal snd) in E. cbn [snd] in E. subst h'.
  vm_compute. reflexivity.
Defined.

(** A layer name with a dot: the file keeps the dot, [map_src] does not. *)
Remark refactored_names_part :
  service_filename "GHRSST_L4_MUR_v4.1" "2023-06-01"
  = "folium_map_GHRSST_L4_MUR_v4.1_2023-06-01.html"
  /\ "folium_map_" ++ slug "GHRSST_L4_MUR_v4.1" ++ "_2023-06-01.html"
     = "folium_map_GHRSST_L4_MUR_v4_1_2023-06-01.html".
Proof. split; reflexivity. Qed.

End MapFacts.

(** ** Geocoding *)

Module GeocodeFacts.
Import App AppMore AppFacts.
Local Open Scope list_scope.

(** What [locate] does when it asks the geocoder. *)
Lemma locate_geocoded (w : World) (st : State) (tr : trace)
    (lat lon : option Q) (st1 : State) (q : string)
    (a : http (list (string * string))) (rest : list event) :
  locate w st tr = (lat, lon, st1, tr ++ EvGeocode q a :: rest) ->
  rest = []
  /\ q = PyStr.strip (input_address st) /\ q <> ""%string
  /\ a = geocode_get w tr q
  /\ (_safe_float w (input_lat st) = None \/ _safe_float w (input_lon st) = None)
  /\ match a with
     | HttpJson ((la, lo) :: _) =>
         match py_float w la, py_float w lo with
         | Some x, Some y =>
             lat = Some x /\ lon = Some y
             /\ st1 = set_input_lon (PyStr.format_f 6 y)
                        (set_input_lat (PyStr.format_f 6 x)
                           (set_fetch_status MSG_GEOCODING st))
         | _, _ =>
             lat = _safe_float w (input_lat st)
             /\ lon = _safe_float w (input_lon st)
             /\ st1 = set_fetch_status MSG_GEOCODING st
         end
     | _ =>
         lat = _safe_float w (input_lat st)
         /\ lon = _safe_float w (input_lon st)
         /\ st1 = set_fetch_status MSG_GEOCODING st
     end.
Proof.
  unfold locate.
  destruct ((is_none (_safe_float w (input_lat st))
             || is_none (_safe_float w (input_lon st)))
            && PyStr.truthy (PyStr.strip (input_address st))) eqn:E.
  2:{ intros [= _ _ _ H]. exfalso.
      rewrite <- (app_nil_r tr) in H at 1. apply app_inv_head in H.
      discriminate H. }
  apply andb_true_iff in E. destruct E as [Hnone Haddr].
  assert (Hmiss : _safe_float w (input_lat st) = None
                  \/ _safe_float w (input_lon st) = None).
  { apply orb_true_iff in Hnone.
    destruct Hnone as [H|H]; [left|right];
      match type of H with is_none ?o = true => destruct o end;
      first [reflexivity | discriminate H]. }
  cbn [input_address set_fetch_status].
  unfold _geocode_address, log.
  set (q0 := PyStr.strip (input_address st)) in *.
  assert (Hq : q0 <> ""%string) by (destruct q0; [discriminate Haddr|discriminate]).
  destruct (geocode_get w tr q0) as [|[|[la lo] more]] eqn:Ha.
  - intros [= <- <- <- H]. apply app_inv_head in H. injection H as <- <- <-.
    repeat split; auto.
  - intros [= <- <- <- H]. apply app_inv_head in H. injection H as <- <- <-.
    repeat split; auto.
  - destruct (py_float w la) as [x|] eqn:Hx; [destruct (py_float w lo) as [y|] eqn:Hy|].
    + intros [= <- <- <- H]. apply app_inv_head in H. injection H as <- <- <-.
      rewrite Hx, Hy. repeat split; auto.
    + intros [= <- <- <- H]. apply app_inv_head in H. injection H as <- <- <-.
      rewrite Hx, Hy. repeat split; auto.
    + intros [= <- <- <- H]. apply app_inv_head in H. injection H as <- <- <-.
      rewrite Hx. repeat split; auto.
Qed.

Lemma inputs_after_locate (w : World) (st : State) (tr : trace) (o : outcome)
    (st' : State) (evs : list event) :
  run_post w st tr o st' evs ->
  exists lat lon st1 ev_loc rest,
    locate w (set_fetch_status MSG_START st) tr = (lat, lon, st1, tr ++ ev_loc)
    /\ evs = ev_loc ++ rest
    /\ Forall (fun e => is_geocode e = false) rest
    /\ (forall la lo, lat = Some la -> lon = Some lo ->
        o <> Returned AtNoLocation /\ Forall (at_point la lo) rest)
    /\ (lat = None \/ lon = None -> o = Returned AtNoLocation /\ rest = [])
    /\ input_lat st' = input_lat st1 /\ input_lon st' = input_lon st1.
Proof.
  intros (lat & lon & st1 & l1 & l2 & l3 & l4 & Hloc & -> & _ & H2 & H3 & H4
          & Hsearch & Hsome & Ho).
  exists lat, lon, st1, l1, (l2 ++ l3 ++ l4). split; [exact Hloc|].
  split; [reflexivity|]. split.
  { rewrite !Forall_app. repeat split.
    - eapply Forall_flip; [|exact H2]. now intros [].
    - eapply Forall_flip; [|exact H3]. now intros [].
    - eapply Forall_flip; [|exact H4]. now intros []. }
  split.
  { intros la lo -> ->. split.
    - intros ->. destruct Ho as ([H|H] & _); discriminate H.
    - destruct (Hsearch la lo eq_refl eq_refl) as (r & Hs).
      apply search_trace in Hs. destruct Hs as (evs & He & _ & Hp & _).
      rewrite app_assoc in He. apply app_inv_head in He. subst evs.
      rewrite !Forall_app. repeat split; [exact Hp| |].
      + eapply Forall_impl; [|exact H3]. now intros [].
      + eapply Forall_impl; [|exact H4]. now intros []. }
  split.
  { intros Hnone. destruct Hsome as [->|(la & lo & -> & ->)].
    - destruct Ho as (_ & -> & -> & -> & _). now split.
    - destruct Hnone; discriminate. }
  destruct o as [[]|e].
  - destruct Ho as (_ & _ & _ & _ & ->). split; reflexivity.
  - destruct Ho as (_ & _ & ->). split; reflexivity.
  - destruct Ho as (_ & _ & ->). split; reflexivity.
  - destruct Ho as (_ & -> & _). split; reflexivity.
  - destruct Ho as (_ & _ & _ & _ & ->). split; reflexivity.
  - destruct Ho as (_ & _ & dir & path & meta & bands & png & rest & _ & _ & ->).
    split; reflexivity.
  - destruct Ho as (_ & -> & _). split; reflexivity.
Qed.

(** X22. A run of [fetch_tile] asks the geocoder at most once, before
    anything else, and only when a typed coordinate is missing and the
    address is not blank; the query is the stripped address.  When the
    first hit of the answer parses, the run goes on with that coordinate:
    every point request carries it, and the two typed texts become the
    coordinate printed with six decimals.  In every other case the run
    ends at the no-location exit without any other request, and the typed
    texts are as they were. *)
Theorem geocoded_coordinate_is_searched (w : World) (st : State) (tr : trace)
    (o : outcome) (st' : State) (q : string)
    (a : http (list (string * string))) (rest : list event) :
  fetch_tile w st tr = (o, st', tr ++ EvGeocode q a :: rest) ->
  q = PyStr.strip (input_address st) /\ q <> ""%string
  /\ a = geocode_get w tr q
  /\ (_safe_float w (input_lat st) = None \/ _safe_float w (input_lon st) = None)
  /\ Forall (fun e => is_geocode e = false) rest
  /\ ((exists la lo more x y,
         a = HttpJson ((la, lo) :: more)
         /\ py_float w la = Some x /\ py_float w lo = Some y
         /\ o <> Returned AtNoLocation
         /\ input_lat st' = PyStr.format_f 6 x
         /\ input_lon st' = PyStr.format_f 6 y
         /\ Forall (at_point x y) rest)
      \/ (o = Returned AtNoLocation /\ rest = []
          /\ input_lat st' = input_lat st /\ input_lon st' = input_lon st)).
Proof.
  intros Hrun. destruct (fetch_tile_run _ _ _ _ _ _ Hrun) as (evs & He & Hpost).
  apply app_inv_head in He. subst evs.
  destruct (inputs_after_locate _ _ _ _ _ _ Hpost)
    as (lat & lon & st1 & ev_loc & rest' & Hloc & He & Hng & Hsome & Hnone
        & Hla & Hlo).
  destruct (locate_spec _ _ _ _ _ _ _ Hloc) as (l1 & Hl1 & Hgeo & _).
  apply app_inv_head in Hl1. subst l1.
  destruct ev_loc as [|e1 ev_loc].
  { cbn [app] in He. subst rest'. inversion Hng as [|? ? H1 _]. discriminate H1. }
  injection He as <- He.
  destruct (locate_geocoded _ _ _ _ _ _ _ _ _ Hloc)
    as (-> & Hq & Hqne & Ha & Hmiss & Hcase).
  cbn [app] in He. subst rest'. cbn [input_address set_fetch_status] in *.
  split; [exact Hq|]. split; [exact Hqne|]. split; [exact Ha|].
  split; [exact Hmiss|]. split; [exact Hng|].
  assert (Hno : lat = _safe_float w (input_lat st)
                /\ lon = _safe_float w (input_lon st)
                /\ st1 = set_fetch_status MSG_GEOCODING
                           (set_fetch_status MSG_START st) ->
                o = Returned AtNoLocation /\ rest = []
                /\ input_lat st' = input_lat st /\ input_lon st' = input_lon st).
  { intros (-> & -> & ->). destruct (Hnone Hmiss) as [-> ->].
    repeat split; [rewrite Hla|rewrite Hlo]; reflexivity. }
  destruct a as [|[|[la lo] more]]; [right; auto|right; auto|].
  destruct (py_float w la) as [x|] eqn:Hx; [|right; auto].
  destruct (py_float w lo) as [y|] eqn:Hy; [|right; auto].
  destruct Hcase as (-> & -> & ->). left.
  destruct (Hsome x y eq_refl eq_refl) as [Ho Hp].
  exists la, lo, more, x, y. repeat split; auto.
Qed.

Lemma geocoded_coordinate_is_searched_witness :
  exists a rest,
    snd (fetch_tile ScenarioMore.gazetteer ScenarioMore.address_form [])
    = EvGeocode "Paris" a :: rest
    /\ input_lat (snd (fst (fetch_tile ScenarioMore.gazetteer
                              ScenarioMore.address_form [])))
       = "48.856600"%string
    /\ Forall (at_point Scenario.PARIS_LAT Scenario.PARIS_LON) rest.
Proof.
  eexists _, _. split; [vm_compute; reflexivity|].
  match goal with
  | |- context [Forall _ ?r] =>
      destruct (geocoded_coordinate_is_searched ScenarioMore.gazetteer
                  ScenarioMore.address_form [] _ _ "Paris"
                  (HttpJson [("48.8566", "2.3522")]%string) r
                  ltac:(vm_compute; reflexivity))
        as (_ & _ & _ & _ & _ & [(la & lo & more & x & y & Ha & Hx & Hy & _ & Hlat & _ & Hp)|(Ho & _)])
  end.
  - injection Ha as <- <- _. vm_compute in Hx, Hy.
    injection Hx as <-. injection Hy as <-.
    split; [vm_compute; reflexivity|exact Hp].
  - vm_compute in Ho. discriminate Ho.
Defined.

End GeocodeFacts.

(** ** The crop classification handlers *)

Module CropFacts.
Import PyStr Crop.
Local Open Scope string_scope.

Lemma persist_spec (cw : CropWorld) (out_path content : string) (h : history)
    (r : option string) (h' : history) :
  persist cw out_path content h = (r, h') ->
  exists ok,
    h' = (h ++ [OpWrite out_path content ok])%list
    /\ r = if ok then Some out_path else None.
Proof. unfold persist. intros [= <- <-]. eauto. Qed.

(** What [persist_upload] returns is the source path of the first file,
    or a file [crop_upload<ext>] of the assets directory that was just
    written. *)
Lemma persist_upload_spec (cw : CropWorld) (assets_dir : string)
    (f0 : option upload) (h : history) (p : string) (h' : history) :
  persist_upload cw assets_dir f0 h = (Some p, h') ->
  exists f ops,
    f0 = Some f /\ h' = (h ++ ops)%list
    /\ ((p = up_path f /\ p <> "")
        \/ exists ext content,
             p = path_join assets_dir ("crop_upload" ++ ext)
             /\ In (OpWrite p content true) ops).
Proof.
  unfold persist_upload. destruct f0 as [f|]; [|discriminate].
  intros H. exists f.
  destruct (up_path f) as [|c src] eqn:Hp; cbn [truthy] in H.
  - destruct (truthy (up_url f)).
    + destruct (cw_download cw h (up_url f)) as [content|]; [|discriminate].
      apply persist_spec in H. destruct H as ([] & -> & [= ->]).
      eexists. rewrite <- app_assoc. split; [reflexivity|]. split; [reflexivity|].
      right. eexists _, content. split; [reflexivity|].
      apply in_or_app. right. now left.
    + destruct (truthy (up_name f) && truthy (up_data f)); [|discriminate].
      apply persist_spec in H. destruct H as ([] & -> & [= ->]).
      eexists. split; [reflexivity|]. split; [reflexivity|].
      right. eexists _, _. split; [reflexivity|]. now left.
  - destruct (cw_read cw h (String c src)) as [content|].
    + destruct (persist cw _ content _) as [r h2] eqn:Hw.
      apply persist_spec in Hw. destruct Hw as (ok & -> & ->).
      destruct ok; injection H as <- <-; eexists; rewrite <- app_assoc;
        (split; [reflexivity|]); (split; [reflexivity|]).
      * right. eexists _, content. split; [reflexivity|].
        apply in_or_app. right. now left.
      * left. split; [reflexivity|discriminate].
    + injection H as <- <-. eexists. split; [reflexivity|].
      split; [reflexivity|]. left. split; [reflexivity|discriminate].
Qed.

Lemma persist_upload_trace (cw : CropWorld) (assets_dir : string)
    (f0 : option upload) (h : history) (r : option string) (h' : history) :
  persist_upload cw assets_dir f0 h = (r, h') ->
  exists ops, h' = (h ++ ops)%list.
Proof.
  unfold persist_upload, persist. destruct f0 as [f|].
  2:{ intros [= _ <-]. exists []. now rewrite app_nil_r. }
  destruct (truthy (up_path f)).
  { destruct (cw_read cw h (up_path f)).
    - destruct (cw_write cw _ _ _); intros [= _ <-]; rewrite <- app_assoc; eauto.
    - intros [= _ <-]. eauto. }
  destruct (truthy (up_url f)).
  { destruct (cw_download cw h (up_url f)); intros [= _ <-];
      rewrite <- ?app_assoc; eauto. }
  destruct (truthy (up_name f) && truthy (up_data f)); intros [= _ <-]; eauto.
  exists []. now rewrite app_nil_r.
Qed.

Local Ltac empty_case k :=
  intros [= <- <-];
  cbn [crop_status crop_file_path crop_file_name with_upload with_crop_status];
  split; [reflexivity|]; split; [reflexivity|];
  split; [intros _; k | intros H; now contradiction H].

(** X23. [crop_on_drop] changes [crop_status], [crop_file_path] and
    [crop_file_name] only, and the name is always the base name of the
    path.  It keeps a path only for a file that [os.path.exists] has just
    confirmed: the status is then [Ready: <name> (<ext>)], and the path is
    a file [crop_upload<ext>] of the assets directory that was written
    during the call, or the source path of the first file when copying it
    failed.  Otherwise the path and the name are empty. *)
Theorem uploaded_file_exists (cw : CropWorld) (files : list (option upload))
    (st : CropState) (h : history) (st' : CropState) (h' : history) :
  crop_on_drop cw files st h = (st', h') ->
  st' = with_upload (crop_status st') (crop_file_path st') (crop_file_name st') st
  /\ crop_file_name st' = basename (crop_file_path st')
  /\ (crop_file_path st' = "" ->
      (crop_status st' = msg_selected 0 /\ files = [])
      \/ crop_status st' = MSG_NOT_PERSISTED
      \/ crop_status st' = MSG_UPLOAD_FAILED)
  /\ (crop_file_path st' <> "" ->
      crop_status st' = msg_ready cw (crop_file_path st')
      /\ exists f0 rest before,
           files = Some f0 :: rest
           /\ h' = (h ++ before ++ [OpExists (crop_file_path st') true])%list
           /\ (crop_file_path st' = up_path f0
               \/ exists ext content,
                    crop_file_path st'
                    = path_join (path_join (cw_cwd cw) "assets")
                        ("crop_upload" ++ ext)
                    /\ In (OpWrite (crop_file_path st') content true) before)).
Proof.
  unfold crop_on_drop. destruct files as [|f0 rest].
  { empty_case ltac:(left; split; reflexivity). }
  destruct (cw_makedirs cw h _); cbn [negb].
  2:{ empty_case ltac:(right; right; reflexivity). }
  destruct (persist_upload cw _ f0 _) as [local h2] eqn:Hp.
  destruct local as [[|c p]|].
  - empty_case ltac:(right; left; reflexivity).
  - apply persist_upload_spec in Hp.
    destruct Hp as (f & ops & -> & -> & Hwhere).
    destruct (cw_exists cw _ (String c p)).
    + intros [= <- <-]. cbn [crop_status crop_file_path crop_file_name with_upload
                               with_crop_status].
      split; [reflexivity|]. split; [reflexivity|]. split; [discriminate|].
      intros _. split; [reflexivity|].
      exists f, rest, (OpMakedirs (path_join (cw_cwd cw) "assets") true :: ops).
      split; [reflexivity|]. split; [now rewrite <- !app_assoc|].
      destruct Hwhere as [[Hsrc _]|(ext & content & Hpath & Hin)].
      * now left.
      * right. exists ext, content. split; [exact Hpath|]. now right.
    + empty_case ltac:(right; left; reflexivity).
  - empty_case ltac:(right; left; reflexivity).
Qed.

Lemma uploaded_file_exists_witness :
  crop_file_path
    (fst (crop_on_drop ScenarioMore.studio [Some ScenarioMore.dropped]
            ScenarioMore.no_crop []))
  = "/tmp/upload_1.tif"
  /\ crop_file_name
       (fst (crop_on_drop ScenarioMore.studio [Some ScenarioMore.dropped]
               ScenarioMore.no_crop []))
     = "upload_1.tif".
Proof.
  destruct (uploaded_file_exists ScenarioMore.studio [Some ScenarioMore.dropped]
              ScenarioMore.no_crop [] _ _ (surjective_pairing _))
    as (_ & Hname & _).
  split; [vm_compute; reflexivity|]. rewrite Hname. vm_compute. reflexivity.
Defined.

Lemma fetch_to_assets_spec (cw : CropWorld) (src name : string) (h : history)
    (r : option string) (h' : history) :
  contains "/" name = false ->
  _fetch_to_assets cw src name h = (r, h') ->
  exists ops,
    h' = (h ++ ops)%list
    /\ Forall (fun o => is_predict o = false) ops
    /\ match r with
       | Some value => thumbnail cw name value ops
       | None => True
       end.
Proof.
  intros Hname. unfold _fetch_to_assets.
  destruct (cw_makedirs cw h _); cbn [negb].
  2:{ intros [= <- <-]. eexists. split; [reflexivity|].
      split; [repeat constructor|exact I]. }
  set (remote := startswith src "http://" || startswith src "https://").
  set (content := if remote then _ else _).
  set (o2 := if remote then OpDownload src content else OpRead src content).
  assert (Ho2 : is_predict o2 = false) by (unfold o2; now destruct remote).
  destruct content as [data|].
  2:{ intros [= <- <-]. eexists. rewrite <- app_assoc. split; [reflexivity|].
      split; [repeat constructor; exact Ho2|now left]. }
  destruct (persist cw _ data _) as [p h3] eqn:Hw.
  apply persist_spec in Hw. destruct Hw as (ok & -> & ->).
  destruct ok; intros [= <- <-]; eexists; rewrite <- !app_assoc;
    (split; [reflexivity|]); (split; [repeat constructor; exact Ho2|]).
  - right. split; [now rewrite (PathFacts.basename_join _ _ Hname)|].
    apply Exists_cons_tl, Exists_cons_tl, Exists_cons_hd.
    cbn [wrote]. apply String.eqb_refl.
  - now left.
Qed.

Lemma thumbnail_later (cw : CropWorld) (name value : string)
    (before ops after : history) :
  thumbnail cw name value ops ->
  thumbnail cw name value (before ++ ops ++ after)%list.
Proof.
  intros [H|[H He]]; [now left|right]. split; [exact H|].
  apply Exists_app. right. apply Exists_app. now left.
Qed.

(** The four fetches. *)
Lemma fetch_images_spec (cw : CropWorld) (t1 t2 t3 pred : string)
    (st : CropState) (h : history) (e : ended) (st' : CropState)
    (h' : history) :
  fetch_images cw t1 t2 t3 pred st h = (e, st', h') ->
  exists ops,
    h' = (h ++ ops)%list
    /\ Forall (fun o => is_predict o = false) ops
    /\ match e with
       | Raised => st' = st
       | Returned =>
           exists v1 v2 v3 v4,
             st' = with_api_status
                     (if truthy v4 then MSG_PREDICTION_READY else MSG_NOT_FETCHED)
                     (with_images v1 v2 v3 v4 st)
             /\ thumbnail cw "crop_t1.png" v1 ops
             /\ thumbnail cw "crop_t2.png" v2 ops
             /\ thumbnail cw "crop_t3.png" v3 ops
             /\ thumbnail cw "crop_pred.png" v4 ops
       end.
Proof.
  unfold fetch_images.
  destruct (_fetch_to_assets cw t1 _ h) as [r1 h1] eqn:H1.
  apply fetch_to_assets_spec in H1; [|reflexivity].
  destruct H1 as (o1 & -> & Hp1 & Hr1).
  destruct r1 as [v1|].
  2:{ intros [= <- <- <-]. exists o1. now repeat split. }
  destruct (_fetch_to_assets cw t2 _ _) as [r2 h2] eqn:H2.
  apply fetch_to_assets_spec in H2; [|reflexivity].
  destruct H2 as (o2 & -> & Hp2 & Hr2).
  destruct r2 as [v2|].
  2:{ intros [= <- <- <-]. exists (o1 ++ o2)%list. rewrite app_assoc.
      split; [reflexivity|]. split; [apply Forall_app; now split|reflexivity]. }
  destruct (_fetch_to_assets cw t3 _ _) as [r3 h3] eqn:H3.
  apply fetch_to_assets_spec in H3; [|reflexivity].
  destruct H3 as (o3 & -> & Hp3 & Hr3).
  destruct r3 as [v3|].
  2:{ intros [= <- <- <-]. exists (o1 ++ o2 ++ o3)%list. rewrite !app_assoc.
      split; [reflexivity|].
      split; [rewrite !Forall_app; now repeat split|reflexivity]. }
  destruct (_fetch_to_assets cw pred _ _) as [r4 h4] eqn:H4.
  apply fetch_to_assets_spec in H4; [|reflexivity].
  destruct H4 as (o4 & -> & Hp4 & Hr4).
  destruct r4 as [v4|]; intros [= <- <- <-];
    exists (o1 ++ o2 ++ o3 ++ o4)%list; rewrite !app_assoc.
  2:{ split; [reflexivity|].
      split; [rewrite !Forall_app; now repeat split|reflexivity]. }
  split; [reflexivity|]. split; [rewrite !Forall_app; now repeat split|].
  exists v1, v2, v3, v4. split; [reflexivity|]. rewrite <- !app_assoc.
  split; [apply (thumbnail_later cw _ _ [] o1 (o2 ++ o3 ++ o4)%list), Hr1|].
  split; [apply (thumbnail_later cw _ _ o1 o2 (o3 ++ o4)%list), Hr2|].
  split.
  - rewrite (app_assoc o1 o2). apply (thumbnail_later cw _ _ (o1 ++ o2)%list o3 o4), Hr3.
  - rewrite (app_assoc o1 o2), (app_assoc (o1 ++ o2) o3).
    rewrite <- (app_nil_r o4).
    apply (thumbnail_later cw _ _ ((o1 ++ o2) ++ o3)%list o4 []), Hr4.
Qed.

(** X24. [crop_send] never changes the selected file.  It calls the model
    at most once, for the selected file, and only after [os.path.exists]
    has confirmed the file and when the client library is installed.  The
    four images change only when the model answered with four files and the
    handler returns: each is then empty or the public name of a file of the
    assets directory that was written during the call, and the status is
    [Prediction ready.] exactly when the prediction image is not empty,
    whatever became of the three others.  When an exception leaves the
    handler the images are as they were. *)
Theorem prediction_ready_means_image (cw : CropWorld) (st : CropState)
    (h : history) (e : ended) (st' : CropState) (h' : history) :
  crop_send cw st h = (e, st', h') ->
  exists ops,
    h' = (h ++ ops)%list
    /\ crop_file_path st' = crop_file_path st
    /\ crop_file_name st' = crop_file_name st
    /\ (forall f ans,
          In (OpPredict f ans) ops ->
          f = crop_file_path st /\ f <> "" /\ cw_client cw = true
          /\ exists rest,
               ops = OpExists f true :: OpPredict f ans :: rest
               /\ Forall (fun o => is_predict o = false) rest)
    /\ ((crop_t1 st' = crop_t1 st /\ crop_t2 st' = crop_t2 st
         /\ crop_t3 st' = crop_t3 st /\ crop_pred_img st' = crop_pred_img st)
        \/ (e = Returned
            /\ (exists f t1 t2 t3 pred more,
                  In (OpPredict f (PredictFiles t1 t2 t3 pred more)) ops)
            /\ thumbnail cw "crop_t1.png" (crop_t1 st') ops
            /\ thumbnail cw "crop_t2.png" (crop_t2 st') ops
            /\ thumbnail cw "crop_t3.png" (crop_t3 st') ops
            /\ thumbnail cw "crop_pred.png" (crop_pred_img st') ops
            /\ ((crop_api_status st' = MSG_PREDICTION_READY
                 /\ crop_pred_img st' = "/crop_pred.png")
                \/ (crop_api_status st' = MSG_NOT_FETCHED
                    /\ crop_pred_img st' = ""))))
    /\ (e = Raised ->
        crop_t1 st' = crop_t1 st /\ crop_t2 st' = crop_t2 st
        /\ crop_t3 st' = crop_t3 st /\ crop_pred_img st' = crop_pred_img st
        /\ crop_api_status st' = MSG_CALLING).
Proof.
  unfold crop_send.
  destruct (crop_file_path st) as [|c p] eqn:Hpath; cbn [truthy negb].
  { intros [= <- <- <-]. exists []. rewrite app_nil_r. cbn.
    split; [reflexivity|]. split; [exact Hpath|]. split; [reflexivity|].
    split; [intros f ans []|]. split; [left; now repeat split|discriminate]. }
  destruct (cw_exists cw h (String c p)); cbn [negb].
  2:{ intros [= <- <- <-]. eexists. split; [reflexivity|]. cbn.
      split; [exact Hpath|]. split; [reflexivity|]. split.
      - intros f ans [H|[]]. discriminate H.
      - split; [left; now repeat split|discriminate]. }
  destruct (cw_client cw) eqn:Hclient; cbn [negb].
  2:{ intros [= <- <- <-]. eexists. split; [reflexivity|]. cbn.
      split; [exact Hpath|]. split; [reflexivity|]. split.
      - intros f ans [H|[]]. discriminate H.
      - split; [left; now repeat split|discriminate]. }
  set (st0 := with_crop_status "" (with_api_status MSG_CALLING st)).
  assert (Hcall : forall ans rest f a,
             Forall (fun o => is_predict o = false) rest ->
             In (OpPredict f a)
                (OpExists (String c p) true :: OpPredict (String c p) ans :: rest) ->
             f = String c p /\ f <> "" /\ true = true
             /\ exists rest',
                  OpExists (String c p) true :: OpPredict (String c p) ans :: rest
                  = OpExists f true :: OpPredict f a :: rest'
                  /\ Forall (fun o => is_predict o = false) rest').
  { intros ans rest f a Hrest [H|[H|H]].
    - discriminate H.
    - injection H as <- <-. split; [reflexivity|]. split; [discriminate|].
      split; [reflexivity|]. exists rest. now split.
    - exfalso. rewrite Forall_forall in Hrest. specialize (Hrest _ H).
      discriminate Hrest. }
  destruct (cw_predict cw _ (String c p)) as [err|shown|t1 t2 t3 pred more] eqn:Hres.
  - intros [= <- <- <-]. eexists. rewrite <- app_assoc. split; [reflexivity|].
    cbn [crop_file_path crop_file_name with_api_status with_crop_status st0
           crop_t1 crop_t2 crop_t3 crop_pred_img crop_api_status].
    split; [exact Hpath|]. split; [reflexivity|]. split.
    + intros f a Hin. apply (Hcall _ [] f a); [constructor|exact Hin].
    + split; [left; now repeat split|discriminate].
  - intros [= <- <- <-]. eexists. rewrite <- app_assoc. split; [reflexivity|].
    cbn [crop_file_path crop_file_name with_api_status with_crop_status st0
           crop_t1 crop_t2 crop_t3 crop_pred_img crop_api_status].
    split; [exact Hpath|]. split; [reflexivity|]. split.
    + intros f a Hin. apply (Hcall _ [] f a); [constructor|exact Hin].
    + split; [left; now repeat split|discriminate].
  - intros H. apply fetch_images_spec in H.
    destruct H as (ops & -> & Hnp & He).
    exists (OpExists (String c p) true
            :: OpPredict (String c p) (PredictFiles t1 t2 t3 pred more) :: ops).
    rewrite <- !app_assoc. split; [reflexivity|].
    assert (Hlater : forall name v,
               thumbnail cw name v ops ->
               thumbnail cw name v
                 (OpExists (String c p) true
                  :: OpPredict (String c p) (PredictFiles t1 t2 t3 pred more)
                  :: ops)).
    { intros name v Ht.
      apply (thumbnail_later cw name v
               [OpExists (String c p) true;
                OpPredict (String c p) (PredictFiles t1 t2 t3 pred more)]
               ops []) in Ht.
      now rewrite app_nil_r in Ht. }
    destruct e.
    + destruct He as (v1 & v2 & v3 & v4 & -> & T1 & T2 & T3 & T4).
      cbn [crop_file_path crop_file_name with_api_status with_crop_status
             with_images st0 crop_t1 crop_t2 crop_t3 crop_pred_img
             crop_api_status].
      split; [exact Hpath|]. split; [reflexivity|]. split.
      * intros f a Hin. apply (Hcall _ ops f a); [exact Hnp|exact Hin].
      * split; [|discriminate]. right. split; [reflexivity|]. split.
        { eexists _, _, _, _, _, _. right. left. reflexivity. }
        split; [now apply Hlater|]. split; [now apply Hlater|].
        split; [now apply Hlater|]. split; [now apply Hlater|].
        destruct T4 as [->|[-> _]]; [right|left]; now split.
    + subst st'.
      cbn [crop_file_path crop_file_name with_api_status with_crop_status
             st0 crop_t1 crop_t2 crop_t3 crop_pred_img crop_api_status].
      split; [exact Hpath|]. split; [reflexivity|]. split.
      * intros f a Hin. apply (Hcall _ ops f a); [exact Hnp|exact Hin].
      * split; [left; now repeat split|]. intros _. now repeat split.
Qed.

Lemma prediction_ready_means_image_witness :
  crop_api_status
    (snd (fst (crop_send ScenarioMore.studio ScenarioMore.selected_crop [])))
  = MSG_PREDICTION_READY
  /\ crop_pred_img
       (snd (fst (crop_send ScenarioMore.studio ScenarioMore.selected_crop [])))
     = "/crop_pred.png".
Proof.
  destruct (prediction_ready_means_image ScenarioMore.studio
              ScenarioMore.selected_crop [] _ _ _ (AppFacts.triple_eta _))
    as (ops & _ & _ & _ & _ & [(_ & _ & _ & H)|(_ & _ & _ & _ & _ & _ & [H|[H _]])] & _).
  - vm_compute in H. discriminate H.
  - exact H.
  - vm_compute in H. discriminate H.
Defined.

End CropFacts.

(** ** The bands of the tile *)

Module StackFacts.
Import App AppMore AppFacts AppMoreFacts Stack.
Local Open Scope list_scope.

Lemma read_data_app (a b : list event) :
  read_data (a ++ b) = read_data a ++ read_data b.
Proof.
  induction a as [|e a IH]; [reflexivity|].
  destruct e as [| | | | | |? ? ? [|data]| | |]; cbn [read_data app];
    rewrite ?IH; reflexivity.
Qed.

Lemma read_data_none (evs : list event) :
  Forall (fun e => is_probe_or_read e = false) evs -> read_data evs = [].
Proof.
  induction 1 as [|e evs He _ IH]; [reflexivity|].
  destruct e as [| | | | | |? ? ? [|data]| | |]; cbn [read_data];
    first [exact IH | discriminate He].
Qed.

Lemma fill_meta_first (meta : option profile) (data : band) (more : list band) :
  fold_left fill_meta more (fill_meta meta data)
  = match meta with
    | Some m => Some m
    | None => Some (profile_of data)
    end.
Proof.
  assert (H : forall m, fold_left fill_meta more (Some m) = Some m).
  { induction more as [|x more IH]; intros m; [reflexivity|apply IH]. }
  destruct meta as [m|]; cbn [fill_meta]; apply H.
Qed.

(** The inner loop stacks the windows it reads, in order. *)
Lemma read_bands_data (w : World) (bearer : option string) (box : bbox)
    (hrefs : list (option string)) (acc : stack) (st : State) (tr : trace)
    (acc' : stack) (st' : State) (tr' : trace) :
  read_bands w bearer box hrefs acc st tr = (Next acc', st', tr') ->
  exists evs,
    tr' = tr ++ evs
    /\ fst acc' = fst acc ++ read_data evs
    /\ snd acc' = fold_left fill_meta (read_data evs) (snd acc).
Proof.
  revert acc st tr. induction hrefs as [|href rest IH]; intros acc st tr;
    cbn [read_bands].
  - intros [= <- <- <-]. exists []. rewrite !app_nil_r. now split.
  - unfold log. destruct (unauthorized _); [discriminate|].
    destruct (read_window w _ href bearer box) as [|data] eqn:Hr; [discriminate|].
    intros H. apply IH in H. destruct H as (evs & -> & Hf & Hs).
    cbn [fst snd] in Hf, Hs.
    eexists (EvProbe href bearer _ :: EvRead href bearer box (ReadOk data) :: evs).
    rewrite <- !app_assoc. split; [reflexivity|].
    cbn [read_data fold_left]. rewrite Hf, Hs, <- app_assoc. now split.
Qed.

(** So does the loop over the acquisitions. *)
Lemma extract_data (w : World) (bearer : option string) (box : bbox)
    (items : list feature) (acc : stack) (st : State) (tr : trace)
    (acc' : stack) (st' : State) (tr' : trace) :
  extract w bearer box items acc st tr = (Next acc', st', tr') ->
  exists evs,
    tr' = tr ++ evs
    /\ fst acc' = fst acc ++ read_data evs
    /\ snd acc' = fold_left fill_meta (read_data evs) (snd acc).
Proof.
  revert acc st tr. induction items as [|it items IH]; intros acc st tr;
    cbn [extract].
  - intros [= <- <- <-]. exists []. rewrite !app_nil_r. now split.
  - destruct (collect_hrefs _ _ _) as [b|[|href hrefs]].
    + apply IH.
    + apply IH.
    + destruct (read_bands w bearer box (href :: hrefs) acc st tr)
        as [[[acc1|o1] st1] tr1] eqn:Hrb; [|discriminate].
      apply read_bands_data in Hrb. destruct Hrb as (e1 & -> & Hf1 & Hs1).
      intros H. apply IH in H. destruct H as (e2 & -> & Hf2 & Hs2).
      exists (e1 ++ e2). rewrite <- app_assoc. split; [reflexivity|].
      rewrite read_data_app, fold_left_app, Hf2, Hs2, Hf1, Hs1, <- app_assoc.
      now split.
Qed.

Lemma slice_last_six (l : list band) :
  List.length l = 18%nat ->
  exists b r g, nth_error l 12 = Some b /\ nth_error l 13 = Some g
                /\ nth_error l 14 = Some r
                /\ rev (slice l (-6) (-3)) = [r; g; b].
Proof.
  intros H.
  do 18 (destruct l as [|? l]; [discriminate H|]).
  destruct l; [|discriminate H].
  eexists _, _, _. repeat split.
Qed.

Lemma build_preview_channels (w : World) (out_png : string)
    (arrays : list band) (tr : trace) (png : string) (evs : list event) :
  List.length arrays = 18%nat ->
  build_preview w out_png arrays tr = (png, tr ++ evs) ->
  forall path rgb ok,
    In (EvSavePng path rgb ok) evs ->
    evs = [EvSavePng path rgb ok] /\ path = out_png
    /\ exists r g b,
         nth_error arrays 14 = Some r /\ nth_error arrays 13 = Some g
         /\ nth_error arrays 12 = Some b /\ channels r g b rgb.
Proof.
  intros Hlen. destruct (slice_last_six arrays Hlen)
    as (b & r & g & Hb & Hg & Hr & Hrev).
  unfold build_preview. rewrite Hrev.
  destruct (same_shape r g) eqn:S1; cbn [andb].
  2:{ intros H path rgb ok Hin. exfalso.
      injection H as _ H. rewrite <- (app_nil_r tr) in H at 1.
      apply app_inv_head in H. subst evs. destruct Hin. }
  destruct (same_shape r b) eqn:S2.
  2:{ intros H path rgb ok Hin. exfalso.
      injection H as _ H. rewrite <- (app_nil_r tr) in H at 1.
      apply app_inv_head in H. subst evs. destruct Hin. }
  destruct (Preview._stretch (pixels r)) as [cr|] eqn:Er.
  2:{ intros H path rgb ok Hin. exfalso.
      injection H as _ H. rewrite <- (app_nil_r tr) in H at 1.
      apply app_inv_head in H. subst evs. destruct Hin. }
  destruct (Preview._stretch (pixels g)) as [cg|] eqn:Eg.
  2:{ intros H path rgb ok Hin. exfalso.
      injection H as _ H. rewrite <- (app_nil_r tr) in H at 1.
      apply app_inv_head in H. subst evs. destruct Hin. }
  destruct (Preview._stretch (pixels b)) as [cb|] eqn:Eb.
  2:{ intros H path rgb ok Hin. exfalso.
      injection H as _ H. rewrite <- (app_nil_r tr) in H at 1.
      apply app_inv_head in H. subst evs. destruct Hin. }
  unfold log. intros [= _ H] path rgb ok Hin.
  apply app_inv_head in H. subst evs.
  destruct Hin as [Hin|[]]. injection Hin as <- <- <-.
  split; [reflexivity|]. split; [reflexivity|].
  exists r, g, b. repeat split; auto.
  exists cr, cg, cb. now repeat split.
Qed.

(** X25. The tile holds what was read, in the order it was read.  When a
    run of [fetch_tile] ends with a tile, the 18 bands written to the
    GeoTIFF are the 18 windows the run read, band [k] being the [k]-th
    read, and the profile of the file is taken from the first of them, with
    a count of 18.  A preview, when one is saved, is made of the 15th, 14th
    and 13th windows, in that order, each stretched: the red, green and
    blue bands of the last acquisition read. *)
Theorem tile_bands_are_the_reads (w : World) (st : State) (tr : trace)
    (st' : State) (evs : list event) :
  fetch_tile w st tr = (Returned AtEnd, st', tr ++ evs) ->
  List.length (read_data evs) = 18%nat
  /\ (exists first, nth_error (read_data evs) 0 = Some first
      /\ exists path,
           In (EvWriteTif path (Some (profile_of first)) (read_data evs) true)
              evs)
  /\ (forall path meta bands ok,
        In (EvWriteTif path meta bands ok) evs ->
        bands = read_data evs /\ ok = true)
  /\ (forall path rgb ok,
        In (EvSavePng path rgb ok) evs ->
        exists r g b,
          nth_error (read_data evs) 14 = Some r
          /\ nth_error (read_data evs) 13 = Some g
          /\ nth_error (read_data evs) 12 = Some b
          /\ channels r g b rgb).
Proof.
  intros Hrun. apply fetch_tile_phases in Hrun.
  destruct Hrun as (ev_loc & ev_s & Hgeo & Hsearch & Hcase).
  destruct Hcase as [(_ & _ & _ & H)
                    |(lat & lon & st1 & found & items & st0 & r & st2 & tr2
                      & Hloc & Hs & Hrank & Hst0 & Hext & Hr)];
    [congruence|].
  destruct r as [acc|o1].
  2:{ destruct Hr as (<- & _ & _).
      destruct (extract_spec _ _ _ _ _ _ _ _ _ _ Hext) as (? & _ & _ & _ & []). }
  destruct (extract_spec _ _ _ _ _ _ _ _ _ _ Hext) as (ev_x0 & Htr0 & Hpr & _).
  apply extract_data in Hext. destruct Hext as (ev_x & -> & Hfst & Hsnd).
  apply app_inv_head in Htr0. subst ev_x0.
  cbn [fst snd app] in Hfst, Hsnd.
  assert (Hpre : read_data (ev_loc ++ ev_s) = []).
  { apply read_data_none, Forall_app. split.
    - eapply Forall_flip; [|exact Hgeo]. now intros [].
    - eapply Forall_flip; [|exact Hsearch]. now intros []. }
  unfold finish, log in Hr.
  destruct (Nat.eqb (List.length (fst acc)) 18) eqn:Hlen; cbn [negb] in Hr;
    [|discriminate].
  apply Nat.eqb_eq in Hlen.
  destruct (makedirs w _ _); cbn [negb] in Hr; [|discriminate].
  destruct (write_tif w _ _ _ _); cbn [negb] in Hr; [|discriminate].
  destruct (build_preview w _ (fst acc) _) as [png tr3] eqn:Hp.
  injection Hr as _ Htr.
  pose proof Hp as Hp'. apply build_preview_trace in Hp'.
  destruct Hp' as (ev_p & -> & Hfs).
  rewrite <- !app_assoc in Htr. apply app_inv_head in Htr. subst evs.
  set (dir := PyStr.path_join (getcwd w) "assets") in *.
  match type of Hp with
  | context [EvWriteTif ?p _ _ true] => set (out_tif := p) in *
  end.
  assert (Hfin : read_data ([EvMakedirs dir true]
                            ++ [EvWriteTif out_tif (snd acc) (fst acc) true]
                            ++ ev_p) = []).
  { apply read_data_none. repeat constructor.
    eapply Forall_flip; [|exact Hfs]. now intros []. }
  assert (Hall : read_data (ev_loc ++ ev_s ++ ev_x ++ [EvMakedirs dir true]
                            ++ [EvWriteTif out_tif (snd acc) (fst acc) true]
                            ++ ev_p) = fst acc).
  { rewrite (app_assoc ev_loc), read_data_app, Hpre.
    rewrite read_data_app, Hfin, app_nil_r. cbn [app]. now rewrite Hfst. }
  rewrite Hall. split; [exact Hlen|].
  assert (Hmeta : exists first, nth_error (fst acc) 0 = Some first
                                /\ snd acc = Some (profile_of first)).
  { rewrite Hsnd. rewrite <- Hfst.
    destruct (fst acc) as [|first more]; [discriminate Hlen|].
    exists first. split; [reflexivity|].
    cbn [fold_left]. apply (fill_meta_first None). }
  assert (Hin : forall e,
            In e (ev_loc ++ ev_s ++ ev_x ++ [EvMakedirs dir true]
                  ++ [EvWriteTif out_tif (snd acc) (fst acc) true] ++ ev_p) ->
            is_fs e = true ->
            e = EvMakedirs dir true
            \/ e = EvWriteTif out_tif (snd acc) (fst acc) true
            \/ In e ev_p).
  { intros e He Hfe. rewrite !in_app_iff in He.
    destruct He as [He|[He|[He|[He|[He|He]]]]].
    - rewrite Forall_forall in Hgeo. specialize (Hgeo e He). now destruct e.
    - rewrite Forall_forall in Hsearch. specialize (Hsearch e He).
      now destruct e.
    - rewrite Forall_forall in Hpr. specialize (Hpr e He). now destruct e.
    - destruct He as [<-|[]]. now left.
    - destruct He as [<-|[]]. right. now left.
    - right. now right. }
  split.
  { destruct Hmeta as (first & Hn & Hm). exists first. split; [exact Hn|].
    exists out_tif. rewrite <- Hm. rewrite !in_app_iff. do 4 right.
    left. now left. }
  split.
  { intros path meta bands ok He. destruct (Hin _ He eq_refl) as [H|[H|H]].
    - discriminate H.
    - injection H as _ _ <- <-. now split.
    - exfalso. revert H. clear -Hp. unfold build_preview, log in Hp.
      destruct (rev _) as [|? [|? [|? [|? ?]]]];
        try (injection Hp as _ Hp; rewrite <- (app_nil_r (_ ++ _)) in Hp at 1;
             apply app_inv_head in Hp; subst ev_p; intros []).
      destruct (_ && _);
        [|injection Hp as _ Hp; rewrite <- (app_nil_r (_ ++ _)) in Hp at 1;
          apply app_inv_head in Hp; subst ev_p; intros []].
      destruct (Preview._stretch _);
        [|injection Hp as _ Hp; rewrite <- (app_nil_r (_ ++ _)) in Hp at 1;
          apply app_inv_head in Hp; subst ev_p; intros []].
      destruct (Preview._stretch _);
        [|injection Hp as _ Hp; rewrite <- (app_nil_r (_ ++ _)) in Hp at 1;
          apply app_inv_head in Hp; subst ev_p; intros []].
      destruct (Preview._stretch _);
        [|injection Hp as _ Hp; rewrite <- (app_nil_r (_ ++ _)) in Hp at 1;
          apply app_inv_head in Hp; subst ev_p; intros []].
      injection Hp as _ Hp. apply app_inv_head in Hp. subst ev_p.
      intros [H|[]]. discriminate H. }
  intros path rgb ok He. destruct (Hin _ He eq_refl) as [H|[H|H]];
    try discriminate H.
  destruct (build_preview_channels _ _ _ _ _ _ Hlen Hp _ _ _ H)
    as (_ & _ & Hch). exact Hch.
Qed.

Lemma tile_bands_are_the_reads_witness :
  List.length
    (read_data (snd (fetch_tile Scenario.all_complete Scenario.paris_form [])))
  = 18%nat
  /\ forall path meta bands ok,
       In (EvWriteTif path meta bands ok)
          (snd (fetch_tile Scenario.all_complete Scenario.paris_form [])) ->
       bands = repeat Scenario.tiny_band 18.
Proof.
  destruct (tile_bands_are_the_reads Scenario.all_complete Scenario.paris_form
              []
              (snd (fst (fetch_tile Scenario.all_complete Scenario.paris_form [])))
              (snd (fetch_tile Scenario.all_complete Scenario.paris_form [])))
    as (Hlen & _ & Hbands & _).
  - vm_compute. reflexivity.
  - split; [exact Hlen|]. intros path meta bands ok Hin.
    destruct (Hbands _ _ _ _ Hin) as [-> _]. vm_compute. reflexivity.
Defined.

End StackFacts.
(** ** The two size formatters *)

Module SizesFacts.
Import PyStr Sizes.
Local Open Scope string_scope.

Lemma str_length_app (a b : string) :
  String.length (a ++ b) = (String.length a + String.length b)%nat.
Proof. induction a as [|x a IH]; cbn; [reflexivity|now rewrite IH]. Qed.

Lemma str_app_inv_head (s a b : string) : s ++ a = s ++ b -> a = b.
Proof.
  induction s as [|x s IH]; cbn; [auto|].
  intros [= H]. auto.
Qed.

(** Two texts with endings of the same length are equal only when the
    endings are. *)
Lemma str_app_inv_tail (s1 s2 a b : string) :
  String.length a = String.length b -> s1 ++ a = s2 ++ b -> a = b.
Proof.
  revert s2. induction s1 as [|x s1 IH]; intros s2 Hlen H.
  - cbn in H. destruct s2 as [|y s2]; [exact H|].
    apply (f_equal String.length) in H. cbn in H.
    rewrite str_length_app in H. lia.
  - destruct s2 as [|y s2].
    + apply (f_equal String.length) in H. cbn in H.
      rewrite str_length_app in H. lia.
    + cbn in H. injection H as _ H. eauto.
Qed.

Lemma format_f_ext (d : nat) (x y : Q) :
  Qnum x = Qnum y -> Qden x = Qden y -> format_f d x = format_f d y.
Proof. destruct x, y; cbn; intros -> ->; reflexivity. Qed.

(** A whole number printed with one decimal. *)
Lemma format_f_1_int (n : Z) :
  format_f 1 (inject_Z n) = str_of_int n ++ ".0".
Proof.
  unfold format_f, str_of_int, inject_Z. cbn -[Z.mul Z.div Z.modulo Z.pow Z.ltb Z.abs Z.to_N str_of_N Z.even append zeros String.length Nat.sub].
  change (10 ^ Z.pos 1)%Z with 10%Z.
  rewrite Z.mod_1_r, Z.div_1_r. change (2 * 0 <? 1)%Z with true. cbn iota.
  rewrite Z.mod_mul, Z.div_mul by lia.
  replace (Z.to_N (Z.abs n)) with (Z.abs_N n) by now destruct n.
  change (str_of_N (Z.to_N 0)) with "0".
  cbn [String.length Nat.sub zeros append].
  now rewrite <- MapFacts.str_app_assoc.
Qed.

Lemma scale_go (fuel : nat) (size : Q) (i : nat) :
  (1024 <= size)%Q -> (i < 4)%nat ->
  scale (S fuel) size i = scale fuel (size / 1024) (S i).
Proof.
  intros Hs Hi. cbn [scale].
  apply Qle_bool_iff in Hs. rewrite Hs.
  change (List.length size_names - 1)%nat with 4%nat.
  apply Nat.ltb_lt in Hi. now rewrite Hi.
Qed.

Lemma scale_stop (fuel : nat) (size : Q) (i : nat) :
  (size < 1024)%Q \/ (4 <= i)%nat ->
  scale fuel size i = (size, i).
Proof.
  intros H. destruct fuel as [|fuel]; [reflexivity|]. cbn [scale].
  change (List.length size_names - 1)%nat with 4%nat.
  destruct H as [H|H].
  - destruct (Qle_bool 1024 size) eqn:E; [|reflexivity].
    apply Qle_bool_iff in E. exfalso. revert H. apply Qle_not_lt. exact E.
  - apply Nat.ltb_ge in H. rewrite H. now rewrite andb_false_r.
Qed.

(** Four rounds are enough: the loop has stopped by itself. *)
Lemma scale_ends (fuel : nat) (size : Q) (i : nat) :
  (4 <= i + fuel)%nat ->
  let '(s, j) := scale fuel size i in
  Qle_bool 1024 s && (j <? List.length size_names - 1)%nat = false.
Proof.
  revert size i. induction fuel as [|fuel IH]; intros size i H.
  - cbn [scale]. change (List.length size_names - 1)%nat with 4%nat.
    assert (E : (i <? 4)%nat = false) by (apply Nat.ltb_ge; lia).
    rewrite E. apply andb_false_r.
  - cbn [scale].
    destruct (Qle_bool 1024 size && (i <? List.length size_names - 1)%nat) eqn:E.
    + apply IH. lia.
    + exact E.
Qed.

Local Ltac by_ints :=
  unfold Qle, Qlt, Qdiv, Qmult, Qinv, inject_Z; cbn; lia.

Lemma scale_bytes (n : Z) :
  (n < 1024)%Z -> scale 4 (inject_Z n) 0 = (inject_Z n, 0%nat).
Proof. intros H. apply scale_stop. left. by_ints. Qed.

Lemma scale_kb (n : Z) :
  (1024 <= n < 1024 ^ 2)%Z ->
  scale 4 (inject_Z n) 0 = (inject_Z n / 1024, 1%nat)%Q.
Proof.
  intros H. rewrite scale_go; [|by_ints|lia].
  apply scale_stop. left. by_ints.
Qed.

Lemma scale_mb (n : Z) :
  (1024 ^ 2 <= n < 1024 ^ 3)%Z ->
  scale 4 (inject_Z n) 0 = (inject_Z n / 1024 / 1024, 2%nat)%Q.
Proof.
  intros H. rewrite scale_go; [|by_ints|lia].
  rewrite scale_go; [|by_ints|lia].
  apply scale_stop. left. by_ints.
Qed.

Lemma scale_gb (n : Z) :
  (1024 ^ 3 <= n < 1024 ^ 4)%Z ->
  scale 4 (inject_Z n) 0 = (inject_Z n / 1024 / 1024 / 1024, 3%nat)%Q.
Proof.
  intros H. rewrite scale_go; [|by_ints|lia].
  rewrite scale_go; [|by_ints|lia].
  rewrite scale_go; [|by_ints|lia].
  apply scale_stop. left. by_ints.
Qed.

Lemma scale_tb (n : Z) :
  (1024 ^ 4 <= n)%Z ->
  scale 4 (inject_Z n) 0
  = (inject_Z n / 1024 / 1024 / 1024 / 1024, 4%nat)%Q.
Proof.
  intros H. rewrite scale_go; [|by_ints|lia].
  rewrite scale_go; [|by_ints|lia].
  rewrite scale_go; [|by_ints|lia].
  rewrite scale_go; [|by_ints|lia].
  apply scale_stop. right. lia.
Qed.

(** Below 1 KiB the first formatter prints a decimal and the second does
    not. *)
Lemma small_sizes (n : Z) :
  n <> 0%Z -> (n < 1024)%Z ->
  format_file_size n = str_of_int n ++ ".0 B"
  /\ file_utils_format_file_size n = str_of_int n ++ " B".
Proof.
  intros Hn H. unfold format_file_size, file_utils_format_file_size.
  apply Z.eqb_neq in Hn. rewrite Hn, (scale_bytes n H).
  apply Z.ltb_lt in H. rewrite H. split; [|reflexivity].
  rewrite format_f_1_int. cbn [nth size_names].
  now rewrite MapFacts.str_app_assoc.
Qed.

(** From 1 TiB on the first formatter counts in TB and the second in GB. *)
Lemma large_sizes (n : Z) :
  (1024 ^ 4 <= n)%Z ->
  format_file_size n
  = format_f 1 (inject_Z n / 1024 / 1024 / 1024 / 1024) ++ " TB"
  /\ file_utils_format_file_size n
     = format_f 1 (inject_Z n / inject_Z (1024 ^ 3)) ++ " GB".
Proof.
  intros H. unfold format_file_size, file_utils_format_file_size.
  assert (E0 : (n =? 0)%Z = false) by (apply Z.eqb_neq; lia).
  assert (E1 : (n <? 1024)%Z = false) by (apply Z.ltb_ge; lia).
  assert (E2 : (n <? 1024 ^ 2)%Z = false) by (apply Z.ltb_ge; lia).
  assert (E3 : (n <? 1024 ^ 3)%Z = false) by (apply Z.ltb_ge; lia).
  rewrite E0, E1, E2, E3, (scale_tb n H). split; reflexivity.
Qed.

(** Between 1 KiB and 1 TiB the two formatters print the same text. *)
Lemma middle_sizes (n : Z) :
  (1024 <= n < 1024 ^ 4)%Z ->
  format_file_size n = file_utils_format_file_size n.
Proof.
  intros H. unfold format_file_size, file_utils_format_file_size.
  assert (E0 : (n =? 0)%Z = false) by (apply Z.eqb_neq; lia).
  assert (E1 : (n <? 1024)%Z = false) by (apply Z.ltb_ge; lia).
  rewrite E0, E1.
  destruct (n <? 1024 ^ 2)%Z eqn:E2.
  { apply Z.ltb_lt in E2. rewrite scale_kb by lia. reflexivity. }
  apply Z.ltb_ge in E2.
  destruct (n <? 1024 ^ 3)%Z eqn:E3.
  { apply Z.ltb_lt in E3. rewrite scale_mb by lia.
    cbn [nth size_names append]. f_equal.
    apply format_f_ext.
    - unfold Qdiv, Qmult, Qinv, inject_Z. cbn. lia.
    - reflexivity. }
  apply Z.ltb_ge in E3. rewrite scale_gb by lia.
  cbn [nth size_names append]. f_equal.
  apply format_f_ext.
  - unfold Qdiv, Qmult, Qinv, inject_Z. cbn. lia.
  - reflexivity.
Qed.

(** X26. The two [format_file_size] functions of the refactored
    application ([utils/helpers.py] and [utils/file_utils.py]) print the
    same text exactly for a size of 0 and for the sizes from 1 KiB up to,
    not including, 1 TiB.  Elsewhere they differ: below 1 KiB the first
    prints one decimal where the second prints the integer, and from 1 TiB
    on the first counts in TB where the second stays in GB. *)
Theorem size_formatters_agree_in_the_middle (n : Z) :
  format_file_size n = file_utils_format_file_size n
  <-> n = 0%Z \/ (1024 <= n < 1024 ^ 4)%Z.
Proof.
  split.
  - intros E.
    destruct (Z.eq_dec n 0) as [H0|H0]; [now left|].
    destruct (Z_lt_le_dec n 1024) as [H1|H1].
    { exfalso. destruct (small_sizes n H0 H1) as [Ea Eb].
      rewrite Ea, Eb in E. apply str_app_inv_head in E. discriminate E. }
    destruct (Z_lt_le_dec n (1024 ^ 4)) as [H2|H2]; [right; lia|].
    exfalso. destruct (large_sizes n H2) as [Ea Eb].
    rewrite Ea, Eb in E.
    apply str_app_inv_tail in E; [discriminate E|reflexivity].
  - intros [->|H]; [reflexivity|].
    apply middle_sizes, H.
Qed.

End SizesFacts.
